(** * documentexplore: the document-to-topic pipeline, embedded in Rocq

    A shallow embedding of the decision logic of the Python pipeline
    (backend/text_chunking.py, backend/clustering.py,
    backend/topic_naming.py, backend/generate_json.py and the overlap
    helper of app.py), with the properties of its specification stated
    and proved over that embedding.

    Conventions of the embedding:
    - a Python [str] is a [string] and a character an [ascii]: the model
      covers ASCII text, a byte above 127 being carried along as a
      character that is neither a blank nor a letter;
    - a Python [int] is a [Z], except for lengths, indices and slice
      bounds that the code only uses with non-negative values, which are
      [nat];
    - [print] appends a line to a log that the functions return next to
      their result;
    - a raised exception is a value of [exn]; a function that can raise
      returns a [result];
    - the calls into scikit-learn and numpy (KMeans, silhouette_score,
      CountVectorizer) are parameters of the functions that make them. *)

From stdpp Require Import base strings list gmap sets.
From Stdlib Require Import ZArith QArith Lia Ascii DecimalString DecimalZ PrimFloat.

Local Open Scope string_scope.
Local Open Scope list_scope.
Local Open Scope nat_scope.

(** ** Python values shared by all stages *)

(** The exceptions the pipeline can raise. *)
Inductive exn : Type :=
  | ValueError (msg : string)
  | KeyError (key : string)
  | IndexError (msg : string).

Inductive result (A : Type) : Type :=
  | Ok (a : A)
  | Raise (e : exn).
Arguments Ok {A} a.
Arguments Raise {A} e.

(** [str(n)] and the [{n}] of an f-string, for an integer. *)
Definition str_of_Z (n : Z) : string := NilEmpty.string_of_int (Z.to_int n).

Definition str_of_nat (n : nat) : string := str_of_Z (Z.of_nat n).

(** ** Python string operations *)

Module PyStr.

Definition nl : string := String (ascii_of_nat 10) "".

(** [s[:n]] and [s[n:]] for [n >= 0]. *)
Fixpoint take (n : nat) (s : string) : string :=
  match n, s with
  | S n', String c s' => String c (take n' s')
  | _, _ => ""
  end.

Fixpoint drop (n : nat) (s : string) : string :=
  match n, s with
  | S n', String _ s' => drop n' s'
  | _, _ => s
  end.

(** [s[a:b]] for [0 <= a <= b]. *)
Definition slice (s : string) (a b : nat) : string := take (b - a) (drop a s).

(** [str.isspace] on one ASCII character: tab to carriage return, the
    four separators and the blank. *)
Definition is_space (c : ascii) : bool :=
  let n := nat_of_ascii c in
  ((9 <=? n) && (n <=? 13)) || ((28 <=? n) && (n <=? 32)).

Fixpoint lstrip (s : string) : string :=
  match s with
  | String c s' => if is_space c then lstrip s' else s
  | "" => ""
  end.

Fixpoint rstrip (s : string) : string :=
  match s with
  | String c s' =>
      match rstrip s' with
      | "" => if is_space c then "" else String c ""
      | r => String c r
      end
  | "" => ""
  end.

(** [s.strip()] *)
Definition strip (s : string) : string := lstrip (rstrip s).

(** [sep.join(l)] is [String.concat sep l]; [''.join(l)]: *)
Definition concat_all (l : list string) : string := String.concat "" l.

(** [s.split(sep)] for a non-empty separator: the pieces between the
    non-overlapping occurrences of [sep], scanned from the left.
    [skip] counts the characters of a matched separator still to pass;
    [cur] is the piece being read. *)
Fixpoint split_on_aux (sep : string) (skip : nat) (cur : string) (s : string)
  : list string :=
  match s with
  | "" => [cur]
  | String c s' =>
      match skip with
      | S k => split_on_aux sep k cur s'
      | O =>
          if String.prefix sep s
          then cur :: split_on_aux sep (String.length sep - 1) "" s'
          else split_on_aux sep 0 (cur +:+ String c "") s'
      end
  end.

Definition split_on (sep s : string) : list string := split_on_aux sep 0 "" s.

(** [s.split()]: the maximal runs of non-whitespace characters. *)
Fixpoint words_aux (cur : string) (s : string) : list string :=
  match s with
  | "" => match cur with "" => [] | _ => [cur] end
  | String c s' =>
      if is_space c
      then match cur with
           | "" => words_aux "" s'
           | _ => cur :: words_aux "" s'
           end
      else words_aux (cur +:+ String c "") s'
  end.

Definition words (s : string) : list string := words_aux "" s.

Definition is_upper (c : ascii) : bool :=
  let n := nat_of_ascii c in (65 <=? n) && (n <=? 90).

Definition is_lower (c : ascii) : bool :=
  let n := nat_of_ascii c in (97 <=? n) && (n <=? 122).

Definition lower_char (c : ascii) : ascii :=
  if is_upper c then ascii_of_nat (nat_of_ascii c + 32) else c.

Definition upper_char (c : ascii) : ascii :=
  if is_lower c then ascii_of_nat (nat_of_ascii c - 32) else c.

(** [s.lower()] *)
Fixpoint lower (s : string) : string :=
  match s with
  | String c s' => String (lower_char c) (lower s')
  | "" => ""
  end.

(** [s.capitalize()]: first character upper-cased, the rest lower-cased. *)
Definition capitalize (s : string) : string :=
  match s with
  | String c s' => String (upper_char c) (lower s')
  | "" => ""
  end.

Fixpoint all_chars (p : ascii -> bool) (s : string) : bool :=
  match s with
  | String c s' => p c && all_chars p s'
  | "" => true
  end.

(** [s.isalpha()]: non-empty and every character a letter. *)
Definition isalpha (s : string) : bool :=
  match s with
  | "" => false
  | _ => all_chars (fun c => is_upper c || is_lower c) s
  end.

Definition is_empty (s : string) : bool :=
  match s with "" => true | _ => false end.

End PyStr.

(** ** Chunker (backend/text_chunking.py) *)

Module Chunker.
Import PyStr.

(** The [while start < len(text)] loop of [chunk_text]; [chunks] and
    [start] are the loop's two variables. The loop does not end when
    [max_chars] is 0: [None] stands for an exhausted [fuel]. *)
Fixpoint chunk_loop (fuel : nat) (text : string) (max_chars : nat)
    (start : nat) (chunks : list string) : option (list string) :=
  if start <? String.length text then
    match fuel with
    | O => None
    | S fuel' =>
        let chunk := slice text start (start + max_chars) in
        chunk_loop fuel' text max_chars (start + max_chars) (chunks ++ [chunk])
    end
  else Some chunks.

Definition chunk_text (text : string) (max_chars : nat) : option (list string) :=
  chunk_loop (String.length text) text max_chars 0 [].

Definition doc_marker : string := nl +:+ nl +:+ "=== NEW DOCUMENT ===" +:+ nl +:+ nl.

Definition chunk_end : string := nl +:+ "---CHUNK END---" +:+ nl.

(** [all_chunks.extend(chunk_text(doc, max_chars))] over the documents. *)
Fixpoint chunk_docs (docs : list string) (max_chars : nat) : option (list string) :=
  match docs with
  | [] => Some []
  | doc :: rest =>
      match chunk_text doc max_chars with
      | None => None
      | Some chunks =>
          match chunk_docs rest max_chars with
          | None => None
          | Some more => Some (chunks ++ more)
          end
      end
  end.

(** What [chunk_all_texts] leaves behind: the chunks it computed, the
    chunks as it writes them (each one stripped), the content of the
    output file and the line it prints. *)
Record chunked := {
    all_chunks : list string;
    written : list string;
    output : string;
    printed : string
  }.

Definition chunk_all_texts (full_text output_file : string) (max_chars : nat)
  : option chunked :=
  let docs := split_on doc_marker full_text in
  match chunk_docs docs max_chars with
  | None => None
  | Some chunks =>
      let stripped := map strip chunks in
      Some {| all_chunks := chunks;
              written := stripped;
              output := concat_all (map (fun c => c +:+ chunk_end) stripped);
              printed := "Chunking complete, " +:+ str_of_nat (length chunks)
                         +:+ " chunks saved to " +:+ output_file |}
  end.

(** ceil(a / b) on naturals. *)
Definition ceil_div (a b : nat) : nat := (a + b - 1) / b.

(** What is expected of the chunks of one document: [chunk_text]
    returns them, they are ceil(len/max) many, none is longer than the
    maximum, and end to end they are the document. *)
Definition doc_chunks_ok (max_chars : nat) (doc : string) (chunks : list string) : Prop :=
  chunk_text doc max_chars = Some chunks
  /\ length chunks = ceil_div (String.length doc) max_chars
  /\ Forall (fun c => String.length c <= max_chars) chunks
  /\ concat_all chunks = doc.

End Chunker.

(** ** Chunk records *)

(** A record of embeddings.json / clustered_embeddings.json: a JSON object
    with the keys "id" and "text", and the keys "embedding" and "cluster"
    once a stage has written them ([None]: the key is absent). *)
Record item := {
  id : Z;
  text : string;
  embedding : option (list float);
  cluster : option Z
}.

Definition set_cluster (c : Z) (it : item) : item :=
  {| id := id it; text := text it; embedding := embedding it; cluster := Some c |}.

(** ** Cluster selector and clusterer (backend/clustering.py) *)

Module Clustering.

(** A row of [X] is one chunk's vector. The vectorizer gives every chunk
    a vector of the same length, so [np.array(vectors)] is a matrix and
    the [X.ndim == 1] reshape is not taken. *)
Definition matrix : Type := list (list float).

(** What the stage prints, and the model fits it asks scikit-learn for. *)
Inductive event : Type :=
  | SilhouetteLine (n_clusters : Z) (score : Q)
  | SilhouetteError (n_clusters : Z) (e : exn)
  | OptimalLine (best : Z)
  | NotEnoughWarning (n_samples : nat) (num_clusters : Z)
  | ReducingLine (num_clusters : Z)
  | KMeansFit (num_clusters : Z) (n_samples : nat)
  | SkippingWarning (e : exn)
  | SavedLine.

(** [range(start, stop, step)] for [step >= 1]. *)
Definition py_range (start stop step : Z) : list Z :=
  map (fun i => (start + Z.of_nat i * step)%Z)
      (seq 0 (Z.to_nat ((stop - start + step - 1) / step))).

(** The first two assignments of [determine_optimal_clusters]. *)
Definition min_k (doc_size : nat) (min_clusters : Z) : Z :=
  Z.min min_clusters (Z.max 2 (Z.of_nat doc_size / 20)).

Definition max_k (doc_size : nat) (min_clusters max_clusters : Z) : Z :=
  Z.min max_clusters
        (Z.max (min_k doc_size min_clusters + 2) (Z.of_nat doc_size / 5)).

(** [cluster_range], from the adjusted bounds. *)
Definition cluster_range (min_clusters max_clusters : Z) : list Z :=
  if (30 <? max_clusters)%Z then
    let step := ((max_clusters - min_clusters) / 10)%Z in
    py_range min_clusters max_clusters (Z.max 1 step)
  else py_range min_clusters max_clusters 1.

(** [max(silhouette_scores, key=lambda x: x[1])]: the first entry with
    the highest score. *)
Fixpoint max_by_score (best : Z * Q) (rest : list (Z * Q)) : Z * Q :=
  match rest with
  | [] => best
  | x :: rest' =>
      if Qle_bool (snd x) (snd best) then max_by_score best rest'
      else max_by_score x rest'
  end.

Section WithSklearn.

(** [KMeans(n_clusters=k, random_state=42).fit_predict(X)]: one label
    per row, or the exception scikit-learn raises. *)
Variable kmeans : Z -> matrix -> result (list Z).

(** The body of the selector's [try]: fit
    [KMeans(n_clusters=k, random_state=42, n_init=10)] on the
    standardized [X] and take [silhouette_score] of its labels. A
    score is a float; the selector only compares scores, and the model
    carries them as rationals. *)
Variable silhouette : Z -> matrix -> result Q.

(** The [for n_clusters in cluster_range] loop. *)
Fixpoint score_loop (X : matrix) (candidates : list Z)
    (silhouette_scores : list (Z * Q)) (log : list event)
  : list (Z * Q) * list event :=
  match candidates with
  | [] => (silhouette_scores, log)
  | n_clusters :: rest =>
      if (Z.of_nat (length X) <=? n_clusters)%Z then
        score_loop X rest silhouette_scores log
      else
        match silhouette n_clusters X with
        | Ok avg =>
            score_loop X rest (silhouette_scores ++ [(n_clusters, avg)])
              (log ++ [KMeansFit n_clusters (length X);
                       SilhouetteLine n_clusters avg])
        | Raise e =>
            score_loop X rest silhouette_scores
              (log ++ [KMeansFit n_clusters (length X);
                       SilhouetteError n_clusters e])
        end
  end.

Definition determine_optimal_clusters (X : matrix) (min_clusters max_clusters : Z)
  : Z * list event :=
  let doc_size := length X in
  let min_clusters' := min_k doc_size min_clusters in
  let max_clusters' := max_k doc_size min_clusters max_clusters in
  let candidates := cluster_range min_clusters' max_clusters' in
  if length candidates <? 2 then (min_clusters', [])
  else
    let '(silhouette_scores, log) := score_loop X candidates [] [] in
    match silhouette_scores with
    | [] => (min_clusters', log)
    | first :: rest =>
        let best_n_clusters := fst (max_by_score first rest) in
        (best_n_clusters, log ++ [OptimalLine best_n_clusters])
    end.

(** [item["embedding"] for item in embeddings_data if "embedding" in
    item and item["embedding"]] *)
Definition has_embedding (it : item) : bool :=
  match embedding it with
  | Some (_ :: _) => true
  | _ => false
  end.

Fixpoint vectors (embeddings_data : list item) : matrix :=
  match embeddings_data with
  | [] => []
  | it :: rest =>
      match embedding it with
      | Some (x :: v) => (x :: v) :: vectors rest
      | _ => vectors rest
      end
  end.

Definition no_embeddings : exn :=
  ValueError "No embeddings found. Please check that the embedding generation step produced output.".

Definition perform_clustering (embeddings_data : list item) (num_clusters : option Z)
  : result (list Z) * list event :=
  let X := vectors embeddings_data in
  match X with
  | [] => (Raise no_embeddings, [])
  | _ =>
      let '(num_clusters1, log1) :=
        match num_clusters with
        | Some k => if (k <=? 0)%Z then determine_optimal_clusters X 3 50 else (k, [])
        | None => determine_optimal_clusters X 3 50
        end in
      let '(num_clusters2, log2) :=
        if (Z.of_nat (length X) <? num_clusters1)%Z then
          let reduced := Z.max 2 (Z.of_nat (length X) / 3) in
          (reduced, log1 ++ [NotEnoughWarning (length X) num_clusters1;
                             ReducingLine reduced])
        else (num_clusters1, log1) in
      (kmeans num_clusters2 X, log2 ++ [KMeansFit num_clusters2 (length X)])
  end.

(** [for i, cluster in enumerate(clusters): embeddings_data[i]["cluster"]
    = int(cluster)]; [i] is the index of the label [clusters] starts
    with. A label past the last record raises IndexError. *)
Fixpoint label_loop (i : nat) (clusters : list Z) (embeddings_data : list item)
  : result (list item) :=
  match clusters with
  | [] => Ok embeddings_data
  | c :: rest =>
      match embeddings_data !! i with
      | None => Raise (IndexError "list index out of range")
      | Some it => label_loop (S i) rest (<[i := set_cluster c it]> embeddings_data)
      end
  end.

(** The records [save_clustered_data] dumps to its output file. *)
Definition save_clustered_data (embeddings_data : list item) (clusters : list Z)
  : result (list item) * list event :=
  match label_loop 0 clusters embeddings_data with
  | Ok saved => (Ok saved, [SavedLine])
  | Raise e => (Raise e, [])
  end.

(** The script's entry point: cluster, fall back to no labels on a
    ValueError, save. *)
Definition clustering_main (embeddings_data : list item)
  : result (list item) * list event :=
  match perform_clustering embeddings_data None with
  | (Ok clusters, log) =>
      let '(r, log') := save_clustered_data embeddings_data clusters in
      (r, log ++ log')
  | (Raise (ValueError msg), log) =>
      let '(r, log') := save_clustered_data embeddings_data [] in
      (r, log ++ [SkippingWarning (ValueError msg)] ++ log')
  | (Raise e, log) => (Raise e, log)
  end.

End WithSklearn.

(** The number of vectors that precede record [i]: the row of [X], and
    so the position in the labels, of the vector of record [i]. *)
Definition rank (embeddings_data : list item) (i : nat) : nat :=
  length (vectors (take i embeddings_data)).

(** Record [i] has a vector and is saved with the label computed for
    that vector. *)
Definition receives_own_label (embeddings_data : list item) (labels : list Z)
    (saved : list item) (i : nat) : Prop :=
  exists it l,
    embeddings_data !! i = Some it
    /\ has_embedding it = true
    /\ labels !! rank embeddings_data i = Some l
    /\ saved !! i = Some (set_cluster l it).

(** scikit-learn's side of the calls, as far as the pipeline relies on
    it: [fit_predict] raises a ValueError when asked for more clusters
    than there are rows (or for none), and otherwise returns one label
    below [k] per row. *)
Definition kmeans_contract (kmeans : Z -> matrix -> result (list Z)) : Prop :=
  forall k X,
    ((1 <= k <= Z.of_nat (length X))%Z ->
       exists labels, kmeans k X = Ok labels
                      /\ length labels = length X
                      /\ Forall (fun l => (0 <= l < k)%Z) labels)
    /\ (~ (1 <= k <= Z.of_nat (length X))%Z ->
          exists msg, kmeans k X = Raise (ValueError msg)).

(** A stand-in that meets the contract: row [i] gets label [i mod k]. *)
Definition kmeans_round_robin (k : Z) (X : matrix) : result (list Z) :=
  if ((1 <=? k) && (k <=? Z.of_nat (length X)))%Z
  then Ok (map (fun i => (Z.of_nat i mod k)%Z) (seq 0 (length X)))
  else Raise (ValueError "n_samples should be >= n_clusters").

(** A stand-in scorer: more clusters score lower. *)
Definition silhouette_flat (k : Z) (X : matrix) : result Q := Ok (1 # Z.to_pos k).

(** Sample inputs. *)
Definition one_vector : list item :=
  [ {| id := 0; text := "alpha beta"; embedding := Some [0.5%float; 0.25%float];
       cluster := None |} ].

Definition two_vectors : list item :=
  [ {| id := 0; text := "alpha beta"; embedding := Some [0.5%float; 0.25%float];
       cluster := None |};
    {| id := 1; text := "gamma delta"; embedding := Some [0%float; 1%float];
       cluster := None |} ].

Definition mixed_records : list item :=
  [ {| id := 0; text := "the of and"; embedding := None; cluster := None |};
    {| id := 1; text := "alpha beta"; embedding := Some [0.5%float; 0.25%float];
       cluster := None |};
    {| id := 2; text := "gamma delta"; embedding := Some [0%float; 1%float];
       cluster := None |} ].

End Clustering.

(** ** Topic namer (backend/topic_naming.py) *)

Module TopicNaming.
Import PyStr.

Inductive event : Type :=
  | NamingError (cluster_id : Z) (e : exn).

Definition topic_label (cluster_id : Z) : string := "Topic " +:+ str_of_Z cluster_id.

Definition cluster_label (cluster_id : Z) : string := "Cluster " +:+ str_of_Z cluster_id.

(** [[feature_names[i] for i in idx]]; an index out of range raises. *)
Fixpoint pick (feature_names : list string) (idx : list nat) : result (list string) :=
  match idx with
  | [] => Ok []
  | i :: rest =>
      match feature_names !! i with
      | None => Raise (IndexError "index out of bounds")
      | Some name =>
          match pick feature_names rest with
          | Ok names => Ok (name :: names)
          | Raise e => Raise e
          end
      end
  end.

Section WithVectorizer.

(** [MAX_KEYWORDS] of the configuration module. *)
Variable MAX_KEYWORDS : nat.

(** [CountVectorizer(stop_words='english', max_features=100,
    ngram_range=(1, 3))] fitted on the samples: the feature names and,
    for each, its count summed over the samples
    ([np.sum(X.toarray(), axis=0)]), or the exception raised. *)
Variable count_vectorizer : list string -> result (list string * list Z).

(** [np.argsort]: the indices that sort the counts in increasing order. *)
Variable argsort : list Z -> list nat.

(** The body of the [try]. *)
Definition name_cluster_body (text_samples : list string) (cluster_id : Z)
  : result string :=
  if length text_samples =? 0 then Ok (topic_label cluster_id)
  else
    match count_vectorizer text_samples with
    | Raise e => Raise e
    | Ok (feature_names, phrase_counts) =>
        let sorted_idx := rev (argsort phrase_counts) in
        match pick feature_names (firstn (MAX_KEYWORDS * 2) sorted_idx) with
        | Raise e => Raise e
        | Ok top_phrases =>
            let multi_word_phrases :=
              List.filter (fun p => 1 <? length (words p)) top_phrases in
            let single_words :=
              List.filter (fun p => length (words p) =? 1) top_phrases in
            let selected0 :=
              match multi_word_phrases with
              | [] => []
              | _ => firstn (Nat.min MAX_KEYWORDS (length multi_word_phrases))
                            multi_word_phrases
              end in
            let selected_phrases :=
              if length selected0 <? MAX_KEYWORDS then
                let needed := MAX_KEYWORDS - length selected0 in
                selected0 ++ firstn needed single_words
              else selected0 in
            match selected_phrases with
            | [] => Ok (topic_label cluster_id)
            | _ =>
                let formatted_phrases :=
                  map capitalize (firstn MAX_KEYWORDS selected_phrases) in
                match formatted_phrases with
                | [] => Raise (IndexError "list index out of range")
                | first :: others =>
                    let title :=
                      if 1 <? length formatted_phrases
                      then first +:+ " & " +:+ String.concat " " others
                      else first in
                    Ok (if is_empty title then cluster_label cluster_id else title)
                end
            end
        end
    end.

(** [name_cluster]: the label and what is printed. *)
Definition name_cluster (text_samples : list string) (cluster_id : Z)
  : string * list event :=
  match name_cluster_body text_samples cluster_id with
  | Ok title => (title, [])
  | Raise e => (cluster_label cluster_id, [NamingError cluster_id e])
  end.

End WithVectorizer.

(** Stand-ins for the two library calls, for texts made of plain words
    separated by blanks: the words that are not stop words and their
    runs of two and three, in order of first occurrence, each with the
    number of its occurrences; an empty vocabulary raises, as
    scikit-learn does. *)
Definition stop_words : list string :=
  ["the"; "and"; "of"; "a"; "an"; "is"; "are"; "to"; "in"; "it"; "that"; "this"].

Definition tokens (doc : string) : list string :=
  List.filter (fun w => negb (existsb (String.eqb w) stop_words)
                        && (1 <? String.length w))
              (words (lower doc)).

Fixpoint ngrams2 (ts : list string) : list string :=
  match ts with
  | a :: (b :: _) as rest => (a +:+ " " +:+ b) :: ngrams2 rest
  | _ => []
  end.

Fixpoint ngrams3 (ts : list string) : list string :=
  match ts with
  | a :: (b :: c :: _) as rest => (a +:+ " " +:+ b +:+ " " +:+ c) :: ngrams3 rest
  | _ => []
  end.

Definition doc_terms (doc : string) : list string :=
  let ts := tokens doc in ts ++ ngrams2 ts ++ ngrams3 ts.

Fixpoint dedup (seen : list string) (l : list string) : list string :=
  match l with
  | [] => []
  | x :: rest =>
      if existsb (String.eqb x) seen then dedup seen rest
      else x :: dedup (x :: seen) rest
  end.

Definition count_occ_str (l : list string) (x : string) : Z :=
  Z.of_nat (length (List.filter (String.eqb x) l)).

Definition toy_vectorizer (text_samples : list string) : result (list string * list Z) :=
  let terms := flat_map doc_terms text_samples in
  match dedup [] terms with
  | [] => Raise (ValueError "empty vocabulary; perhaps the documents only contain stop words")
  | vocabulary => Ok (vocabulary, map (count_occ_str terms) vocabulary)
  end.

Fixpoint insert_by_count (counts : list Z) (i : nat) (sorted : list nat) : list nat :=
  match sorted with
  | [] => [i]
  | j :: rest =>
      if (nth i counts 0 <? nth j counts 0)%Z then i :: sorted
      else j :: insert_by_count counts i rest
  end.

Definition stable_argsort (counts : list Z) : list nat :=
  fold_left (fun sorted i => insert_by_count counts i sorted)
            (seq 0 (length counts)) [].

End TopicNaming.

(** ** Aggregator (backend/generate_json.py) *)

Module Aggregator.

Inductive event : Type :=
  | EmptyDataWarning
  | GeneratedLine.

Record cluster_entry := {
    cl_id : Z;
    cl_name : string;
    cl_items : list item
  }.

(** The final artifact, docexplore.json. *)
Record artifact := {
    title : string;
    description : string;
    similarity : Q;
    charsPerPixel : Z;
    clusters : list cluster_entry
  }.

(** [clusters_dict] is a dict from cluster id to a list of records, in
    insertion order. [dict_append cid item d] is
    [if cid not in d: d[cid] = []] followed by [d[cid].append(item)]. *)
Fixpoint dict_append (cid : Z) (it : item) (d : list (Z * list item))
  : list (Z * list item) :=
  match d with
  | [] => [(cid, [it])]
  | (k, items) :: rest =>
      if (k =? cid)%Z then (k, items ++ [it]) :: rest
      else (k, items) :: dict_append cid it rest
  end.

(** [for item in clustered_data: cid = item["cluster"] ...]; a record
    without the key raises KeyError. *)
Fixpoint group_loop (clustered_data : list item) (clusters_dict : list (Z * list item))
  : result (list (Z * list item)) :=
  match clustered_data with
  | [] => Ok clusters_dict
  | it :: rest =>
      match cluster it with
      | None => Raise (KeyError "cluster")
      | Some cid => group_loop rest (dict_append cid it clusters_dict)
      end
  end.

(** [cluster_names.get(str(cid), f"Cluster {cid}")] *)
Definition name_of (cluster_names : gmap string string) (cid : Z) : string :=
  default ("Cluster " +:+ str_of_Z cid) (cluster_names !! str_of_Z cid).

(** The artifact [generate_docexplore_json] writes, or the exception
    that stops it before the file is opened for writing. *)
Definition generate_docexplore_json (title description : string)
    (clustered_data : list item) (cluster_names : gmap string string)
    (similarity_threshold : Q) (charsPerPixel : Z)
  : result artifact * list event :=
  let log := match clustered_data with [] => [EmptyDataWarning] | _ => [] end in
  match group_loop clustered_data [] with
  | Raise e => (Raise e, log)
  | Ok clusters_dict =>
      let clusters :=
        map (fun '(cid, items) =>
               {| cl_id := cid; cl_name := name_of cluster_names cid;
                  cl_items := items |})
            clusters_dict in
      (Ok {| title := title; description := description;
             similarity := similarity_threshold;
             charsPerPixel := charsPerPixel;
             clusters := clusters |},
       log ++ [GeneratedLine])
  end.

(** The script's call. *)
Definition aggregator_main (clustered_data : list item)
    (cluster_names : gmap string string) : result artifact * list event :=
  generate_docexplore_json "Document Insights"
    "Explore key topics and insights extracted from the document."
    clustered_data cluster_names (8 # 10) 20.

(** The analysis page of app.py, up to the point where it has the topics
    in hand: [clusters = docexplore_data.get("clusters", [])] and
    [if not clusters: st.error(...); st.stop()]. *)
Inductive page : Type :=
  | NoClustersError
  | Analysis (topics_dict : list (Z * string)) (clustered_data : list item).

(** [{cluster["id"]: cluster["name"] for cluster in clusters}]: a later
    entry with the same id replaces the name and keeps the position. *)
Fixpoint dict_set (cid : Z) (name : string) (d : list (Z * string)) : list (Z * string) :=
  match d with
  | [] => [(cid, name)]
  | (k, v) :: rest =>
      if (k =? cid)%Z then (k, name) :: rest else (k, v) :: dict_set cid name rest
  end.

Definition analysis_page (a : artifact) : page :=
  match clusters a with
  | [] => NoClustersError
  | cls =>
      Analysis (fold_left (fun d c => dict_set (cl_id c) (cl_name c) d) cls [])
               (flat_map cl_items cls)
  end.

(** Every record filed under a key carries that key as its cluster. *)
Definition filed_by_cluster (d : list (Z * list item)) : Prop :=
  Forall (fun kv => Forall (fun it => cluster it = Some (fst kv)) (snd kv)) d.

(** The clustering script followed by the aggregator script, on the
    records of embeddings.json; [cluster_names] is what the topic namer
    wrote in between. *)
Definition cluster_then_assemble
    (kmeans : Z -> Clustering.matrix -> result (list Z))
    (silhouette : Z -> Clustering.matrix -> result Q)
    (embeddings_data : list item) (cluster_names : gmap string string)
  : result artifact :=
  match fst (Clustering.clustering_main kmeans silhouette embeddings_data) with
  | Raise e => Raise e
  | Ok clustered_data => fst (aggregator_main clustered_data cluster_names)
  end.

(** The artifact of a run on the two sample records. *)
Definition two_vectors_artifact : artifact :=
  Eval vm_compute in
  match cluster_then_assemble Clustering.kmeans_round_robin Clustering.silhouette_flat
          Clustering.two_vectors ∅ with
  | Ok a => a
  | Raise _ => {| title := ""; description := ""; similarity := 0;
                  charsPerPixel := 0; clusters := [] |}
  end.

End Aggregator.

(** ** Topic overlap (compute_topic_overlap of app.py) *)

Module Overlap.
Import PyStr.

(** [len(word) > 3 and word.isalpha()] *)
Definition significant (word : string) : bool :=
  (3 <? String.length word) && isalpha word.

(** [cid in topics_dict] *)
Definition in_dict (cid : Z) (topics_dict : list (Z * string)) : bool :=
  existsb (fun kv => (fst kv =? cid)%Z) topics_dict.

(** One turn of the first loop: [topic_texts[cid].append(text)] on a
    defaultdict, when the record's cluster is a topic. A record without
    a "cluster" key has [cid = None], which is no key of [topics_dict]. *)
Definition add_text (topics_dict : list (Z * string))
    (topic_texts : gmap Z (list string)) (it : item) : gmap Z (list string) :=
  match cluster it with
  | Some cid =>
      if in_dict cid topics_dict
      then <[cid := default [] (topic_texts !! cid) ++ [lower (text it)]]> topic_texts
      else topic_texts
  | None => topic_texts
  end.

(** [set([word for word in " ".join(texts).split() if ...])] *)
Definition word_set (texts : list string) : gset string :=
  list_to_set (List.filter significant (words (String.concat " " texts))).

(** [common / total if total > 0 else 0]. The quotient is a float in
    the code and a rational here; the two agree on which side of 0.1 a
    ratio of set sizes falls for every size below 2^50. *)
Definition overlap_of (words_i words_j : gset string) : Q :=
  let common := size (words_i ∩ words_j) in
  let total := size (words_i ∪ words_j) in
  if 0 <? total then (Z.of_nat common # Pos.of_nat total)%Q else 0%Q.

Definition exceeds_threshold (overlap : Q) : bool := negb (Qle_bool overlap (1 # 10)).

Section WithRound.

(** [round(x, 2)] on a float. *)
Variable round2 : Q -> Q.

(** The body of the two nested loops, for the topics at [i] and [j]. *)
Definition pair_entry (topic_words : gmap Z (gset string))
    (topic_i topic_j : Z * string) : list (string * string * Q) :=
  let '(cid_i, name_i) := topic_i in
  let '(cid_j, name_j) := topic_j in
  let words_i := default ∅ (topic_words !! cid_i) in
  let words_j := default ∅ (topic_words !! cid_j) in
  let overlap := overlap_of words_i words_j in
  if exceeds_threshold overlap then [(name_i, name_j, round2 overlap)] else [].

Definition compute_topic_overlap (clustered_data : list item)
    (topics_dict : list (Z * string)) : list (string * string * Q) :=
  let topic_texts := fold_left (add_text topics_dict) clustered_data ∅ in
  let topic_words := word_set <$> topic_texts in
  let topic_names := topics_dict in
  let n := length topic_names in
  flat_map (fun i =>
    flat_map (fun j =>
      match topic_names !! i, topic_names !! j with
      | Some topic_i, Some topic_j => pair_entry topic_words topic_i topic_j
      | _, _ => []
      end) (seq (i + 1) (n - (i + 1)))) (seq 0 n).

End WithRound.

(** A stand-in for [round(x, 2)]: to the nearest hundredth, halves to
    the even one. *)
Definition round2_half_even (x : Q) : Q :=
  let n := (Qnum x * 100)%Z in
  let d := Zpos (Qden x) in
  let q := (n / d)%Z in
  let r := (n mod d)%Z in
  let up := if (d <? 2 * r)%Z then true
            else if (2 * r =? d)%Z then Z.odd q else false in
  ((if up then q + 1 else q) # 100)%Q.

End Overlap.

(** ** The statements of the specification, in its own words *)

Module Spec.
Import PyStr.

(** The chunker's property as the specification words it, for a text
    of one document: the chunks of the output (what stands between the
    delimiters) are ceil(len/max) many, none longer than the maximum,
    and put end to end they are the text. *)
Definition chunks_reconstruct (text : string) (max_chunk_size : nat) : Prop :=
  exists r,
    Chunker.chunk_all_texts text "chunks.txt" max_chunk_size = Some r
    /\ length (Chunker.written r)
       = Chunker.ceil_div (String.length text) max_chunk_size
    /\ Forall (fun c => String.length c <= max_chunk_size) (Chunker.written r)
    /\ concat_all (Chunker.written r) = text.

(** The candidate range as the specification words it: the two bounds,
    and a range of more than ten counts is subsampled evenly with both
    ends kept as candidates. *)
Definition range_keeps_extremes (n : nat) (configured_min configured_max : Z) : Prop :=
  let lo := Clustering.min_k n configured_min in
  let hi := Clustering.max_k n configured_min configured_max in
  let candidates := Clustering.cluster_range lo hi in
  lo = Z.min configured_min (Z.max 2 (Z.of_nat n / 20))
  /\ hi = Z.min configured_max (Z.max (lo + 2) (Z.of_nat n / 5))
  /\ ((10 < hi - lo)%Z ->
      (exists step, (1 < step)%Z /\ candidates = Clustering.py_range lo hi step)
      /\ In lo candidates /\ In hi candidates).

(** The clusterer on fewer than two vectors, as the specification words
    it: a failure is reported and no partition is attempted. *)
Definition insufficient_data_reported
    (kmeans : Z -> Clustering.matrix -> result (list Z))
    (silhouette : Z -> Clustering.matrix -> result Q)
    (embeddings_data : list item) : Prop :=
  length (Clustering.vectors embeddings_data) < 2 ->
  let '(r, log) :=
    Clustering.perform_clustering kmeans silhouette embeddings_data None in
  (exists msg, r = Raise (ValueError msg))
  /\ forall k n, ~ In (Clustering.KMeansFit k n) log.

(** The aggregator on an empty input, as the specification words it: an
    error is signalled and no artifact is written. *)
Definition aggregator_refuses_empty (cluster_names : gmap string string) : Prop :=
  exists e, fst (Aggregator.aggregator_main [] cluster_names) = Raise e.

(** The topic namer's fallback, as the specification words it: an empty
    member list, an extraction that yields nothing or any internal error
    gives the label "Topic {cluster_id}". *)
Definition namer_falls_back_to_topic (MAX_KEYWORDS : nat)
    (count_vectorizer : list string -> result (list string * list Z))
    (argsort : list Z -> list nat) (text_samples : list string) (cluster_id : Z)
  : Prop :=
  (text_samples = []
   \/ count_vectorizer text_samples = Ok ([], [])
   \/ exists e, TopicNaming.name_cluster_body MAX_KEYWORDS count_vectorizer argsort
                  text_samples cluster_id = Raise e) ->
  fst (TopicNaming.name_cluster MAX_KEYWORDS count_vectorizer argsort
         text_samples cluster_id)
  = "Topic " +:+ str_of_Z cluster_id.

(** The significant words of one text: lower-cased, longer than three
    characters, alphabetic only. *)
Definition significant_words (t : string) : gset string :=
  list_to_set (List.filter Overlap.significant (words (lower t))).

(** The distinct significant words of a topic: those of its member
    chunks. *)
Definition topic_vocabulary (clustered_data : list item) (cid : Z) : gset string :=
  ⋃ (map (fun it => significant_words (text it))
         (List.filter (fun it => bool_decide (cluster it = Some cid)) clustered_data)).

(** The Jaccard ratio of two finite sets; 0 for two empty sets. *)
Definition jaccard (A B : gset string) : Q :=
  if decide (A ∪ B = ∅) then 0%Q
  else (Z.of_nat (size (A ∩ B)) # Pos.of_nat (size (A ∪ B)))%Q.

(** The unordered pairs of a sequence, each once, in order. *)
Fixpoint unordered_pairs {A : Type} (l : list A) : list (A * A) :=
  match l with
  | [] => []
  | x :: rest => map (fun y => (x, y)) rest ++ unordered_pairs rest
  end.

(** The overlap edges as the specification words them: for every
    unordered pair of topics the Jaccard ratio of their vocabularies,
    reported, rounded, when it exceeds 0.1. *)
Definition overlap_report (round2 : Q -> Q) (clustered_data : list item)
    (topics : list (Z * string)) : list (string * string * Q) :=
  flat_map
    (fun '((cid_a, name_a), (cid_b, name_b)) =>
       let score := jaccard (topic_vocabulary clustered_data cid_a)
                            (topic_vocabulary clustered_data cid_b) in
       if Qlt_le_dec (1 # 10) score then [(name_a, name_b, round2 score)] else [])
    (unordered_pairs topics).

End Spec.

(** ** Blanks at the ends of a string *)

Module Blank.
Import PyStr.

(** The first character is a blank. *)
Definition starts_space (s : string) : bool :=
  match s with
  | String c _ => is_space c
  | "" => false
  end.

(** The last character is a blank. *)
Fixpoint ends_space (s : string) : bool :=
  match s with
  | "" => false
  | String c s' =>
      match s' with
      | "" => is_space c
      | _ => ends_space s'
      end
  end.

(** A string that [strip] leaves as it is: no blank at either end. *)
Definition stripped (s : string) : Prop :=
  starts_space s = false /\ ends_space s = false.

End Blank.

(** ** Text extraction (the script of backend/data_extraction.py) *)

Module Extraction.
Import PyStr.

(** What the script writes to all_texts.txt:
    ["\n\n=== NEW DOCUMENT ===\n\n".join(texts)]. *)
Definition all_texts_file (texts : list string) : string :=
  String.concat Chunker.doc_marker texts.


(** [sep in s] *)
Definition contains (sep s : string) : bool :=
  existsb (fun i => String.prefix sep (drop i s)) (seq 0 (S (String.length s))).

End Extraction.

(** ** Vectorizer stage (backend/embedding_generation.py) *)

Module EmbeddingGeneration.
Import PyStr.

(** The marker [generate_embeddings] splits the chunk file on. *)
Definition chunk_marker : string := "---CHUNK END---".

(** [[chunk.strip() for chunk in content.split("---CHUNK END---") if
    chunk.strip()]] *)
Definition read_chunks (content : string) : list string :=
  List.filter (fun c => negb (is_empty c)) (map strip (split_on chunk_marker content)).

(** How a call ends: with a value, with an exception of [exn], or with
    the NameError of reading a global name that is not there. *)
Inductive outcome (A : Type) : Type :=
  | Returned (a : A)
  | Raised (e : exn)
  | NameError (name : string).
Arguments Returned {A} a.
Arguments Raised {A} e.
Arguments NameError {A} name.

(** scikit-learn's NotFittedError, a ValueError. *)
Definition not_fitted : exn :=
  ValueError "This TfidfVectorizer instance is not fitted yet.".

Section WithTfidf.

(** A fitted [TfidfVectorizer(max_features=MAX_FEATURES)]: what [fit]
    leaves in the object. *)
Variable model : Type.

(** [vectorizer.fit(texts)], or the exception it raises. *)
Variable fit : list string -> result model.

(** [vectorizer.transform([text]).toarray()[0].tolist()] on a fitted
    vectorizer. *)
Variable transform : model -> string -> list float.

(** The two module-level names: [_vectorizer], absent or an object that
    is fitted ([Some m]) or not, and [_fitted], absent or a flag. *)
Record globals := {
  _vectorizer : option (option model);
  _fitted : option bool
}.

Definition no_globals : globals := {| _vectorizer := None; _fitted := None |}.

(** [get_embedding(text)]: how the call ends and the globals it leaves. *)
Definition get_embedding (text : string) (g : globals)
  : outcome (list float) * globals :=
  let g1 :=
    match _vectorizer g with
    | None => {| _vectorizer := Some None; _fitted := Some false |}
    | Some _ => g
    end in
  match _fitted g1 with
  | None => (NameError "_fitted", g1)
  | Some true =>
      match _vectorizer g1 with
      | Some (Some m) => (Returned (transform m text), g1)
      | _ => (Raised not_fitted, g1)
      end
  | Some false =>
      match fit [text] with
      | Raise e => (Raised e, g1)
      | Ok m =>
          (Returned (transform m text),
           {| _vectorizer := Some (Some m); _fitted := Some true |})
      end
  end.

(** The [for idx, chunk in enumerate(chunks)] loop: one record per chunk;
    [idx] is the index of the first chunk of [chunks]. What
    [get_embedding] returns is a list, never [None], so the loop's
    "Skipping chunk" branch is not taken. *)
Fixpoint embed_loop (idx : nat) (chunks : list string) (g : globals)
    (embeddings_data : list item) : outcome (list item) * globals :=
  match chunks with
  | [] => (Returned embeddings_data, g)
  | chunk :: rest =>
      match get_embedding chunk g with
      | (Returned vector, g') =>
          embed_loop (S idx) rest g'
            (embeddings_data ++ [ {| id := Z.of_nat idx; text := chunk;
                                    embedding := Some vector; cluster := None |} ])
      | (Raised e, g') => (Raised e, g')
      | (NameError name, g') => (NameError name, g')
      end
  end.

(** [generate_embeddings]: the records written to embeddings.json, from
    the content of the chunk file. *)
Definition generate_embeddings (content : string) (g : globals)
  : outcome (list item) * globals :=
  let chunks := read_chunks content in
  match fit chunks with
  | Raise e => (Raised e, {| _vectorizer := Some None; _fitted := _fitted g |})
  | Ok m =>
      embed_loop 0 chunks {| _vectorizer := Some (Some m); _fitted := Some true |} []
  end.

End WithTfidf.

Arguments _vectorizer {model} g.
Arguments _fitted {model} g.
Arguments no_globals {model}.
Arguments get_embedding {model} fit transform text g.
Arguments embed_loop {model} fit transform idx chunks g embeddings_data.
Arguments generate_embeddings {model} fit transform content g.

(** A stand-in for the vectorizer: the model is the list of the words of
    the fitted texts, the vector of a text has one component per word of
    the model, and fitting on no word raises as scikit-learn does. *)
Definition toy_fit (texts : list string) : result (list string) :=
  match flat_map words texts with
  | [] => Raise (ValueError "empty vocabulary; perhaps the documents only contain stop words")
  | vocabulary => Ok vocabulary
  end.

Definition toy_transform (vocabulary : list string) (t : string) : list float :=
  map (fun w => if existsb (String.eqb w) (words t) then 1%float else 0%float) vocabulary.

(** What the chunker leaves for a sample text whose middle chunk is
    blank. *)
Definition sample_chunked : Chunker.chunked :=
  Eval vm_compute in
  match Chunker.chunk_all_texts "ab    cd" "chunks.txt" 3 with
  | Some r => r
  | None => {| Chunker.all_chunks := []; Chunker.written := [];
               Chunker.output := ""; Chunker.printed := "" |}
  end.

End EmbeddingGeneration.

(** ** Reference functions for the further properties *)

Module Reference.

(** The candidates that get a score, each with its score, in the order
    of the candidates: a candidate is left out when it is not below the
    number of rows and when its scoring raises. *)
Definition scored (silhouette : Z -> Clustering.matrix -> result Q)
    (X : Clustering.matrix) (candidates : list Z) : list (Z * Q) :=
  flat_map
    (fun k =>
       if (Z.of_nat (length X) <=? k)%Z then []
       else match silhouette k X with
            | Ok avg => [(k, avg)]
            | Raise _ => []
            end)
    candidates.

(** The distinct elements of a list, each at its first occurrence. *)
Fixpoint first_occurrences (l : list Z) : list Z :=
  match l with
  | [] => []
  | x :: rest => x :: List.filter (fun y => negb (y =? x)%Z) (first_occurrences rest)
  end.

(** The cluster ids of the records that have one, in order. *)
Definition cluster_ids (clustered_data : list item) : list Z :=
  omap cluster clustered_data.

(** The records of one cluster, in order. *)
Definition members (clustered_data : list item) (cid : Z) : list item :=
  List.filter (fun it => bool_decide (cluster it = Some cid)) clustered_data.

End Reference.

(** Three clustered records, the second cluster met between two records
    of the first, and the artifact the aggregator makes of them. *)
Definition sample_clustered : list item :=
  [ {| id := 0; text := "alpha"; embedding := None; cluster := Some 1%Z |};
    {| id := 1; text := "beta"; embedding := None; cluster := Some 0%Z |};
    {| id := 2; text := "gamma"; embedding := None; cluster := Some 1%Z |} ].

Definition sample_artifact : Aggregator.artifact :=
  Eval vm_compute in
  match fst (Aggregator.aggregator_main sample_clustered ∅) with
  | Ok a => a
  | Raise _ => {| Aggregator.title := ""; Aggregator.description := "";
                  Aggregator.similarity := 0; Aggregator.charsPerPixel := 0;
                  Aggregator.clusters := [] |}
  end.

(** Ten records with a vector each. *)
Definition ten_vectors : list item :=
  map (fun i => {| id := Z.of_nat i; text := "chunk";
                   embedding := Some [0.5%float]; cluster := None |})
      (seq 0 10).

(** ** Naming every cluster (topic_naming.py, [assign_cluster_names]) *)

Module Naming.
Import PyStr.

(** [str(cluster_id)] and the [{cluster_id}] of an f-string, for the
    value of [item.get("cluster")]: an integer, or None. *)
Definition key_str (k : option Z) : string :=
  match k with
  | Some cid => str_of_Z cid
  | None => "None"
  end.

Inductive event : Type :=
  | NamingError (cluster_id : string) (e : exn)
  | NamesSavedLine.

(** [if cluster not in clusters: clusters[cluster] = []] followed by
    [clusters[cluster].append(item["text"])], on a dict in insertion
    order. *)
Fixpoint dict_append (k : option Z) (t : string) (d : list (option Z * list string))
  : list (option Z * list string) :=
  match d with
  | [] => [(k, [t])]
  | (k', texts) :: rest =>
      if decide (k' = k) then (k', texts ++ [t]) :: rest
      else (k', texts) :: dict_append k t rest
  end.

(** The texts of the records whose [item.get("cluster")] is [k], in order. *)
Definition texts_of (data : list item) (k : option Z) : list string :=
  map text (List.filter (fun it => bool_decide (cluster it = k)) data).

Definition group_texts (data : list item) : list (option Z * list string) :=
  fold_left (fun clusters it => dict_append (cluster it) (text it) clusters) data [].

Section WithVectorizer.
Variable MAX_KEYWORDS : nat.
Variable count_vectorizer : list string -> result (list string * list Z).
Variable argsort : list Z -> list nat.

(** [name_cluster] as [assign_cluster_names] calls it, with a cluster id
    that is whatever [item.get("cluster")] gave; [cluster_id] is its
    text in the labels. *)
Definition name_cluster_body (text_samples : list string) (cluster_id : string)
  : result string :=
  if length text_samples =? 0 then Ok ("Topic " +:+ cluster_id)
  else
    match count_vectorizer text_samples with
    | Raise e => Raise e
    | Ok (feature_names, phrase_counts) =>
        let sorted_idx := rev (argsort phrase_counts) in
        match TopicNaming.pick feature_names (firstn (MAX_KEYWORDS * 2) sorted_idx) with
        | Raise e => Raise e
        | Ok top_phrases =>
            let multi_word_phrases :=
              List.filter (fun p => 1 <? length (words p)) top_phrases in
            let single_words :=
              List.filter (fun p => length (words p) =? 1) top_phrases in
            let selected0 :=
              match multi_word_phrases with
              | [] => []
              | _ => firstn (Nat.min MAX_KEYWORDS (length multi_word_phrases))
                            multi_word_phrases
              end in
            let selected_phrases :=
              if length selected0 <? MAX_KEYWORDS then
                let needed := MAX_KEYWORDS - length selected0 in
                selected0 ++ firstn needed single_words
              else selected0 in
            match selected_phrases with
            | [] => Ok ("Topic " +:+ cluster_id)
            | _ =>
                let formatted_phrases :=
                  map capitalize (firstn MAX_KEYWORDS selected_phrases) in
                match formatted_phrases with
                | [] => Raise (IndexError "list index out of range")
                | first :: others =>
                    let title :=
                      if 1 <? length formatted_phrases
                      then first +:+ " & " +:+ String.concat " " others
                      else first in
                    Ok (if is_empty title then "Cluster " +:+ cluster_id else title)
                end
            end
        end
    end.

Definition name_cluster (text_samples : list string) (cluster_id : string)
  : string * list event :=
  match name_cluster_body text_samples cluster_id with
  | Ok title => (title, [])
  | Raise e => ("Cluster " +:+ cluster_id, [NamingError cluster_id e])
  end.

(** [for cluster_id, texts in clusters.items(): cluster_names[str(cluster_id)]
    = name_cluster(texts, cluster_id)] *)
Definition name_loop (clusters : list (option Z * list string))
    (cluster_names : gmap string string) (log : list event)
  : gmap string string * list event :=
  fold_left
    (fun '(names, log) '(cluster_id, texts) =>
       let '(cluster_name, printed) := name_cluster texts (key_str cluster_id) in
       (<[key_str cluster_id := cluster_name]> names, log ++ printed))
    clusters (cluster_names, log).

(** What [assign_cluster_names] writes to cluster_names.json, and what
    it prints. *)
Definition assign_cluster_names (data : list item) : gmap string string * list event :=
  let '(cluster_names, log) := name_loop (group_texts data) ∅ [] in
  (cluster_names, log ++ [NamesSavedLine]).

(** The topic namer followed by the aggregator, both on the records of
    clustered_embeddings.json. *)
Definition name_then_assemble (title description : string) (data : list item)
    (similarity_threshold : Q) (charsPerPixel : Z) : result Aggregator.artifact :=
  fst (Aggregator.generate_docexplore_json title description data
         (fst (assign_cluster_names data)) similarity_threshold charsPerPixel).

End WithVectorizer.

End Naming.

(** The artifact of the topic namer followed by the aggregator on the
    three sample records. *)
Definition sample_named_artifact : Aggregator.artifact :=
  Eval vm_compute in
  match Naming.name_then_assemble 3 TopicNaming.toy_vectorizer TopicNaming.stable_argsort
          "Document Insights" "" sample_clustered (8 # 10) 20 with
  | Ok a => a
  | Raise _ => {| Aggregator.title := ""; Aggregator.description := "";
                  Aggregator.similarity := 0; Aggregator.charsPerPixel := 0;
                  Aggregator.clusters := [] |}
  end.

(** ** Mentions per topic (app.py, analysis page) *)

Module Insights.

Record data_row := {
    TopicName : string;
    Mentions : nat;
    ClusterID : Z
  }.

(** [[item.get("cluster") for item in clustered_data if "cluster" in item]] *)
Definition cluster_ids (clustered_data : list item) : list Z :=
  omap cluster clustered_data.

(** [Counter(l)]: one more for each element met. *)
Definition counter (l : list Z) : gmap Z nat :=
  fold_left (fun counts x => <[x := S (default 0 (counts !! x))]> counts) l ∅.

(** One row per topic, with [counts.get(cid, 0)] as its mentions. *)
Definition data_rows (topics_dict : list (Z * string)) (clustered_data : list item)
  : list data_row :=
  let counts := counter (cluster_ids clustered_data) in
  map (fun '(cid, topic_name) =>
         {| TopicName := topic_name;
            Mentions := default 0 (counts !! cid);
            ClusterID := cid |})
      topics_dict.

(** The page down to its table of topics: the two errors it can stop
    at, or the rows of the table before they are sorted. *)
Inductive table : Type :=
  | NoClusters
  | NoTopics
  | Rows (rows : list data_row).

Definition topics_table (a : Aggregator.artifact) : table :=
  match Aggregator.analysis_page a with
  | Aggregator.NoClustersError => NoClusters
  | Aggregator.Analysis topics_dict clustered_data =>
      match data_rows topics_dict clustered_data with
      | [] => NoTopics
      | rows => Rows rows
      end
  end.

End Insights.

(** ** Keywords (app.py, [extract_all_keywords]) *)

Module Keywords.
Import PyStr.

(** [Counter(words)]: the distinct words in the order they are first met,
    each with the number of times it is met. *)
Fixpoint count_word (w : string) (counts : list (string * nat)) : list (string * nat) :=
  match counts with
  | [] => [(w, 1)]
  | (k, n) :: rest =>
      if String.eqb k w then (k, S n) :: rest else (k, n) :: count_word w rest
  end.

Definition counter (ws : list string) : list (string * nat) :=
  fold_left (fun counts w => count_word w counts) ws [].

(** [most_common(n)] is [sorted(items, key=count, reverse=True)[:n]]:
    larger counts first, equal counts in the order of the counter. *)
Fixpoint insert_desc (e : string * nat) (sorted : list (string * nat))
  : list (string * nat) :=
  match sorted with
  | [] => [e]
  | e' :: rest =>
      if snd e <? snd e' then e' :: insert_desc e rest else e :: sorted
  end.

Definition sorted_desc (counts : list (string * nat)) : list (string * nat) :=
  fold_right insert_desc [] counts.

Definition most_common (n : nat) (counts : list (string * nat)) : list (string * nat) :=
  firstn n (sorted_desc counts).

(** [[word for word in all_text.split() if len(word) > 3 and word.isalpha()]]
    on [" ".join(item.get("text", "").lower() for item in clustered_data)]. *)
Definition keyword_words (clustered_data : list item) : list string :=
  let all_text := String.concat " " (map (fun it => lower (text it)) clustered_data) in
  List.filter Overlap.significant (words all_text).

Definition extract_all_keywords (clustered_data : list item) (top_n : nat)
  : list (string * nat) :=
  most_common top_n (counter (keyword_words clustered_data)).





End Keywords.

(** Three records whose texts share words. *)
Definition sample_texts : list item :=
  [ {| id := 0; text := "Solar power and Wind power"; embedding := None;
       cluster := Some 0%Z |};
    {| id := 1; text := "wind farms, solar farms"; embedding := None;
       cluster := Some 1%Z |};
    {| id := 2; text := "Power grid 2030 solar"; embedding := None;
       cluster := Some 0%Z |} ].

(** ** Keywords per topic (app.py, [extract_keywords_per_topic]) *)

Module TopicKeywords.
Import PyStr.

(** One turn of the first loop: [topic_texts[cid].append(text)] on a
    defaultdict in insertion order, when [cid = item.get("cluster")] is
    a key of [topics_dict]; None is no such key. *)
Definition add_text (topics_dict : list (Z * string))
    (topic_texts : list (option Z * list string)) (it : item)
  : list (option Z * list string) :=
  match cluster it with
  | Some cid =>
      if Overlap.in_dict cid topics_dict
      then Naming.dict_append (Some cid) (lower (text it)) topic_texts
      else topic_texts
  | None => topic_texts
  end.

(** [topics_dict[cid]] *)
Definition dict_get (cid : option Z) (topics_dict : list (Z * string)) : result string :=
  match cid with
  | Some c =>
      match find (fun kv => (fst kv =? c)%Z) topics_dict with
      | Some kv => Ok (snd kv)
      | None => Raise (KeyError (str_of_Z c))
      end
  | None => Raise (KeyError "None")
  end.

(** The body of the second loop, up to the list of keywords. *)
Definition top_keywords (texts : list string) (top_n : nat) : list string :=
  let all_text := String.concat " " texts in
  let words := List.filter Overlap.significant (words all_text) in
  let word_counts := Keywords.counter words in
  map fst (Keywords.most_common top_n word_counts).

Fixpoint keyword_loop (topic_texts : list (option Z * list string))
    (topics_dict : list (Z * string)) (top_n : nat)
    (topic_keywords : gmap string (list string)) : result (gmap string (list string)) :=
  match topic_texts with
  | [] => Ok topic_keywords
  | (cid, texts) :: rest =>
      match dict_get cid topics_dict with
      | Raise e => Raise e
      | Ok name =>
          keyword_loop rest topics_dict top_n
            (<[name := top_keywords texts top_n]> topic_keywords)
      end
  end.

Definition extract_keywords_per_topic (clustered_data : list item)
    (topics_dict : list (Z * string)) (top_n : nat)
  : result (gmap string (list string)) :=
  let topic_texts := fold_left (add_text topics_dict) clustered_data [] in
  keyword_loop topic_texts topics_dict top_n ∅.

(** The lower-cased texts of the records of one cluster, in order. *)
Definition lowered_texts (clustered_data : list item) (cid : Z) : list string :=
  map (fun it => lower (text it)) (Reference.members clustered_data cid).

(** The records the first loop keeps, and a record with its text
    lower-cased. *)
Definition kept (topics_dict : list (Z * string)) (it : item) : bool :=
  match cluster it with
  | Some cid => Overlap.in_dict cid topics_dict
  | None => false
  end.

Definition lowered (it : item) : item :=
  {| id := id it; text := lower (text it); embedding := embedding it;
     cluster := cluster it |}.

End TopicKeywords.

(** ** The whole run (main.py) *)

Module Pipeline.

(** How a run of main.py ends: the chunking script does not return, a
    script exits with an error (the later ones are then not run), or all
    scripts complete and docexplore.json is written. *)
Inductive run_result : Type :=
  | NoReturn
  | ScriptFailed (script : string)
  | Completed (docexplore : Aggregator.artifact).

Section Run.
Context {model : Type}.
Variable fit : list string -> result model.
Variable transform : model -> string -> list float.
Variable kmeans : Z -> Clustering.matrix -> result (list Z).
Variable silhouette : Z -> Clustering.matrix -> result Q.
Variable MAX_KEYWORDS : nat.
Variable count_vectorizer : list string -> result (list string * list Z).
Variable argsort : list Z -> list nat.

(** The scripts of main.py after the extraction of the texts, each one
    a process of its own that reads the file the one before wrote:
    text_chunking.py, embedding_generation.py, clustering.py,
    topic_naming.py and generate_json.py. [texts] is what
    [extract_all_texts] returned, [chunks_path] the path of chunks.txt. *)
Definition run (texts : list string) (chunks_path : string) : run_result :=
  match Chunker.chunk_all_texts (Extraction.all_texts_file texts) chunks_path 4000 with
  | None => NoReturn
  | Some chunked =>
      match fst (EmbeddingGeneration.generate_embeddings fit transform
                   (Chunker.output chunked) EmbeddingGeneration.no_globals) with
      | EmbeddingGeneration.Returned embeddings_data =>
          match fst (Clustering.clustering_main kmeans silhouette embeddings_data) with
          | Raise _ => ScriptFailed "backend/clustering.py"
          | Ok clustered_data =>
              let cluster_names :=
                fst (Naming.assign_cluster_names MAX_KEYWORDS count_vectorizer argsort
                       clustered_data) in
              match fst (Aggregator.aggregator_main clustered_data cluster_names) with
              | Raise _ => ScriptFailed "backend/generate_json.py"
              | Ok docexplore => Completed docexplore
              end
          end
      | _ => ScriptFailed "backend/embedding_generation.py"
      end
  end.

End Run.

(** A record without its cluster. *)
Definition payload (it : item) : Z * string * option (list float) :=
  (id it, text it, embedding it).

End Pipeline.

(** Two extracted texts and what the chunking script leaves for them. *)
Definition sample_documents : list string := ["solar power"; "wind farms"].

Definition sample_run_chunked : Chunker.chunked :=
  Eval vm_compute in
  match Chunker.chunk_all_texts (Extraction.all_texts_file sample_documents)
          "chunks.txt" 4000 with
  | Some r => r
  | None => {| Chunker.all_chunks := []; Chunker.written := [];
               Chunker.output := ""; Chunker.printed := "" |}
  end.

(** * Properties *)

(** ** Chunker *)

Section ChunkerFacts.
Import PyStr Chunker.

Lemma append_cons c s t : String c s +:+ t = String c (s +:+ t).
Proof. reflexivity. Qed.

Lemma str_take_drop n s : take n s +:+ drop n s = s.
Proof.
  revert s; induction n as [|n IH]; intros [|c s]; simpl; try reflexivity.
  by rewrite append_cons, IH.
Qed.

Lemma str_drop_drop a b s : drop b (drop a s) = drop (a + b) s.
Proof.
  revert s; induction a as [|a IH]; intros s; simpl; [done|].
  destruct s as [|c s]; [by destruct b | apply IH].
Qed.

Lemma str_length_take n s : String.length (take n s) = Nat.min n (String.length s).
Proof.
  revert s; induction n as [|n IH]; intros [|c s]; simpl; try reflexivity.
  by rewrite IH.
Qed.

Lemma str_length_drop n s : String.length (drop n s) = String.length s - n.
Proof.
  revert s; induction n as [|n IH]; intros [|c s]; simpl; try reflexivity.
  apply IH.
Qed.

Lemma str_drop_all n s : String.length s <= n -> drop n s = "".
Proof.
  revert s; induction n as [|n IH]; intros [|c s]; simpl; intros H;
    try reflexivity; try lia.
  apply IH; lia.
Qed.

Lemma append_empty_r s : s +:+ "" = s.
Proof. induction s as [|c s IH]; [done | by rewrite append_cons, IH]. Qed.

Lemma append_assoc s1 s2 s3 : (s1 +:+ s2) +:+ s3 = s1 +:+ (s2 +:+ s3).
Proof. induction s1 as [|c s1 IH]; [done | by rewrite !append_cons, IH]. Qed.

Lemma concat_all_cons x l : concat_all (x :: l) = x +:+ concat_all l.
Proof.
  unfold concat_all. destruct l as [|y l]; simpl; [by rewrite append_empty_r | done].
Qed.

Lemma concat_all_app l1 l2 : concat_all (l1 ++ l2) = concat_all l1 +:+ concat_all l2.
Proof.
  induction l1 as [|x l1 IH]; [done|].
  rewrite <- app_comm_cons, !concat_all_cons, IH. by rewrite append_assoc.
Qed.

Lemma ceil_div_0 b : 0 < b -> ceil_div 0 b = 0.
Proof. intros Hb. unfold ceil_div. apply Nat.div_small. lia. Qed.

Lemma ceil_div_step a b : 0 < b -> 0 < a -> ceil_div a b = S (ceil_div (a - b) b).
Proof.
  intros Hb Ha. unfold ceil_div.
  destruct (Nat.le_gt_cases a b) as [Hle|Hgt].
  - replace (a - b) with 0 by lia.
    rewrite (Nat.div_small (0 + b - 1) b) by lia.
    symmetry. apply (Nat.div_unique _ _ 1 (a - 1)); lia.
  - replace (a + b - 1) with ((a - b + b - 1) + 1 * b) by lia.
    rewrite Nat.div_add by lia. lia.
Qed.

Lemma chunk_loop_spec fuel text max_chars start acc :
  0 < max_chars ->
  String.length text - start <= fuel ->
  exists rest,
    chunk_loop fuel text max_chars start acc = Some (acc ++ rest)
    /\ length rest = ceil_div (String.length text - start) max_chars
    /\ Forall (fun c => String.length c <= max_chars) rest
    /\ concat_all rest = drop start text.
Proof.
  intros Hmax. revert start acc.
  induction fuel as [|fuel IH]; intros start acc Hfuel; simpl.
  - destruct (Nat.ltb_spec start (String.length text)) as [Hlt|Hge]; [lia|].
    exists []. rewrite app_nil_r.
    replace (String.length text - start) with 0 by lia.
    rewrite ceil_div_0 by done. rewrite str_drop_all by done. by repeat split.
  - destruct (Nat.ltb_spec start (String.length text)) as [Hlt|Hge].
    + destruct (IH (start + max_chars) (acc ++ [slice text start (start + max_chars)]))
        as (rest & Hrun & Hlen & Hall & Hcat); [lia|].
      exists (slice text start (start + max_chars) :: rest).
      rewrite Hrun, <- app_assoc. split; [done|]. split; [|split].
      * simpl. rewrite Hlen.
        rewrite (ceil_div_step (String.length text - start)) by lia.
        f_equal. f_equal. lia.
      * constructor; [|done]. unfold slice. rewrite str_length_take. lia.
      * rewrite concat_all_cons, Hcat. unfold slice.
        replace (start + max_chars - start) with max_chars by lia.
        rewrite <- str_drop_drop. apply str_take_drop.
    + exists []. rewrite app_nil_r.
      replace (String.length text - start) with 0 by lia.
      rewrite ceil_div_0 by done. rewrite str_drop_all by done. by repeat split.
Qed.

Lemma chunk_text_spec text max_chars :
  0 < max_chars ->
  exists chunks,
    chunk_text text max_chars = Some chunks
    /\ length chunks = ceil_div (String.length text) max_chars
    /\ Forall (fun c => String.length c <= max_chars) chunks
    /\ concat_all chunks = text.
Proof.
  intros Hmax. unfold chunk_text.
  destruct (chunk_loop_spec (String.length text) text max_chars 0 [] Hmax)
    as (rest & Hrun & Hlen & Hall & Hcat); [lia|].
  exists rest. rewrite Nat.sub_0_r in Hlen. by repeat split.
Qed.

Lemma chunk_docs_spec docs max_chars :
  0 < max_chars ->
  exists per_doc,
    Forall2 (doc_chunks_ok max_chars) docs per_doc
    /\ chunk_docs docs max_chars = Some (concat per_doc).
Proof.
  intros Hmax. induction docs as [|doc docs (per_doc & Hall & Hrun)]; simpl.
  - exists []. split; [constructor | done].
  - destruct (chunk_text_spec doc max_chars Hmax) as (chunks & Hc & Hrest).
    exists (chunks :: per_doc). split.
    + constructor; [by split | done].
    + by rewrite Hc, Hrun.
Qed.

Lemma concat_all_concat per_doc :
  concat_all (concat per_doc) = concat_all (map concat_all per_doc).
Proof.
  induction per_doc as [|l per_doc IH]; [done|].
  simpl. by rewrite concat_all_app, concat_all_cons, IH.
Qed.

Lemma map_id_on {A : Type} (f : A -> A) (l : list A) :
  Forall (fun x => f x = x) l -> map f l = l.
Proof. induction 1 as [|x l Hx _ IH]; simpl; [done | by rewrite Hx, IH]. Qed.

(** C1, as the specification states it, fails on a text whose chunk
    boundary falls next to a blank: "ab cd" in chunks of 3 is written
    as "ab" and "cd". *)
Lemma chunks_reconstruct_counterexample : ~ Spec.chunks_reconstruct "ab cd" 3.
Proof.
  intros (r & Hrun & _ & _ & Hcat).
  vm_compute in Hrun. injection Hrun as <-. vm_compute in Hcat. discriminate.
Qed.

(** C1 (amended). For every text and every maximum above 0, each
    document segment is cut by [chunk_text] into exactly
    ceil(len/max) chunks, none longer than the maximum, whose
    concatenation is the segment; the chunker writes every chunk
    stripped of the blanks at its two ends, so the written chunks put end to
    end are the segments put end to end whenever no chunk starts or
    ends with a blank. *)
Theorem chunker_counts_and_reconstructs (full_text output_file : string) (max_chars : nat) :
  0 < max_chars ->
  exists r per_doc,
    chunk_all_texts full_text output_file max_chars = Some r
    /\ Forall2 (doc_chunks_ok max_chars) (split_on doc_marker full_text) per_doc
    /\ all_chunks r = concat per_doc
    /\ written r = map strip (all_chunks r)
    /\ output r = concat_all (map (fun c => c +:+ chunk_end) (written r))
    /\ (Forall (fun c => strip c = c) (all_chunks r) ->
        concat_all (written r) = concat_all (split_on doc_marker full_text)).
Proof.
  intros Hmax. unfold chunk_all_texts.
  destruct (chunk_docs_spec (split_on doc_marker full_text) max_chars Hmax)
    as (per_doc & Hall & Hrun).
  rewrite Hrun. eexists _, per_doc. split; [reflexivity|]. simpl.
  repeat split; try done.
  intros Hclean. rewrite (map_id_on strip _ Hclean), concat_all_concat.
  f_equal. clear Hrun Hclean.
  induction Hall as [|doc chunks docs per_doc (_ & _ & _ & Hcat) _ IH]; [done|].
  simpl. by rewrite Hcat, IH.
Qed.

Lemma chunker_counts_and_reconstructs_witness :
  exists r per_doc,
    chunk_all_texts ("ab cd" +:+ doc_marker +:+ "xyz") "chunks.txt" 3 = Some r
    /\ Forall2 (doc_chunks_ok 3)
               (split_on doc_marker ("ab cd" +:+ doc_marker +:+ "xyz")) per_doc
    /\ all_chunks r = concat per_doc
    /\ written r = map strip (all_chunks r)
    /\ output r = concat_all (map (fun c => c +:+ chunk_end) (written r))
    /\ (Forall (fun c => strip c = c) (all_chunks r) ->
        concat_all (written r)
        = concat_all (split_on doc_marker ("ab cd" +:+ doc_marker +:+ "xyz"))).
Proof.
  apply (chunker_counts_and_reconstructs
           ("ab cd" +:+ doc_marker +:+ "xyz") "chunks.txt" 3).
  lia.
Defined.

(** The scenario of the specification: 9 characters in chunks of 4 are
    cut 4, 4, 1. *)
Example chunk_text_scenario :
  chunk_text "abcdefghi" 4 = Some ["abcd"; "efgh"; "i"].
Proof. reflexivity. Qed.

(** With a maximum of 0 the loop never advances. *)
Example chunk_text_zero_diverges : chunk_text "abc" 0 = None.
Proof. reflexivity. Qed.

End ChunkerFacts.

(** ** Cluster selector and clusterer *)

Section ClusteringFacts.
Import Clustering.
Local Open Scope Z_scope.

Lemma length_py_range lo hi step :
  length (py_range lo hi step) = Z.to_nat ((hi - lo + step - 1) / step).
Proof. unfold py_range. by rewrite length_map, length_seq. Qed.

Lemma in_py_range k lo hi step :
  0 < step ->
  In k (py_range lo hi step) <->
  exists i : nat, k = lo + Z.of_nat i * step /\ lo + Z.of_nat i * step < hi.
Proof.
  intros Hstep. unfold py_range. rewrite in_map_iff. split.
  - intros (i & <- & Hi). exists i. split; [done|].
    apply in_seq in Hi. destruct Hi as [_ Hi]. simpl in Hi.
    assert (Z.of_nat i < (hi - lo + step - 1) / step) as Hq by lia.
    assert (Z.of_nat i + 1 <= (hi - lo + step - 1) / step) as Hq' by lia.
    pose proof (Z.mul_div_le (hi - lo + step - 1) step Hstep). nia.
  - intros (i & -> & Hi). exists i. split; [done|].
    apply in_seq. split; [lia|]. simpl.
    assert (Z.of_nat i < (hi - lo + step - 1) / step); [|lia].
    apply Z.div_le_lower_bound with (a := hi - lo + step - 1) (q := Z.of_nat i + 1) in Hstep as Hq;
      [lia | nia].
Qed.

Lemma py_range_bounds k lo hi step :
  0 < step -> In k (py_range lo hi step) -> lo <= k < hi.
Proof.
  intros Hstep Hk. apply in_py_range in Hk as (i & -> & Hi); [|done]. nia.
Qed.

Lemma py_range_first lo hi step : 0 < step -> lo < hi -> In lo (py_range lo hi step).
Proof. intros Hstep Hlt. apply in_py_range; [done|]. exists 0%nat. lia. Qed.

Lemma py_range_subsample_length lo hi :
  (length (py_range lo hi (Z.max 1 ((hi - lo) / 10))) <= 19)%nat.
Proof.
  rewrite length_py_range.
  set (d := hi - lo). set (s := Z.max 1 (d / 10)).
  assert (1 <= s) as Hs by (unfold s; lia).
  assert ((d + s - 1) / s <= 19); [|lia].
  destruct (Z.le_gt_cases d 0) as [Hd|Hd].
  - assert ((d + s - 1) / s <= 0); [|lia].
    apply Z.lt_succ_r, Z.div_lt_upper_bound; lia.
  - apply Z.lt_succ_r, Z.div_lt_upper_bound; [lia|].
    pose proof (Z.div_mod d 10 ltac:(lia)) as Hdm.
    pose proof (Z.mod_pos_bound d 10 ltac:(lia)) as Hm.
    unfold s. destruct (Z.max_spec 1 (d / 10)) as [[? ->]|[? ->]]; lia.
Qed.

Lemma cluster_range_step lo hi :
  cluster_range lo hi
  = py_range lo hi (if 30 <? hi then Z.max 1 ((hi - lo) / 10) else 1).
Proof. unfold cluster_range. by destruct (30 <? hi). Qed.

(** C6, as the specification states it, fails at 150 chunks with the
    default bounds 3 and 50: the range from 3 to 30 holds more than ten
    counts, all 27 counts from 3 to 29 are candidates, and 30 is none. *)
Lemma range_keeps_extremes_counterexample : ~ Spec.range_keeps_extremes 150 3 50.
Proof.
  intros (_ & _ & H). destruct H as (_ & _ & Hhi); [vm_compute; done|].
  vm_compute in Hhi. intuition discriminate.
Qed.

Example cluster_range_150 :
  cluster_range (min_k 150 3) (max_k 150 3 50) = py_range 3 30 1
  /\ length (cluster_range (min_k 150 3) (max_k 150 3 50)) = 27%nat.
Proof. split; reflexivity. Qed.

(** C6 (amended). The bounds are min_k = min(configured_min, max(2,
    n/20)) and max_k = min(configured_max, max(min_k+2, n/5)); the
    candidates are min_k, min_k+step, ... below max_k, with step =
    max(1, (max_k-min_k)/10) when max_k exceeds 30 and 1 otherwise: every
    candidate lies in [min_k, max_k), min_k is one whenever min_k <
    max_k, max_k never is, and a subsampled range has at most 19
    candidates. *)
Theorem candidate_range (n : nat) (configured_min configured_max : Z) :
  let lo := min_k n configured_min in
  let hi := max_k n configured_min configured_max in
  let step := if 30 <? hi then Z.max 1 ((hi - lo) / 10) else 1 in
  lo = Z.min configured_min (Z.max 2 (Z.of_nat n / 20))
  /\ hi = Z.min configured_max (Z.max (lo + 2) (Z.of_nat n / 5))
  /\ cluster_range lo hi = py_range lo hi step
  /\ (forall k, In k (cluster_range lo hi) <->
        exists i : nat, k = lo + Z.of_nat i * step /\ k < hi)
  /\ (forall k, In k (cluster_range lo hi) -> lo <= k < hi)
  /\ (lo < hi <-> In lo (cluster_range lo hi))
  /\ ~ In hi (cluster_range lo hi)
  /\ (30 < hi -> (length (cluster_range lo hi) <= 19)%nat).
Proof.
  intros lo hi step.
  assert (0 < step) as Hstep by (unfold step; destruct (30 <? hi); lia).
  assert (cluster_range lo hi = py_range lo hi step) as Hcr
    by apply cluster_range_step.
  rewrite Hcr.
  assert (forall k, In k (py_range lo hi step) -> lo <= k < hi) as Hb
    by (intros k Hk; by apply (py_range_bounds k lo hi step)).
  split; [done|]. split; [done|]. split; [done|]. split; [|split; [|split; [|split]]].
  - intros k. rewrite in_py_range by done. split.
    + intros (i & -> & Hi). by exists i.
    + intros (i & -> & Hi). by exists i.
  - exact Hb.
  - split; [by apply py_range_first | intros Hin; apply Hb in Hin; lia].
  - intros Hin. apply Hb in Hin. lia.
  - intros Hhi. unfold step. apply Z.ltb_lt in Hhi. rewrite Hhi.
    apply py_range_subsample_length.
Qed.

Lemma candidate_range_witness :
  cluster_range (min_k 200 3) (max_k 200 3 50) = py_range 3 40 3
  /\ In 3 (cluster_range (min_k 200 3) (max_k 200 3 50))
  /\ ~ In 40 (cluster_range (min_k 200 3) (max_k 200 3 50))
  /\ (length (cluster_range (min_k 200 3) (max_k 200 3 50)) <= 19)%nat.
Proof.
  destruct (candidate_range 200 3 50)
    as (_ & _ & Hrange & _ & _ & Hlo & Hhi & Hlen).
  split; [exact Hrange|]. split; [apply Hlo; reflexivity|].
  split; [exact Hhi | apply Hlen; reflexivity].
Defined.

Section Selector.
Variable silhouette : Z -> matrix -> result Q.

Lemma score_loop_none X candidates scores log :
  (forall k, In k candidates ->
     Z.of_nat (length X) <= k \/ exists e, silhouette k X = Raise e) ->
  fst (score_loop silhouette X candidates scores log) = scores.
Proof.
  revert scores log. induction candidates as [|k rest IH]; intros scores log Hall.
  - reflexivity.
  - simpl. destruct (Z.leb_spec (Z.of_nat (length X)) k) as [Hle|Hgt].
    + apply IH. intros k' Hk'. apply Hall. by right.
    + destruct (Hall k (or_introl eq_refl)) as [Hle|[e He]]; [lia|].
      rewrite He. apply IH. intros k' Hk'. apply Hall. by right.
Qed.

Lemma selector_no_score X configured_min configured_max :
  (forall k,
     In k (cluster_range (min_k (length X) configured_min)
                         (max_k (length X) configured_min configured_max)) ->
     Z.of_nat (length X) <= k \/ exists e, silhouette k X = Raise e) ->
  fst (determine_optimal_clusters silhouette X configured_min configured_max)
  = min_k (length X) configured_min.
Proof.
  intros Hall. unfold determine_optimal_clusters.
  destruct (_ <? 2)%nat; [done|].
  pose proof (score_loop_none X _ [] [] Hall) as Hnone.
  destruct (score_loop _ _ _ _ _) as [scores log]. simpl in Hnone. by subst.
Qed.

(** C7. On exactly two chunks the selector returns 2 whatever minimum
    of at least 2 (and whatever maximum) is configured; and whenever no
    candidate yields a score, each one being skipped for k >= n or
    failing to be scored, the selector returns min_k. *)
Theorem selector_falls_back_to_min_k (X : matrix) (configured_min configured_max : Z) :
  (length X = 2%nat -> 2 <= configured_min ->
     fst (determine_optimal_clusters silhouette X configured_min configured_max) = 2)
  /\ ((forall k,
        In k (cluster_range (min_k (length X) configured_min)
                            (max_k (length X) configured_min configured_max)) ->
        Z.of_nat (length X) <= k \/ exists e, silhouette k X = Raise e) ->
      fst (determine_optimal_clusters silhouette X configured_min configured_max)
      = min_k (length X) configured_min).
Proof.
  split; [|apply selector_no_score].
  intros Hn Hmin.
  assert (min_k (length X) configured_min = 2) as Hlo
    by (unfold min_k; rewrite Hn; change (Z.of_nat 2 / 20) with 0; lia).
  rewrite <- Hlo. apply selector_no_score.
  intros k Hk. left. rewrite cluster_range_step in Hk.
  apply py_range_bounds in Hk; [|destruct (30 <? _); lia].
  rewrite Hn. lia.
Qed.

End Selector.

Lemma selector_falls_back_to_min_k_witness :
  fst (determine_optimal_clusters silhouette_flat (vectors two_vectors) 5 50) = 2
  /\ fst (determine_optimal_clusters silhouette_flat (vectors one_vector) 3 50)
     = min_k 1 3.
Proof.
  split.
  - apply (proj1 (selector_falls_back_to_min_k silhouette_flat (vectors two_vectors) 5 50));
      [reflexivity | lia].
  - apply (proj2 (selector_falls_back_to_min_k silhouette_flat (vectors one_vector) 3 50)).
    intros k Hk. left. vm_compute in Hk.
    destruct Hk as [<-|[<-|[]]]; simpl; lia.
Defined.

Section Clusterer.
Variable kmeans : Z -> matrix -> result (list Z).
Variable silhouette : Z -> matrix -> result Q.

(** C5 (amended). Without any embedded chunk the clustering stage
    raises its "No embeddings found" error, whatever count was asked
    for, and calls no partition algorithm; with exactly one embedded
    chunk and no count asked for, it settles on 2 clusters, logs the
    adjustment and does call the partition algorithm on the single
    vector, returning what that call returns or raises. *)
Theorem clustering_on_too_few (embeddings_data : list item) :
  (vectors embeddings_data = [] ->
     forall num_clusters,
       perform_clustering kmeans silhouette embeddings_data num_clusters
       = (Raise no_embeddings, []))
  /\ (length (vectors embeddings_data) = 1%nat ->
        perform_clustering kmeans silhouette embeddings_data None
        = (kmeans 2 (vectors embeddings_data),
           [NotEnoughWarning 1 2; ReducingLine 2; KMeansFit 2 1])).
Proof.
  split.
  - intros Hnone num_clusters. unfold perform_clustering. by rewrite Hnone.
  - intros Hone. unfold perform_clustering.
    destruct (vectors embeddings_data) as [|row [|row' X]] eqn:HX; try discriminate.
    reflexivity.
Qed.

(** C8. With n >= 2 embedded chunks and a requested count k above n,
    the clusterer lowers the count to max(2, n/3), logs the
    adjustment, fits the partition with the lowered count, which is at
    most n, and returns one label per chunk. *)
Theorem capacity_adjustment (embeddings_data : list item) (k : Z) :
  kmeans_contract kmeans ->
  (2 <= length (vectors embeddings_data))%nat ->
  Z.of_nat (length (vectors embeddings_data)) < k ->
  let n := length (vectors embeddings_data) in
  let reduced := Z.max 2 (Z.of_nat n / 3) in
  exists labels,
    perform_clustering kmeans silhouette embeddings_data (Some k)
    = (Ok labels, [NotEnoughWarning n k; ReducingLine reduced; KMeansFit reduced n])
    /\ length labels = n
    /\ Forall (fun l => 0 <= l < reduced) labels
    /\ reduced <= Z.of_nat n.
Proof.
  intros Hkm Hn Hk n reduced.
  assert (1 <= reduced <= Z.of_nat n) as Hred.
  { unfold reduced. pose proof (Z.div_le_upper_bound (Z.of_nat n) 3 (Z.of_nat n)).
    assert (Z.of_nat n / 3 <= Z.of_nat n) by (apply Z.div_le_upper_bound; lia).
    fold n in Hn. lia. }
  destruct (Hkm reduced (vectors embeddings_data)) as [Hok _].
  destruct (Hok Hred) as (labels & Hfit & Hlen & Hrange).
  exists labels. unfold perform_clustering.
  fold n in Hn, Hk. 
  destruct (vectors embeddings_data) as [|row X] eqn:HX; [simpl in n; lia|].
  assert ((k <=? 0) = false) as -> by lia.
  assert ((Z.of_nat (length (row :: X)) <? k) = true) as -> by (fold n; lia).
  fold n. fold reduced. rewrite Hfit. simpl. by repeat split; try lia.
Qed.

End Clusterer.

Lemma kmeans_round_robin_contract : kmeans_contract kmeans_round_robin.
Proof.
  intros k X. unfold kmeans_round_robin. split.
  - intros Hk. assert ((1 <=? k) && (k <=? Z.of_nat (length X)) = true) as -> by lia.
    eexists. split; [reflexivity|]. split.
    + by rewrite length_map, length_seq.
    + apply List.Forall_forall. intros l Hl. apply in_map_iff in Hl as (i & <- & _).
      apply Z.mod_pos_bound. lia.
  - intros Hk. assert ((1 <=? k) && (k <=? Z.of_nat (length X)) = false) as -> by lia.
    by eexists.
Qed.

(** C5, as the specification states it, fails on a single embedded
    chunk: the clusterer does fit a partition, with 2 clusters on 1
    vector. *)
Lemma insufficient_data_counterexample :
  ~ Spec.insufficient_data_reported kmeans_round_robin silhouette_flat one_vector.
Proof.
  intros H. unfold Spec.insufficient_data_reported in H.
  assert (length (vectors one_vector) < 2)%nat as Hlt by (simpl; lia).
  specialize (H Hlt). vm_compute in H. destruct H as [_ H].
  apply (H 2 1%nat). do 2 right. by left.
Qed.

Lemma clustering_on_too_few_witness :
  perform_clustering kmeans_round_robin silhouette_flat [] (Some 4)
  = (Raise no_embeddings, [])
  /\ perform_clustering kmeans_round_robin silhouette_flat one_vector None
     = (kmeans_round_robin 2 (vectors one_vector),
        [NotEnoughWarning 1 2; ReducingLine 2; KMeansFit 2 1]).
Proof.
  split.
  - apply (proj1 (clustering_on_too_few kmeans_round_robin silhouette_flat [])).
    reflexivity.
  - apply (proj2 (clustering_on_too_few kmeans_round_robin silhouette_flat one_vector)).
    reflexivity.
Defined.

Lemma capacity_adjustment_witness :
  exists labels,
    perform_clustering kmeans_round_robin silhouette_flat two_vectors (Some 5)
    = (Ok labels, [NotEnoughWarning 2 5; ReducingLine 2; KMeansFit 2 2])
    /\ length labels = 2%nat
    /\ Forall (fun l => 0 <= l < 2) labels
    /\ 2 <= 2.
Proof.
  apply (capacity_adjustment kmeans_round_robin silhouette_flat two_vectors 5
           kmeans_round_robin_contract); simpl; lia.
Defined.

Local Close Scope Z_scope.

Lemma length_vectors_cons it l :
  length (vectors (it :: l))
  = (if has_embedding it then 1 else 0) + length (vectors l).
Proof. unfold has_embedding. simpl. by destruct (embedding it) as [[|x v]|]. Qed.

Lemma length_vectors_le l : length (vectors l) <= length l.
Proof.
  induction l as [|it l IH]; [done|].
  rewrite length_vectors_cons. simpl. destruct (has_embedding it); lia.
Qed.

Lemma vectors_full l :
  length (vectors l) = length l <-> Forall (fun it => has_embedding it = true) l.
Proof.
  induction l as [|it l IH]; [by split; [constructor|]|].
  rewrite length_vectors_cons, Forall_cons. simpl.
  pose proof (length_vectors_le l).
  destruct (has_embedding it); split.
  - intros Hlen. split; [done|]. apply IH. lia.
  - intros [_ Hall]. apply IH in Hall. lia.
  - lia.
  - by intros [? _].
Qed.

Lemma vectors_short l :
  length (vectors l) < length l <-> Exists (fun it => has_embedding it = false) l.
Proof.
  induction l as [|it l IH]; [split; [simpl; lia | by inversion 1]|].
  rewrite length_vectors_cons, Exists_cons. simpl.
  pose proof (length_vectors_le l).
  destruct (has_embedding it); split.
  - intros Hlen. right. apply IH. lia.
  - intros [?|Hex]; [done|]. apply IH in Hex. lia.
  - by left.
  - lia.
Qed.

Lemma label_loop_spec labels : forall i data,
  i + length labels <= length data ->
  exists saved,
    label_loop i labels data = Ok saved
    /\ length saved = length data
    /\ (forall j, j < i -> saved !! j = data !! j)
    /\ (forall j l, labels !! j = Some l ->
          saved !! (i + j) = set_cluster l <$> data !! (i + j))
    /\ (forall j, i + length labels <= j -> saved !! j = data !! j).
Proof.
  induction labels as [|c labels IH]; intros i data Hlen; simpl in *.
  - exists data. by repeat split.
  - destruct (lookup_lt_is_Some_2 data i) as [it Hit]; [lia|]. rewrite Hit.
    destruct (IH (S i) (<[i := set_cluster c it]> data))
      as (saved & Hrun & Hsl & Hbefore & Hat & Hafter);
      [rewrite length_insert; lia|].
    exists saved. rewrite length_insert in Hsl. split; [done|]. split; [done|].
    split; [|split].
    + intros j Hj. rewrite Hbefore by lia. apply list_lookup_insert_ne. lia.
    + intros [|j] l Hj; simpl in Hj.
      * injection Hj as ->. rewrite Nat.add_0_r, Hbefore by lia.
        rewrite list_lookup_insert_eq by lia. by rewrite Hit.
      * replace (i + S j) with (S i + j) by lia.
        rewrite (Hat j l Hj). by rewrite list_lookup_insert_ne by lia.
    + intros j Hj. rewrite Hafter by lia. apply list_lookup_insert_ne. lia.
Qed.

Lemma rank_le data i : i <= length data -> rank data i <= i.
Proof.
  intros Hi. unfold rank. pose proof (length_vectors_le (take i data)) as Hle.
  rewrite length_take in Hle. lia.
Qed.

Lemma rank_lt_iff data i :
  i <= length data ->
  rank data i < i <->
  exists j it, j < i /\ data !! j = Some it /\ has_embedding it = false.
Proof.
  intros Hi. unfold rank.
  assert (length (take i data) = i) as Hlen by (rewrite length_take; lia).
  rewrite <- Hlen at 2. rewrite vectors_short, Exists_exists. split.
  - intros (it & Hin & Hno). apply list_elem_of_lookup in Hin as [j Hj].
    apply lookup_take_Some in Hj as [Hj Hlt]. by exists j, it.
  - intros (j & it & Hlt & Hj & Hno). exists it. split; [|done].
    apply list_elem_of_lookup. exists j. by apply lookup_take_Some.
Qed.

(** C10. Labels go onto records by position. Given one label per
    vector, [save_clustered_data] writes label [i] onto record [i] and
    leaves the records past the last label as they were; every record is
    saved with the label computed for its own vector if and only if
    every record carries a non-empty embedding. When one does not,
    there are fewer labels than records, so the trailing records get no
    cluster field, and the label of a vector lands on a record at or
    before the one that owns the vector: strictly before exactly when a
    record without an embedding precedes the owner. *)
Theorem labels_by_position (embeddings_data : list item) (labels : list Z) :
  length labels = length (vectors embeddings_data) ->
  exists saved,
    save_clustered_data embeddings_data labels = (Ok saved, [SavedLine])
    /\ length saved = length embeddings_data
    /\ (forall i l, labels !! i = Some l ->
          saved !! i = set_cluster l <$> embeddings_data !! i)
    /\ (forall i, length labels <= i -> saved !! i = embeddings_data !! i)
    /\ ((forall i, i < length embeddings_data ->
           receives_own_label embeddings_data labels saved i)
        <-> Forall (fun it => has_embedding it = true) embeddings_data)
    /\ (~ Forall (fun it => has_embedding it = true) embeddings_data ->
        length labels < length embeddings_data)
    /\ (forall i it,
          embeddings_data !! i = Some it -> has_embedding it = true ->
          rank embeddings_data i <= i
          /\ (rank embeddings_data i < i <->
              exists j it', j < i /\ embeddings_data !! j = Some it'
                            /\ has_embedding it' = false)).
Proof.
  intros Hlen. pose proof (length_vectors_le embeddings_data) as Hle.
  destruct (label_loop_spec labels 0 embeddings_data)
    as (saved & Hrun & Hsl & _ & Hat & Hafter); [simpl; lia|].
  exists saved. unfold save_clustered_data. rewrite Hrun.
  split; [done|]. split; [done|]. split; [exact (fun i => Hat i)|].
  split; [exact Hafter|]. split; [|split].
  - split.
    + intros Hown. apply Forall_lookup. intros i it Hit.
      destruct (Hown i) as (it' & l & Hit' & Hemb & _); [by eapply lookup_lt_Some|].
      congruence.
    + intros Hall i Hi.
      destruct (lookup_lt_is_Some_2 embeddings_data i Hi) as [it Hit].
      assert (rank embeddings_data i = i) as Hrank.
      { unfold rank.
        assert (length (vectors (take i embeddings_data))
                = length (take i embeddings_data)) as ->
          by (apply vectors_full; by apply Forall_take).
        rewrite length_take. lia. }
      apply vectors_full in Hall as Hfull.
      destruct (lookup_lt_is_Some_2 labels i) as [l Hl]; [lia|].
      exists it, l. rewrite Hrank. split; [done|]. split; [|split; [done|]].
      * by apply (Forall_lookup_1 _ _ _ _ Hall Hit).
      * specialize (Hat i l Hl). simpl in Hat. by rewrite Hat, Hit.
  - intros Hnot. destruct (decide (length labels < length embeddings_data)); [done|].
    exfalso. apply Hnot, vectors_full. lia.
  - intros i it Hit _. apply lookup_lt_Some in Hit as Hi.
    split; [apply rank_le; lia | apply rank_lt_iff; lia].
Qed.

Lemma labels_by_position_witness :
  exists saved,
    save_clustered_data mixed_records [1; 0]%Z = (Ok saved, [SavedLine])
    /\ length saved = length mixed_records
    /\ (forall i l, [1; 0]%Z !! i = Some l ->
          saved !! i = set_cluster l <$> mixed_records !! i)
    /\ (forall i, length [1; 0]%Z <= i -> saved !! i = mixed_records !! i)
    /\ ((forall i, i < length mixed_records ->
           receives_own_label mixed_records [1; 0]%Z saved i)
        <-> Forall (fun it => has_embedding it = true) mixed_records)
    /\ (~ Forall (fun it => has_embedding it = true) mixed_records ->
        length [1; 0]%Z < length mixed_records)
    /\ (forall i it,
          mixed_records !! i = Some it -> has_embedding it = true ->
          rank mixed_records i <= i
          /\ (rank mixed_records i < i <->
              exists j it', j < i /\ mixed_records !! j = Some it'
                            /\ has_embedding it' = false)).
Proof.
  apply (labels_by_position mixed_records [1; 0]%Z). reflexivity.
Defined.

(** On [mixed_records] the two labels computed for records 1 and 2 are
    written onto records 0 and 1, and record 2 is left without a cluster. *)
Example labels_shift_on_mixed_records :
  map cluster (match fst (save_clustered_data mixed_records [1; 0]%Z) with
               | Ok saved => saved | Raise _ => [] end)
  = [Some 1%Z; Some 0%Z; None].
Proof. reflexivity. Qed.

End ClusteringFacts.

(** ** Aggregator *)

Section AggregatorFacts.
Import Aggregator.

Lemma dict_append_keys cid it d :
  map fst (dict_append cid it d)
  = if decide (cid ∈ map fst d) then map fst d else map fst d ++ [cid].
Proof.
  induction d as [|[k items] d IH].
  - cbn [dict_append map fst]. rewrite decide_False; [done | apply not_elem_of_nil].
  - cbn [dict_append map fst]. destruct (Z.eqb_spec k cid) as [->|Hne]; cbn [map fst].
    + rewrite decide_True; [done | by left].
    + rewrite IH. destruct (decide (cid ∈ map fst d)) as [Hin|Hnin].
      * rewrite decide_True; [done | by right].
      * rewrite decide_False; [done|]. intros [?|?]%elem_of_cons; congruence.
Qed.

Lemma dict_append_items cid it d :
  concat (map snd (dict_append cid it d)) ≡ₚ it :: concat (map snd d).
Proof.
  induction d as [|[k items] d IH]; simpl; [done|].
  destruct (Z.eqb_spec k cid) as [->|Hne]; simpl.
  - rewrite <- app_assoc. simpl. by rewrite <- Permutation_middle.
  - rewrite IH. by rewrite <- Permutation_middle.
Qed.

Lemma dict_append_filed cid it d :
  cluster it = Some cid -> filed_by_cluster d -> filed_by_cluster (dict_append cid it d).
Proof.
  intros Hc. unfold filed_by_cluster.
  induction d as [|[k items] d IH]; simpl; intros Hd.
  - repeat constructor. done.
  - apply Forall_cons in Hd as [Hk Hd]. destruct (Z.eqb_spec k cid) as [->|Hne].
    + constructor; [|done]. simpl in *. apply Forall_app. split; [done|]. by constructor.
    + constructor; [done | by apply IH].
Qed.

Lemma dict_append_NoDup cid it d :
  NoDup (map fst d) -> NoDup (map fst (dict_append cid it d)).
Proof.
  intros Hnd. rewrite dict_append_keys. destruct (decide _) as [Hin|Hnin]; [done|].
  apply NoDup_app. split; [done|]. split; [|apply NoDup_singleton].
  intros x Hx Hx'. apply list_elem_of_singleton in Hx'. by subst.
Qed.

Lemma group_loop_spec data : forall d d',
  group_loop data d = Ok d' ->
  NoDup (map fst d) -> filed_by_cluster d ->
  NoDup (map fst d') /\ filed_by_cluster d'
  /\ concat (map snd d') ≡ₚ concat (map snd d) ++ data.
Proof.
  induction data as [|it data IH]; intros d d' Hrun Hnd Hfiled; simpl in Hrun.
  - injection Hrun as <-. by rewrite app_nil_r.
  - destruct (cluster it) as [cid|] eqn:Hc; [|discriminate].
    destruct (IH _ _ Hrun) as (Hnd' & Hfiled' & Hperm).
    + by apply dict_append_NoDup.
    + by apply dict_append_filed.
    + split; [done|]. split; [done|].
      rewrite Hperm, dict_append_items. by rewrite <- Permutation_middle.
Qed.

Lemma group_loop_total data : forall d,
  Forall (fun it => is_Some (cluster it)) data -> exists d', group_loop data d = Ok d'.
Proof.
  induction data as [|it data IH]; intros d Hall; simpl; [by eexists|].
  apply Forall_cons in Hall as [[cid Hc] Hall]. rewrite Hc. by apply IH.
Qed.

Lemma generate_clusters t d data names sim cpp art :
  fst (generate_docexplore_json t d data names sim cpp) = Ok art ->
  exists clusters_dict,
    group_loop data [] = Ok clusters_dict
    /\ map cl_id (clusters art) = map fst clusters_dict
    /\ map cl_items (clusters art) = map snd clusters_dict.
Proof.
  unfold generate_docexplore_json.
  destruct (group_loop data []) as [clusters_dict|e]; [|discriminate].
  simpl. intros [= <-]. exists clusters_dict. split; [done|]. simpl.
  rewrite !map_map. split; apply map_ext; by intros [cid items].
Qed.

Lemma NoDup_map_eq {A B : Type} (f : A -> B) (l : list A) x y :
  NoDup (map f l) -> In x l -> In y l -> f x = f y -> x = y.
Proof.
  induction l as [|a l IH]; simpl; [done|].
  intros [Hnin Hnd]%NoDup_cons [<-|Hx] [<-|Hy] Heq; try done.
  - exfalso. apply Hnin. rewrite Heq. apply list_elem_of_In. by apply in_map.
  - exfalso. apply Hnin. rewrite <- Heq. apply list_elem_of_In. by apply in_map.
  - by apply IH.
Qed.

Lemma label_loop_ids labels : forall i data saved,
  Clustering.label_loop i labels data = Ok saved -> map id saved = map id data.
Proof.
  induction labels as [|c labels IH]; intros i data saved Hrun; simpl in Hrun.
  - by injection Hrun as <-.
  - destruct (data !! i) as [it|] eqn:Hit; [|discriminate].
    rewrite (IH _ _ _ Hrun). clear Hrun IH. revert i Hit.
    induction data as [|x data IHd]; intros [|i] Hit; simpl in *; try done.
    + by injection Hit as ->.
    + f_equal. by apply IHd.
Qed.

Section Pipeline.
Variable kmeans : Z -> Clustering.matrix -> result (list Z).
Variable silhouette : Z -> Clustering.matrix -> result Q.

Lemma clustering_main_ids data clustered :
  fst (Clustering.clustering_main kmeans silhouette data) = Ok clustered ->
  map id clustered = map id data.
Proof.
  unfold Clustering.clustering_main, Clustering.save_clustered_data.
  destruct (Clustering.perform_clustering _ _ _ _) as [[labels|e] log].
  - destruct (Clustering.label_loop 0 labels data) as [saved|e] eqn:Hrun;
      simpl; [|discriminate].
    intros [= <-]. by eapply label_loop_ids.
  - destruct e; simpl; try discriminate. by intros [= <-].
Qed.

Lemma max_by_score_in best rest :
  In (Clustering.max_by_score best rest) (best :: rest).
Proof.
  revert best. induction rest as [|x rest IH]; intros best; simpl; [by left|].
  destruct (Qle_bool (snd x) (snd best)).
  - destruct (IH best) as [<-|Hin]; [by left | by right; right].
  - right. apply IH.
Qed.

Lemma score_loop_entries X (P : Z -> Prop) candidates : forall scores log,
  Forall (fun k => (Z.of_nat (length X) <=? k)%Z = false -> P k) candidates ->
  Forall (fun ks => P (fst ks)) scores ->
  Forall (fun ks => P (fst ks))
         (fst (Clustering.score_loop silhouette X candidates scores log)).
Proof.
  induction candidates as [|k rest IH]; intros scores log Hc Hs; simpl; [done|].
  apply Forall_cons in Hc as [Hk Hc].
  destruct (Z.of_nat (length X) <=? k)%Z; [by apply IH|].
  destruct (silhouette k X) as [avg|e]; apply IH; try done.
  apply Forall_app. split; [done|]. constructor; [by apply Hk | constructor].
Qed.

(** The selector returns min_k or a candidate below the number of rows. *)
Lemma selector_value X configured_min configured_max :
  let r := fst (Clustering.determine_optimal_clusters silhouette X
                  configured_min configured_max) in
  r = Clustering.min_k (length X) configured_min
  \/ (In r (Clustering.cluster_range
             (Clustering.min_k (length X) configured_min)
             (Clustering.max_k (length X) configured_min configured_max))
      /\ (r < Z.of_nat (length X))%Z).
Proof.
  unfold Clustering.determine_optimal_clusters.
  set (cands := Clustering.cluster_range _ _).
  destruct (length cands <? 2); [by left|].
  pose proof (score_loop_entries X
                (fun k => In k cands /\ (k < Z.of_nat (length X))%Z) cands [] []) as Hent.
  destruct (Clustering.score_loop silhouette X cands [] []) as [scores log].
  simpl in Hent. destruct scores as [|first rest]; [by left|]. right. simpl.
  assert (Forall (fun ks => In (fst ks) cands /\ (fst ks < Z.of_nat (length X))%Z)
                 (first :: rest)) as Hall.
  { apply Hent; [|constructor]. apply List.Forall_forall. intros k Hk Hlt.
    split; [done | lia]. }
  rewrite List.Forall_forall in Hall. apply Hall, max_by_score_in.
Qed.

(** With a vector on every record, at least two records and a partition
    algorithm that keeps scikit-learn's contract, the two stages do
    return an artifact. *)
Lemma cluster_then_assemble_succeeds (embeddings_data : list item)
    (cluster_names : gmap string string) :
  Clustering.kmeans_contract kmeans ->
  Forall (fun it => Clustering.has_embedding it = true) embeddings_data ->
  2 <= length embeddings_data ->
  exists art,
    cluster_then_assemble kmeans silhouette embeddings_data cluster_names = Ok art.
Proof.
  intros Hkm Hall Hn. apply vectors_full in Hall as Hfull.
  set (X := Clustering.vectors embeddings_data) in *.
  assert (exists k log,
            Clustering.perform_clustering kmeans silhouette embeddings_data None
            = (kmeans k X, log) /\ (1 <= k <= Z.of_nat (length X))%Z)
    as (k & log & Hperf & Hk).
  { unfold Clustering.perform_clustering. fold X.
    destruct X as [|row X'] eqn:HX; [simpl in Hfull; lia|]. rewrite <- HX in *.
    pose proof (selector_value X 3 50) as Hsel. simpl in Hsel.
    destruct (Clustering.determine_optimal_clusters silhouette X 3 50) as [k1 log1].
    simpl in Hsel.
    assert (2 <= k1)%Z as Hk1.
    { destruct Hsel as [->|[Hin _]].
      - unfold Clustering.min_k. pose proof (Z.div_pos (Z.of_nat (length X)) 20). lia.
      - rewrite cluster_range_step in Hin. apply py_range_bounds in Hin.
        + unfold Clustering.min_k in Hin.
          pose proof (Z.div_pos (Z.of_nat (length X)) 20). lia.
        + destruct (30 <? _)%Z; lia. }
    destruct (Z.ltb_spec (Z.of_nat (length X)) k1) as [Hlt|Hge].
    - eexists _, _. split; [reflexivity|].
      assert (Z.of_nat (length X) / 3 <= Z.of_nat (length X))%Z
        by (apply Z.div_le_upper_bound; lia).
      lia.
    - eexists _, _. split; [reflexivity|]. lia. }
  destruct (Hkm k X) as [Hok _].
  destruct (Hok Hk) as (labels & Hfit & Hlen & _).
  destruct (label_loop_spec labels 0 embeddings_data)
    as (saved & Hsave & Hsl & _ & Hat & _); [simpl; lia|].
  assert (Forall (fun it => is_Some (cluster it)) saved) as Hcl.
  { apply Forall_lookup. intros i it Hit.
    apply lookup_lt_Some in Hit as Hi.
    destruct (lookup_lt_is_Some_2 labels i) as [l Hl]; [lia|].
    specialize (Hat i l Hl). simpl in Hat. rewrite Hit in Hat.
    destruct (embeddings_data !! i) as [it0|]; [|done].
    injection Hat as ->. by eexists. }
  destruct (group_loop_total saved [] Hcl) as (d & Hd).
  unfold cluster_then_assemble, Clustering.clustering_main,
    Clustering.save_clustered_data.
  rewrite Hperf, Hfit, Hsave. simpl.
  unfold aggregator_main, generate_docexplore_json. rewrite Hd. by eexists.
Qed.

(** C2. Whenever clustering followed by assembly yields an artifact, its
    clusters partition the chunk records: the cluster ids are distinct,
    every record sits in the cluster named by its own cluster field, the
    records of all item lists together are the input records, each once,
    and so every chunk id appears in exactly one cluster's item list. *)
Theorem partition_invariant (embeddings_data : list item)
    (cluster_names : gmap string string) (art : artifact) :
  NoDup (map id embeddings_data) ->
  cluster_then_assemble kmeans silhouette embeddings_data cluster_names = Ok art ->
  NoDup (map cl_id (clusters art))
  /\ (forall c it, In c (clusters art) -> In it (cl_items c) ->
        cluster it = Some (cl_id c))
  /\ map id (flat_map cl_items (clusters art)) ≡ₚ map id embeddings_data
  /\ (forall i, In i (map id embeddings_data) ->
        exists! c, In c (clusters art) /\ In i (map id (cl_items c))).
Proof.
  intros Hids Hrun. unfold cluster_then_assemble in Hrun.
  destruct (fst (Clustering.clustering_main kmeans silhouette embeddings_data))
    as [clustered|e] eqn:Hclu; [|discriminate].
  apply clustering_main_ids in Hclu.
  apply generate_clusters in Hrun as (d & Hgroup & Hkeys & Hitems).
  destruct (group_loop_spec clustered [] d Hgroup)
    as (Hnd & Hfiled & Hperm); [constructor | constructor |].
  simpl in Hperm.
  assert (flat_map cl_items (clusters art) ≡ₚ clustered) as Hall
    by (by rewrite flat_map_concat_map, Hitems).
  assert (forall c it, In c (clusters art) -> In it (cl_items c) ->
            cluster it = Some (cl_id c)) as Hown.
  { intros c it Hc Hit.
    assert (Forall (fun c => Forall (fun it => cluster it = Some (cl_id c)) (cl_items c))
              (clusters art)) as Hf.
    { clear -Hfiled Hkeys Hitems. revert d Hfiled Hkeys Hitems.
      induction (clusters art) as [|c cs IH]; intros [|[k its] d] Hf Hk Hi;
        try discriminate; constructor.
      - apply Forall_cons in Hf as [Hf _]. simpl in *.
        injection Hk as -> _. by injection Hi as -> _.
      - apply Forall_cons in Hf as [_ Hf]. simpl in *.
        injection Hk as _ Hk. injection Hi as _ Hi. by apply (IH d). }
    rewrite List.Forall_forall in Hf. specialize (Hf c Hc).
    rewrite List.Forall_forall in Hf. by apply Hf. }
  assert (map id (flat_map cl_items (clusters art)) ≡ₚ map id embeddings_data) as Hpid
    by (rewrite <- Hclu; by apply Permutation_map).
  split; [by rewrite Hkeys|]. split; [exact Hown|]. split; [exact Hpid|].
  intros i Hi.
  assert (NoDup (map id (flat_map cl_items (clusters art)))) as Hnd'
    by (by rewrite Hpid).
  apply (Permutation_in _ (Permutation_sym Hpid)) in Hi.
  apply in_map_iff in Hi as (it & <- & Hit).
  apply in_flat_map in Hit as Hc. destruct Hc as (c & Hc & Hitc).
  exists c. split; [split; [done | by apply in_map]|].
  intros c' [Hc' Hi']. apply in_map_iff in Hi' as (it' & Heq & Hitc').
  assert (In it' (flat_map cl_items (clusters art))) as Hit'
    by (apply in_flat_map; by exists c').
  assert (it' = it) as -> by (by apply (NoDup_map_eq id _ _ _ Hnd')).
  apply (NoDup_map_eq cl_id (clusters art)); try done.
  - by rewrite Hkeys.
  - pose proof (Hown c it Hc Hitc). pose proof (Hown c' it Hc' Hitc'). congruence.
Qed.

End Pipeline.

Lemma partition_invariant_witness :
  NoDup (map cl_id (clusters two_vectors_artifact))
  /\ (forall c it, In c (clusters two_vectors_artifact) -> In it (cl_items c) ->
        cluster it = Some (cl_id c))
  /\ map id (flat_map cl_items (clusters two_vectors_artifact))
     ≡ₚ map id Clustering.two_vectors
  /\ (forall i, In i (map id Clustering.two_vectors) ->
        exists! c, In c (clusters two_vectors_artifact)
                   /\ In i (map id (cl_items c))).
Proof.
  apply (partition_invariant Clustering.kmeans_round_robin Clustering.silhouette_flat
           Clustering.two_vectors ∅ two_vectors_artifact).
  - apply (bool_decide_unpack _). by vm_compute.
  - by vm_compute.
Defined.

(** C4, as the specification states it, fails: on an empty input the
    aggregator raises nothing and returns an artifact. *)
Lemma aggregator_refuses_empty_counterexample : ~ Spec.aggregator_refuses_empty ∅.
Proof. intros [e He]. vm_compute in He. discriminate. Qed.

(** C4 (amended). On an empty member-chunk input the aggregator prints a
    warning and still writes the artifact, with an empty list of
    clusters; the presentation layer, reading an artifact without
    clusters, stops at its "No clusters found" error instead of rendering. *)
Theorem aggregator_on_empty_input (title description : string)
    (cluster_names : gmap string string) (similarity_threshold : Q)
    (charsPerPixel : Z) :
  generate_docexplore_json title description [] cluster_names
    similarity_threshold charsPerPixel
  = (Ok {| Aggregator.title := title; Aggregator.description := description;
           similarity := similarity_threshold;
           Aggregator.charsPerPixel := charsPerPixel; clusters := [] |},
     [EmptyDataWarning; GeneratedLine])
  /\ forall a, clusters a = [] -> analysis_page a = NoClustersError.
Proof.
  split; [reflexivity|]. intros a Ha. unfold analysis_page. by rewrite Ha.
Qed.

Lemma aggregator_on_empty_input_witness :
  fst (aggregator_main [] ∅) = Ok {| title := "Document Insights";
           description := "Explore key topics and insights extracted from the document.";
           similarity := 8 # 10; charsPerPixel := 20; clusters := [] |}
  /\ analysis_page {| title := "Document Insights";
           description := "Explore key topics and insights extracted from the document.";
           similarity := 8 # 10; charsPerPixel := 20; clusters := [] |}
     = NoClustersError.
Proof.
  destruct (aggregator_on_empty_input "Document Insights"
              "Explore key topics and insights extracted from the document."
              ∅ (8 # 10) 20) as [Hgen Hpage].
  split.
  - unfold aggregator_main. by rewrite Hgen.
  - by apply Hpage.
Defined.

End AggregatorFacts.

(** ** Topic namer *)

Section TopicNamingFacts.
Import TopicNaming.

(** C3, as the specification states it, fails on member texts that are
    all stop words: the vectorizer raises on the empty vocabulary and the
    label is "Cluster 4", not "Topic 4". *)
Lemma namer_falls_back_to_topic_counterexample :
  ~ Spec.namer_falls_back_to_topic 3 toy_vectorizer stable_argsort ["the and of"] 4.
Proof.
  intros H. unfold Spec.namer_falls_back_to_topic in H.
  assert (fst (name_cluster 3 toy_vectorizer stable_argsort ["the and of"] 4)
          = "Topic " +:+ str_of_Z 4) as Hlabel.
  { apply H. right. right. eexists. by vm_compute. }
  vm_compute in Hlabel. discriminate.
Qed.

Variable MAX_KEYWORDS : nat.
Variable count_vectorizer : list string -> result (list string * list Z).
Variable argsort : list Z -> list nat.

Lemma topic_label_nonempty cluster_id : topic_label cluster_id <> "".
Proof. discriminate. Qed.

Lemma cluster_label_nonempty cluster_id : cluster_label cluster_id <> "".
Proof. discriminate. Qed.

Lemma name_cluster_body_nonempty text_samples cluster_id title :
  name_cluster_body MAX_KEYWORDS count_vectorizer argsort text_samples cluster_id
  = Ok title ->
  title <> "".
Proof.
  unfold name_cluster_body.
  destruct (length text_samples =? 0); [by intros [= <-]|].
  destruct (count_vectorizer text_samples) as [[names counts]|e]; [|discriminate].
  destruct (pick names _) as [top|e]; [|discriminate].
  destruct (if length _ <? MAX_KEYWORDS then _ else _) as [|p sel]; [by intros [= <-]|].
  destruct (map PyStr.capitalize _) as [|first others]; [discriminate|].
  intros [= <-]. destruct (if 1 <? _ then _ else _); [discriminate | done].
Qed.

(** C3 (amended). The topic namer is total: [name_cluster] returns a
    label, never an exception, and the label is never empty. For an empty
    member list, and when no phrase is extracted, the label is "Topic
    {cluster_id}"; when an internal error occurs, in particular when the
    vectorizer raises (as it does on member texts that are all stop
    words), the label is "Cluster {cluster_id}" and the error is printed. *)
Theorem name_cluster_fallbacks (text_samples : list string) (cluster_id : Z) :
  fst (name_cluster MAX_KEYWORDS count_vectorizer argsort text_samples cluster_id) <> ""
  /\ (text_samples = [] ->
      name_cluster MAX_KEYWORDS count_vectorizer argsort text_samples cluster_id
      = (topic_label cluster_id, []))
  /\ (forall feature_names phrase_counts,
        text_samples <> [] ->
        count_vectorizer text_samples = Ok (feature_names, phrase_counts) ->
        pick feature_names (firstn (MAX_KEYWORDS * 2) (rev (argsort phrase_counts)))
        = Ok [] ->
        name_cluster MAX_KEYWORDS count_vectorizer argsort text_samples cluster_id
        = (topic_label cluster_id, []))
  /\ (forall e,
        name_cluster_body MAX_KEYWORDS count_vectorizer argsort text_samples cluster_id
        = Raise e ->
        name_cluster MAX_KEYWORDS count_vectorizer argsort text_samples cluster_id
        = (cluster_label cluster_id, [NamingError cluster_id e]))
  /\ (forall e,
        text_samples <> [] -> count_vectorizer text_samples = Raise e ->
        name_cluster MAX_KEYWORDS count_vectorizer argsort text_samples cluster_id
        = (cluster_label cluster_id, [NamingError cluster_id e])).
Proof.
  split; [|split; [|split; [|split]]].
  - unfold name_cluster.
    destruct (name_cluster_body _ _ _ _ _) as [title|e] eqn:Hbody; simpl.
    + by eapply name_cluster_body_nonempty.
    + apply cluster_label_nonempty.
  - intros ->. reflexivity.
  - intros names counts Hne Hvec Hpick. unfold name_cluster, name_cluster_body.
    destruct text_samples as [|t ts]; [done|]. simpl length.
    rewrite Hvec, Hpick. simpl. by destruct MAX_KEYWORDS.
  - intros e Hbody. unfold name_cluster. by rewrite Hbody.
  - intros e Hne Hvec. unfold name_cluster, name_cluster_body.
    destruct text_samples as [|t ts]; [done|]. simpl length. by rewrite Hvec.
Qed.

End TopicNamingFacts.

Lemma name_cluster_fallbacks_witness :
  TopicNaming.name_cluster 3 TopicNaming.toy_vectorizer TopicNaming.stable_argsort [] 4
  = (TopicNaming.topic_label 4, [])
  /\ TopicNaming.name_cluster 3 TopicNaming.toy_vectorizer TopicNaming.stable_argsort
       ["the and of"] 4
     = (TopicNaming.cluster_label 4,
        [TopicNaming.NamingError 4
           (ValueError "empty vocabulary; perhaps the documents only contain stop words")]).
Proof.
  split.
  - apply (name_cluster_fallbacks 3 TopicNaming.toy_vectorizer
             TopicNaming.stable_argsort [] 4).
    reflexivity.
  - apply (name_cluster_fallbacks 3 TopicNaming.toy_vectorizer
             TopicNaming.stable_argsort ["the and of"] 4).
    + discriminate.
    + reflexivity.
Defined.

(** The scenario of the specification, member texts that are all stop
    words, and a cluster that does get a name from its own phrases. *)
Example name_cluster_stop_words :
  TopicNaming.name_cluster 3 TopicNaming.toy_vectorizer TopicNaming.stable_argsort
    ["the and of"; "it is"] 4
  = ("Cluster 4",
     [TopicNaming.NamingError 4
        (ValueError "empty vocabulary; perhaps the documents only contain stop words")]).
Proof. reflexivity. Qed.

Example name_cluster_phrases :
  TopicNaming.name_cluster 3 TopicNaming.toy_vectorizer TopicNaming.stable_argsort
    ["revenue growth is strong"; "the revenue growth"] 4
  = ("Revenue growth & Revenue growth strong Growth strong", []).
Proof. reflexivity. Qed.

(** ** Topic overlap *)

Section OverlapFacts.
Import PyStr Overlap.

Lemma words_aux_blank cur s1 sp s2 :
  is_space sp = true ->
  words_aux cur (s1 +:+ String sp s2) = words_aux cur s1 ++ words_aux "" s2.
Proof.
  intros Hsp. revert cur. induction s1 as [|c s1 IH]; intros cur.
  - change ("" +:+ String sp s2) with (String sp s2).
    cbn [words_aux]. rewrite Hsp. by destruct cur.
  - rewrite append_cons. cbn [words_aux]. destruct (is_space c).
    + destruct cur; rewrite IH; reflexivity.
    + apply IH.
Qed.

Lemma words_join texts : words (String.concat " " texts) = flat_map words texts.
Proof.
  induction texts as [|t texts IH]; [reflexivity|].
  destruct texts as [|t' texts].
  - simpl. by rewrite app_nil_r.
  - change (String.concat " " (t :: t' :: texts))
      with (t +:+ String " "%char (String.concat " " (t' :: texts))).
    unfold words at 1. rewrite words_aux_blank by reflexivity.
    fold (words t). fold (words (String.concat " " (t' :: texts))).
    by rewrite IH.
Qed.

Lemma word_set_app texts1 texts2 :
  word_set (texts1 ++ texts2) = word_set texts1 ∪ word_set texts2.
Proof.
  unfold word_set. rewrite !words_join, flat_map_app, List.filter_app.
  apply list_to_set_app_L.
Qed.

Lemma word_set_topic data cid :
  word_set (map (fun it => lower (text it))
                (List.filter (fun it => bool_decide (cluster it = Some cid)) data))
  = Spec.topic_vocabulary data cid.
Proof.
  unfold Spec.topic_vocabulary.
  induction (List.filter _ data) as [|it l IH]; [reflexivity|].
  change (map (fun it0 => lower (text it0)) (it :: l))
    with ([lower (text it)] ++ map (fun it0 => lower (text it0)) l).
  rewrite word_set_app, IH. reflexivity.
Qed.

Lemma in_dict_In a topics_dict : In a topics_dict -> in_dict (fst a) topics_dict = true.
Proof.
  intros Hin. unfold in_dict. apply existsb_exists. exists a. split; [done | lia].
Qed.

Lemma topic_texts_lookup topics_dict cid data : forall acc,
  in_dict cid topics_dict = true ->
  default [] (fold_left (add_text topics_dict) data acc !! cid)
  = default [] (acc !! cid)
    ++ map (fun it => lower (text it))
           (List.filter (fun it => bool_decide (cluster it = Some cid)) data).
Proof.
  intros acc Hin. revert acc. induction data as [|it data IH]; intros acc.
  - simpl. by rewrite app_nil_r.
  - cbn [fold_left List.filter]. rewrite IH. unfold add_text.
    destruct (cluster it) as [c|] eqn:Hc.
    + destruct (decide (c = cid)) as [->|Hne].
      * rewrite Hin, lookup_insert_eq, bool_decide_true by done.
        simpl. by rewrite <- app_assoc.
      * rewrite bool_decide_false by congruence.
        destruct (in_dict c topics_dict); [|done].
        by rewrite lookup_insert_ne.
    + by rewrite bool_decide_false.
Qed.

Lemma topic_words_lookup topics_dict cid data :
  in_dict cid topics_dict = true ->
  default ∅ ((word_set <$> fold_left (add_text topics_dict) data ∅) !! cid)
  = Spec.topic_vocabulary data cid.
Proof.
  intros Hin. rewrite lookup_fmap.
  pose proof (topic_texts_lookup topics_dict cid data ∅ Hin) as Hl.
  rewrite lookup_empty in Hl. simpl in Hl. rewrite <- word_set_topic, <- Hl.
  by destruct (fold_left _ _ _ !! cid).
Qed.

Lemma flat_map_seq_shift {B : Type} (f : nat -> list B) k n :
  flat_map f (seq (S k) n) = flat_map (fun j => f (S j)) (seq k n).
Proof. by rewrite <- seq_shift, !flat_map_concat_map, map_map. Qed.

Lemma flat_map_lookups_from {A B : Type} (g : A -> list B) (l : list A) : forall k,
  flat_map (fun j => match l !! j with Some b => g b | None => [] end)
           (seq k (length l - k))
  = flat_map g (skipn k l).
Proof.
  induction l as [|x l IH]; intros k.
  - by destruct k.
  - destruct k as [|k].
    + cbn [length Nat.sub seq flat_map skipn]. cbn [lookup list_lookup].
      rewrite flat_map_seq_shift. cbn [lookup list_lookup].
      specialize (IH 0). rewrite Nat.sub_0_r in IH. f_equal. exact IH.
    + cbn [length Nat.sub skipn]. rewrite flat_map_seq_shift. apply IH.
Qed.

Lemma flat_map_pairs_from {A B : Type} (f : A -> A -> list B) (l : list A) : forall k,
  flat_map (fun i => match l !! i with
                     | Some a => flat_map (f a) (skipn (i + 1) l)
                     | None => []
                     end)
           (seq k (length l - k))
  = flat_map (fun ab => f (fst ab) (snd ab)) (Spec.unordered_pairs (skipn k l)).
Proof.
  induction l as [|x l IH]; intros k.
  - by destruct k.
  - destruct k as [|k].
    + cbn [length Nat.sub seq flat_map skipn Spec.unordered_pairs].
      cbn [lookup list_lookup Nat.add skipn].
      rewrite flat_map_seq_shift, flat_map_app. f_equal.
      * by rewrite !flat_map_concat_map, map_map.
      * specialize (IH 0). rewrite Nat.sub_0_r in IH. exact IH.
    + cbn [length Nat.sub skipn]. rewrite flat_map_seq_shift. apply IH.
Qed.

Lemma flat_map_ext_In {A B : Type} (f g : A -> list B) (l : list A) :
  (forall a, In a l -> f a = g a) -> flat_map f l = flat_map g l.
Proof.
  induction l as [|x l IH]; intros Hfg; [done|]. simpl.
  rewrite Hfg by (by left). f_equal. apply IH. intros a Ha. apply Hfg. by right.
Qed.

Lemma unordered_pairs_In {A : Type} (l : list A) a b :
  In (a, b) (Spec.unordered_pairs l) -> In a l /\ In b l.
Proof.
  induction l as [|x l IH]; [done|]. simpl. rewrite in_app_iff, in_map_iff.
  intros [(y & [= <- <-] & Hy)|Hin]; [by auto|]. destruct (IH Hin). auto.
Qed.

Lemma overlap_of_jaccard A B : overlap_of A B = Spec.jaccard A B.
Proof.
  unfold overlap_of, Spec.jaccard. destruct (decide (A ∪ B = ∅)) as [->|Hne].
  - by rewrite size_empty.
  - destruct (size (A ∪ B)) as [|n] eqn:Hsize; [|done].
    exfalso. apply Hne. apply leibniz_equiv. by apply size_empty_inv.
Qed.

Lemma exceeds_threshold_dec {T : Type} (score : Q) (x y : T) :
  (if exceeds_threshold score then x else y)
  = (if Qlt_le_dec (1 # 10) score then x else y).
Proof.
  unfold exceeds_threshold. destruct (Qlt_le_dec (1 # 10) score) as [Hlt|Hle].
  - destruct (Qle_bool score (1 # 10)) eqn:Hb; [|done].
    apply Qle_bool_iff in Hb. by apply Qlt_not_le in Hlt.
  - apply Qle_bool_iff in Hle. by rewrite Hle.
Qed.

Lemma jaccard_sym A B : Spec.jaccard A B = Spec.jaccard B A.
Proof.
  unfold Spec.jaccard.
  by rewrite (comm_L (∪) A B), (comm_L (∩) A B).
Qed.

Lemma jaccard_bounds A B : (0 <= Spec.jaccard A B <= 1)%Q.
Proof.
  unfold Spec.jaccard. destruct (decide (A ∪ B = ∅)) as [_|Hne]; [done|].
  assert (size (A ∩ B) <= size (A ∪ B)) as Hle.
  { apply subseteq_size. intros x [Hx _]%elem_of_intersection.
    by apply elem_of_union_l. }
  assert (size (A ∪ B) <> 0) as Hpos.
  { intros H0. apply Hne, leibniz_equiv. by apply size_empty_inv. }
  assert (Z.pos (Pos.of_nat (size (A ∪ B))) = Z.of_nat (size (A ∪ B))) as Hden
    by (rewrite <- positive_nat_Z, Nat2Pos.id; done).
  unfold Qle. simpl. rewrite Hden. split; lia.
Qed.

Section WithRound.
Variable round2 : Q -> Q.

(** C9. The overlap edges [compute_topic_overlap] returns are those of
    the specification: for every unordered pair of topics, in order, the
    Jaccard ratio of the two sets of distinct significant words
    (lower-cased, longer than three characters, alphabetic) of their
    member texts, reported with the rounded ratio exactly when the ratio
    exceeds 0.1. The ratio is symmetric and lies between 0 and 1, and two
    disjoint vocabularies have ratio 0, which is not above the threshold. *)
Theorem topic_overlap_is_jaccard (clustered_data : list item)
    (topics_dict : list (Z * string)) :
  compute_topic_overlap round2 clustered_data topics_dict
  = Spec.overlap_report round2 clustered_data topics_dict
  /\ (forall A B, Spec.jaccard A B = Spec.jaccard B A)
  /\ (forall A B, (0 <= Spec.jaccard A B <= 1)%Q)
  /\ (forall A B, A ∩ B = ∅ ->
        (Spec.jaccard A B == 0)%Q /\ ~ (1 # 10 < Spec.jaccard A B)%Q).
Proof.
  split; [|split; [exact jaccard_sym | split; [exact jaccard_bounds|]]].
  - unfold compute_topic_overlap, Spec.overlap_report.
    set (topic_words := word_set <$> _).
    transitivity
      (flat_map (fun ab => pair_entry round2 topic_words (fst ab) (snd ab))
                (Spec.unordered_pairs topics_dict)).
    + pose proof (flat_map_pairs_from (pair_entry round2 topic_words) topics_dict 0) as Hp.
      change (skipn 0 topics_dict) with topics_dict in Hp.
      rewrite Nat.sub_0_r in Hp. rewrite <- Hp.
      apply flat_map_ext. intros i.
      destruct (topics_dict !! i) as [a|].
      * apply flat_map_lookups_from.
      * clear Hp. induction (seq (i + 1) _) as [|j js IH]; [done | exact IH].
    + apply flat_map_ext_In. intros [[ci ni] [cj nj]] Hin.
      apply unordered_pairs_In in Hin as [Hi Hj].
      apply in_dict_In in Hi, Hj. simpl in Hi, Hj. cbn [fst snd pair_entry].
      unfold topic_words. rewrite !topic_words_lookup by done.
      rewrite overlap_of_jaccard. apply exceeds_threshold_dec.
  - intros A B Hdisj. unfold Spec.jaccard. rewrite Hdisj, size_empty.
    destruct (decide (A ∪ B = ∅)); split; try done.
Qed.

End WithRound.

Lemma topic_overlap_is_jaccard_witness :
  compute_topic_overlap round2_half_even
    [ {| id := 0; text := "Revenue grows quickly"; embedding := None; cluster := Some 0%Z |};
      {| id := 1; text := "revenue falls sharply"; embedding := None; cluster := Some 1%Z |} ]
    [(0%Z, "Growth"); (1%Z, "Decline")]
  = Spec.overlap_report round2_half_even
    [ {| id := 0; text := "Revenue grows quickly"; embedding := None; cluster := Some 0%Z |};
      {| id := 1; text := "revenue falls sharply"; embedding := None; cluster := Some 1%Z |} ]
    [(0%Z, "Growth"); (1%Z, "Decline")]
  /\ (Spec.jaccard {[ "grows" ]} {[ "falls" ]} == 0)%Q
  /\ ~ (1 # 10 < Spec.jaccard {[ "grows" ]} {[ "falls" ]})%Q.
Proof.
  destruct (topic_overlap_is_jaccard round2_half_even
    [ {| id := 0; text := "Revenue grows quickly"; embedding := None; cluster := Some 0%Z |};
      {| id := 1; text := "revenue falls sharply"; embedding := None; cluster := Some 1%Z |} ]
    [(0%Z, "Growth"); (1%Z, "Decline")]) as (Heq & _ & _ & Hdisj).
  split; [exact Heq|]. apply Hdisj. by vm_compute.
Defined.

(** The scenario of the specification: two topics of three significant
    words each that share only "revenue" overlap by 1/5, reported as 0.2;
    a topic that shares nothing is in no edge. *)
Example overlap_scenario :
  compute_topic_overlap round2_half_even
    [ {| id := 0; text := "Revenue grows quickly"; embedding := None; cluster := Some 0%Z |};
      {| id := 1; text := "revenue falls sharply"; embedding := None; cluster := Some 1%Z |};
      {| id := 2; text := "nothing shared here"; embedding := None; cluster := Some 2%Z |} ]
    [(0%Z, "Growth"); (1%Z, "Decline"); (2%Z, "Other")]
  = [("Growth", "Decline", (20 # 100)%Q)].
Proof. by vm_compute. Qed.

End OverlapFacts.


(** * Further properties of the code *)

(** ** Chunker: the shape of the chunks *)

Section ChunkShapes.
Import PyStr Chunker.

Lemma chunk_loop_slices fuel text max_chars : forall start acc chunks,
  0 < max_chars ->
  chunk_loop fuel text max_chars start acc = Some chunks ->
  exists rest,
    chunks = acc ++ rest
    /\ forall j c, rest !! j = Some c ->
         c = slice text (start + j * max_chars) (start + j * max_chars + max_chars)
         /\ start + j * max_chars < String.length text.
Proof.
  induction fuel as [|fuel IH]; intros start acc chunks Hmax Hrun; simpl in Hrun.
  - destruct (Nat.ltb_spec start (String.length text)); [discriminate|].
    injection Hrun as <-. exists []. by rewrite app_nil_r.
  - destruct (Nat.ltb_spec start (String.length text)) as [Hlt|Hge].
    + apply IH in Hrun as (rest & -> & Hrest); [|done].
      exists (slice text start (start + max_chars) :: rest).
      rewrite <- app_assoc. split; [done|].
      intros [|j] c Hc; simpl in Hc.
      * injection Hc as <-. by rewrite Nat.add_0_r.
      * apply Hrest in Hc as [-> Hlt']. split; [f_equal; lia | lia].
    + injection Hrun as <-. exists []. by rewrite app_nil_r.
Qed.

Lemma length_slice text a b :
  a <= b -> String.length (slice text a b) = Nat.min (b - a) (String.length text - a).
Proof. intros Hab. unfold slice. by rewrite str_length_take, str_length_drop. Qed.

(** X1. For a positive maximum, chunk number i of a text is the slice of
    the text from i*max to i*max+max: the chunks are consecutive and do
    not overlap, none is empty, and every chunk but the last has exactly
    max characters. *)
Theorem chunks_are_consecutive_slices (text : string) (max_chars : nat)
    (chunks : list string) (i : nat) (c : string) :
  0 < max_chars ->
  chunk_text text max_chars = Some chunks ->
  chunks !! i = Some c ->
  c = slice text (i * max_chars) (i * max_chars + max_chars)
  /\ 0 < String.length c
  /\ (S i < length chunks -> String.length c = max_chars).
Proof.
  intros Hmax Hrun Hc. unfold chunk_text in Hrun.
  apply chunk_loop_slices in Hrun as (rest & -> & Hrest); [|done]. simpl in *.
  destruct (Hrest i c Hc) as [Hslice Hlt]. simpl in Hslice, Hlt.
  split; [done|]. split.
  - rewrite Hslice, length_slice by lia. lia.
  - intros Hnext. destruct (lookup_lt_is_Some_2 rest (S i) Hnext) as [c' Hc'].
    apply Hrest in Hc' as [_ Hlt']. simpl in Hlt'.
    rewrite Hslice, length_slice by lia. lia.
Qed.

Lemma chunks_are_consecutive_slices_witness :
  "i" = slice "abcdefghi" (2 * 4) (2 * 4 + 4)
  /\ 0 < String.length "i"
  /\ (S 2 < length ["abcd"; "efgh"; "i"] -> String.length "i" = 4).
Proof.
  apply (chunks_are_consecutive_slices "abcdefghi" 4 ["abcd"; "efgh"; "i"] 2 "i");
    [lia | reflexivity | reflexivity].
Defined.

Lemma chunk_loop_zero fuel text : forall start acc,
  start < String.length text -> chunk_loop fuel text 0 start acc = None.
Proof.
  induction fuel as [|fuel IH]; intros start acc Hlt; simpl.
  - by destruct (Nat.ltb_spec start (String.length text)); [|lia].
  - destruct (Nat.ltb_spec start (String.length text)); [|lia].
    rewrite Nat.add_0_r. by apply IH.
Qed.

(** X2. With a maximum of 0 the loop of [chunk_text] never advances: on
    a non-empty text it yields no result however long it runs, and only
    the empty text is chunked (into no chunk). *)
Theorem chunk_size_zero_never_returns (text : string) :
  (text <> "" -> forall fuel, chunk_loop fuel text 0 0 [] = None)
  /\ (text <> "" -> chunk_text text 0 = None)
  /\ (text = "" -> chunk_text text 0 = Some []).
Proof.
  assert (text <> "" -> 0 < String.length text) as Hpos
    by (destruct text; [done | simpl; lia]).
  split; [|split].
  - intros Hne fuel. apply chunk_loop_zero. auto.
  - intros Hne. apply chunk_loop_zero. auto.
  - by intros ->.
Qed.

Lemma chunk_size_zero_never_returns_witness :
  (forall fuel, chunk_loop fuel "abc" 0 0 [] = None)
  /\ chunk_text "abc" 0 = None
  /\ chunk_text "" 0 = Some [].
Proof.
  destruct (chunk_size_zero_never_returns "abc") as (Hloop & Htext & _).
  split; [by apply Hloop|]. split; [by apply Htext|].
  by apply (chunk_size_zero_never_returns "").
Defined.

(** X3. A non-empty document no longer than the maximum is returned as
    one chunk, the document itself; the empty document gives no chunk. *)
Theorem short_document_is_one_chunk (text : string) (max_chars : nat) :
  0 < max_chars ->
  String.length text <= max_chars ->
  chunk_text text max_chars = Some (if is_empty text then [] else [text]).
Proof.
  intros Hmax Hshort.
  destruct (chunk_text_spec text max_chars Hmax) as (chunks & Hrun & Hlen & _ & Hcat).
  rewrite Hrun. f_equal. destruct text as [|ch text]; simpl is_empty.
  - rewrite ceil_div_0 in Hlen by done. by destruct chunks.
  - rewrite ceil_div_step, (proj2 (Nat.sub_0_le _ _) Hshort), ceil_div_0 in Hlen
      by (done || simpl; lia).
    destruct chunks as [|c [|c' chunks]]; try discriminate.
    rewrite concat_all_cons in Hcat. change (concat_all []) with "" in Hcat.
    by rewrite append_empty_r in Hcat; subst.
Qed.

Lemma short_document_is_one_chunk_witness :
  chunk_text "a short report" 4000 = Some ["a short report"].
Proof.
  apply (short_document_is_one_chunk "a short report" 4000); simpl; lia.
Defined.

End ChunkShapes.


(** ** Splitting on a marker *)

Section SplitFacts.
Import PyStr Extraction.

Lemma prefix_nil s : String.prefix "" s = true.
Proof. by destruct s. Qed.

Lemma prefix_app_self sep rest : String.prefix sep (sep +:+ rest) = true.
Proof.
  induction sep as [|c sep IH]; [apply prefix_nil|]. rewrite append_cons. simpl.
  by destruct (ascii_dec c c).
Qed.



Lemma str_length_app a b : String.length (a +:+ b) = String.length a + String.length b.
Proof. induction a as [|c a IH]; [done|]. rewrite append_cons. simpl. by rewrite IH. Qed.

Lemma str_drop_app i s t :
  i <= String.length s -> drop i (s +:+ t) = drop i s +:+ t.
Proof.
  revert s. induction i as [|i IH]; intros s Hi.
  - by destruct s.
  - destruct s as [|c s]; [simpl in Hi; lia|]. rewrite append_cons. simpl.
    apply IH. simpl in Hi. lia.
Qed.

Lemma split_on_aux_pass sep s : forall cur tail,
  (forall i, i < String.length s -> String.prefix sep (drop i (s +:+ tail)) = false) ->
  split_on_aux sep 0 cur (s +:+ tail) = split_on_aux sep 0 (cur +:+ s) tail.
Proof.
  induction s as [|c s IH]; intros cur tail Hno.
  - by rewrite append_empty_r.
  - rewrite append_cons. cbn [split_on_aux].
    pose proof (Hno 0 ltac:(simpl; lia)) as H0. rewrite append_cons in H0.
    cbn [drop] in H0. rewrite H0.
    rewrite IH.
    + f_equal. by rewrite append_assoc.
    + intros i Hi. apply (Hno (S i)). simpl. lia.
Qed.

Lemma split_on_aux_skip sep t : forall k cur rest,
  String.length t = k ->
  split_on_aux sep k cur (t +:+ rest) = split_on_aux sep 0 cur rest.
Proof.
  induction t as [|c t IH]; intros k cur rest Hk; simpl in Hk; subst k; [done|].
  rewrite append_cons. cbn [split_on_aux]. by apply IH.
Qed.

Lemma split_on_aux_match sep cur rest :
  sep <> "" ->
  split_on_aux sep 0 cur (sep +:+ rest) = cur :: split_on_aux sep 0 "" rest.
Proof.
  intros Hne. destruct sep as [|m sep']; [done|].
  assert (String.prefix (String m sep') (String m (sep' +:+ rest)) = true) as Hp
    by exact (prefix_app_self (String m sep') rest).
  rewrite append_cons. cbn [split_on_aux]. rewrite Hp.
  f_equal. apply split_on_aux_skip. simpl. lia.
Qed.





(** A text that ends like the start of the marker moves the boundary the
    chunker sees: the two texts below come back as the empty text and
    one text made of the rest. *)
Example boundary_inside_a_text :
  split_on Chunker.doc_marker
    (all_texts_file [nl +:+ nl +:+ "=== NEW DOCUMENT ==="; "b"])
  = [""; "=== NEW DOCUMENT ===" +:+ nl +:+ nl +:+ "b"].
Proof. reflexivity. Qed.

End SplitFacts.


(** ** Trimming *)

Section BlankFacts.
Import PyStr Blank.

Lemma lstrip_no_start s : starts_space (lstrip s) = false.
Proof.
  induction s as [|c s IH]; [done|]. simpl.
  destruct (is_space c) eqn:Hc; [done | by simpl].
Qed.

Lemma lstrip_id s : starts_space s = false -> lstrip s = s.
Proof. destruct s as [|c s]; [done|]. simpl. by intros ->. Qed.

Lemma rstrip_no_end s : ends_space (rstrip s) = false.
Proof.
  induction s as [|c s IH]; [done|]. simpl.
  destruct (rstrip s) as [|c' r] eqn:Hr.
  - destruct (is_space c) eqn:Hc; [done | by simpl].
  - exact IH.
Qed.

Lemma rstrip_id s : ends_space s = false -> rstrip s = s.
Proof.
  induction s as [|c s IH]; [done|]. simpl. destruct s as [|c' s].
  - simpl. by intros ->.
  - intros Hend. by rewrite IH.
Qed.

Lemma lstrip_keeps_end s : ends_space s = false -> ends_space (lstrip s) = false.
Proof.
  induction s as [|c s IH]; [done|]. intros Hend. simpl.
  destruct (is_space c) eqn:Hc; [|done].
  destruct s as [|c' s]; [done|]. by apply IH.
Qed.

Lemma strip_stripped s : stripped (strip s).
Proof.
  split; [apply lstrip_no_start|]. apply lstrip_keeps_end, rstrip_no_end.
Qed.

Lemma strip_id s : stripped s -> strip s = s.
Proof. intros [Hs He]. unfold strip. by rewrite rstrip_id, lstrip_id. Qed.

Lemma strip_idempotent s : strip (strip s) = strip s.
Proof. apply strip_id, strip_stripped. Qed.

Lemma rstrip_spaces s : all_chars is_space s = true -> rstrip s = "".
Proof.
  induction s as [|c s IH]; [done|]. simpl.
  intros [Hc Hs]%andb_true_iff. by rewrite IH, Hc.
Qed.

Lemma rstrip_app_spaces a post :
  all_chars is_space post = true -> rstrip (a +:+ post) = rstrip a.
Proof.
  intros Hpost. induction a as [|c a IH]; [by apply rstrip_spaces|].
  rewrite append_cons. simpl. by rewrite IH.
Qed.

Lemma rstrip_app_id a c :
  c <> "" -> ends_space c = false -> rstrip (a +:+ c) = a +:+ c.
Proof.
  intros Hne Hend. induction a as [|x a IH]; [by apply rstrip_id|].
  rewrite append_cons. simpl. rewrite IH.
  destruct (a +:+ c) eqn:Hac; [|done].
  destruct a; [by subst | discriminate].
Qed.

Lemma lstrip_app_spaces pre c :
  all_chars is_space pre = true -> lstrip (pre +:+ c) = lstrip c.
Proof.
  induction pre as [|x pre IH]; [done|]. cbn [all_chars].
  intros [Hx Hpre]%andb_true_iff. rewrite append_cons. cbn [lstrip].
  by rewrite Hx, IH.
Qed.

(** Blanks around a trimmed string are what [strip] removes. *)
Lemma strip_padded pre c post :
  all_chars is_space pre = true -> all_chars is_space post = true ->
  stripped c -> strip (pre +:+ c +:+ post) = c.
Proof.
  intros Hpre Hpost [Hs He]. unfold strip.
  rewrite <- append_assoc, rstrip_app_spaces by done.
  destruct c as [|x c'] eqn:Hc.
  - rewrite append_empty_r, rstrip_spaces by done. done.
  - rewrite rstrip_app_id, lstrip_app_spaces by done. by apply lstrip_id.
Qed.

End BlankFacts.


(** ** The chunk file, written and read back *)

Section ChunkFile.
Import PyStr Blank Extraction EmbeddingGeneration.

Lemma chunk_end_marker : Chunker.chunk_end = nl +:+ chunk_marker +:+ nl.
Proof. reflexivity. Qed.

Lemma marker_not_at_space x s :
  is_space x = true -> String.prefix chunk_marker (String x s) = false.
Proof.
  intros Hx. unfold chunk_marker. cbn [String.prefix].
  destruct (ascii_dec "-" x) as [<-|Hne]; [discriminate | done].
Qed.

Lemma prefix_skip_foreign M x : forall a b,
  all_chars (fun c => negb (Ascii.eqb c x)) M = true ->
  String.prefix M (a +:+ String x b) = true -> String.prefix M a = true.
Proof.
  induction M as [|m M IH]; intros a b Hx Hp; [apply prefix_nil|].
  cbn [all_chars] in Hx. apply andb_true_iff in Hx as [Hm HM].
  destruct a as [|y a].
  - change ("" +:+ String x b) with (String x b) in Hp. cbn [String.prefix] in Hp.
    destruct (ascii_dec m x) as [->|Hne]; [|discriminate].
    by rewrite Ascii.eqb_refl in Hm.
  - rewrite append_cons in Hp. cbn [String.prefix] in *.
    destruct (ascii_dec m y); [by eapply IH | discriminate].
Qed.

Lemma contains_false M c :
  M <> "" -> contains M c = false -> forall i, String.prefix M (drop i c) = false.
Proof.
  intros Hne Hno i. destruct (Nat.le_gt_cases i (String.length c)) as [Hle|Hgt].
  - destruct (String.prefix M (drop i c)) eqn:Hp; [|done].
    assert (contains M c = true) as Hyes; [|congruence].
    apply existsb_exists. exists i. split; [apply in_seq; lia | done].
  - rewrite str_drop_all by lia. by destruct M.
Qed.

Lemma no_marker_in_padded pre c :
  all_chars is_space pre = true -> contains chunk_marker c = false ->
  forall i, String.prefix chunk_marker (drop i (pre +:+ c)) = false.
Proof.
  intros Hpre Hc. induction pre as [|x pre IH]; intros i.
  - by apply contains_false.
  - cbn [all_chars] in Hpre. apply andb_true_iff in Hpre as [Hx Hpre].
    rewrite append_cons. destruct i as [|i]; [by apply marker_not_at_space|].
    cbn [drop]. by apply IH.
Qed.

Lemma no_marker_before_end pre c tail :
  all_chars is_space pre = true -> contains chunk_marker c = false ->
  forall i, i < String.length ((pre +:+ c) +:+ nl) ->
    String.prefix chunk_marker (drop i (((pre +:+ c) +:+ nl) +:+ tail)) = false.
Proof.
  intros Hpre Hc i Hi. rewrite str_length_app in Hi. simpl in Hi.
  rewrite append_assoc, str_drop_app by lia.
  destruct (String.prefix chunk_marker (drop i (pre +:+ c) +:+ nl +:+ tail)) eqn:Hp;
    [|done].
  apply prefix_skip_foreign in Hp; [|reflexivity].
  by rewrite no_marker_in_padded in Hp.
Qed.

Lemma read_back ws : forall pre,
  all_chars is_space pre = true ->
  Forall (fun c => stripped c /\ contains chunk_marker c = false) ws ->
  List.filter (fun c => negb (is_empty c))
    (map strip (split_on_aux chunk_marker 0 ""
                  (pre +:+ concat_all (map (fun c => c +:+ Chunker.chunk_end) ws))))
  = List.filter (fun c => negb (is_empty c)) ws.
Proof.
  induction ws as [|c ws IH]; intros pre Hpre Hall.
  - change (concat_all (map _ [])) with "".
    rewrite <- (append_empty_r (pre +:+ "")), split_on_aux_pass.
    + change ("" +:+ pre +:+ "") with (pre +:+ ""). rewrite append_empty_r.
      cbn [split_on_aux map]. unfold strip. rewrite rstrip_spaces by done. done.
    + intros i Hi. rewrite !append_empty_r.
      rewrite <- (append_empty_r pre). apply no_marker_in_padded; [done | reflexivity].
  - apply Forall_cons in Hall as [[Hc Hno] Hall].
    cbn [map]. rewrite concat_all_cons, chunk_end_marker.
    replace (pre +:+ (c +:+ nl +:+ chunk_marker +:+ nl) +:+ concat_all (map _ ws))
      with (((pre +:+ c) +:+ nl)
            +:+ chunk_marker
            +:+ (nl +:+ concat_all (map (fun c => c +:+ Chunker.chunk_end) ws)))
      by (by rewrite !append_assoc).
    rewrite split_on_aux_pass by (by apply no_marker_before_end).
    rewrite split_on_aux_match by done.
    change ("" +:+ (pre +:+ c) +:+ nl) with ((pre +:+ c) +:+ nl).
    cbn [map List.filter]. rewrite append_assoc, strip_padded by done.
    rewrite IH by done. done.
Qed.

(** X5. What the vectorizer stage reads back from the chunk file is what
    the chunker wrote, less the empty chunks: when no written chunk
    contains the text of the end-of-chunk marker, splitting the file on
    the marker and trimming gives the written chunks that are not empty,
    in order. *)
Theorem chunk_file_round_trip (full_text output_file : string) (max_chars : nat)
    (r : Chunker.chunked) :
  Chunker.chunk_all_texts full_text output_file max_chars = Some r ->
  Forall (fun c => contains chunk_marker c = false) (Chunker.written r) ->
  read_chunks (Chunker.output r)
  = List.filter (fun c => negb (is_empty c)) (Chunker.written r).
Proof.
  unfold Chunker.chunk_all_texts.
  destruct (Chunker.chunk_docs _ _) as [chunks|]; [|discriminate].
  intros [= <-] Hno. cbn [Chunker.output Chunker.written] in *.
  unfold read_chunks, split_on.
  rewrite <- (read_back (map strip chunks) ""); [done | done |].
  apply List.Forall_forall. intros c Hc. split.
  - apply in_map_iff in Hc as (c0 & <- & _). apply strip_stripped.
  - rewrite List.Forall_forall in Hno. by apply Hno.
Qed.

Lemma chunk_file_round_trip_witness :
  read_chunks (Chunker.output sample_chunked)
  = List.filter (fun c => negb (is_empty c)) (Chunker.written sample_chunked).
Proof.
  apply (chunk_file_round_trip "ab    cd" "chunks.txt" 3 sample_chunked).
  - reflexivity.
  - repeat constructor.
Defined.

Example read_chunks_sample : read_chunks (Chunker.output sample_chunked) = ["ab"; "cd"].
Proof. reflexivity. Qed.

End ChunkFile.


(** ** Vectorizer stage *)

Section EmbeddingFacts.
Import PyStr Blank EmbeddingGeneration.

Lemma read_chunks_trimmed content :
  Forall (fun c => c <> "" /\ stripped c) (read_chunks content).
Proof.
  unfold read_chunks. apply List.Forall_forall. intros c Hc.
  apply filter_In in Hc as [Hin Hne]. split; [by destruct c|].
  apply in_map_iff in Hin as (c0 & <- & _). apply strip_stripped.
Qed.

Variable model : Type.
Variable fit : list string -> result model.
Variable transform : model -> string -> list float.

(** The globals after a successful fit to [m]. *)
Lemma get_embedding_fitted m t :
  get_embedding fit transform t {| _vectorizer := Some (Some m); _fitted := Some true |}
  = (Returned (transform m t), {| _vectorizer := Some (Some m); _fitted := Some true |}).
Proof. reflexivity. Qed.

Lemma embed_loop_fitted m chunks : forall idx acc,
  exists recs,
    embed_loop fit transform idx chunks
      {| _vectorizer := Some (Some m); _fitted := Some true |} acc
    = (Returned (acc ++ recs), {| _vectorizer := Some (Some m); _fitted := Some true |})
    /\ map id recs = map Z.of_nat (seq idx (length chunks))
    /\ map text recs = chunks
    /\ Forall (fun it => embedding it = Some (transform m (text it))
                         /\ cluster it = None) recs.
Proof.
  induction chunks as [|c chunks IH]; intros idx acc.
  - exists []. by rewrite app_nil_r.
  - cbn [embed_loop]. rewrite get_embedding_fitted.
    destruct (IH (S idx) (acc ++ [ {| id := Z.of_nat idx; text := c;
                                     embedding := Some (transform m c);
                                     cluster := None |} ]))
      as (recs & Hrun & Hid & Htext & Hemb).
    eexists (_ :: recs). rewrite Hrun, <- app_assoc. split; [reflexivity|].
    simpl. rewrite Hid, Htext. repeat split; try done. by constructor.
Qed.

(** X6. When the fit on the chunks read from the chunk file succeeds,
    [generate_embeddings] returns one record per chunk, in order: its id
    is its position, counted from 0, so ids are distinct; its text is the
    chunk, never empty and with no blank at either end; and its vector is
    the chunk transformed by the one model fitted on all the chunks,
    whatever the globals held before. No record has a cluster yet. *)
Theorem generate_embeddings_records (content : string) (g : globals model) (m : model) :
  fit (read_chunks content) = Ok m ->
  exists recs,
    generate_embeddings fit transform content g
    = (Returned recs, {| _vectorizer := Some (Some m); _fitted := Some true |})
    /\ map id recs = map Z.of_nat (seq 0 (length (read_chunks content)))
    /\ map text recs = read_chunks content
    /\ Forall (fun it => embedding it = Some (transform m (text it))
                         /\ cluster it = None) recs
    /\ NoDup (map id recs)
    /\ Forall (fun it => text it <> "" /\ stripped (text it)) recs.
Proof.
  intros Hfit. unfold generate_embeddings. rewrite Hfit.
  destruct (embed_loop_fitted m (read_chunks content) 0 [])
    as (recs & Hrun & Hid & Htext & Hemb).
  exists recs. split; [done|]. split; [done|]. split; [done|]. split; [done|]. split.
  - rewrite Hid. apply NoDup_ListNoDup, Finite.Injective_map_NoDup.
    + intros x y. apply Nat2Z.inj.
    + apply seq_NoDup.
  - pose proof (read_chunks_trimmed content) as Htrim. rewrite <- Htext in Htrim.
    clear -Htrim. induction recs as [|it recs IH]; [constructor|].
    apply Forall_cons in Htrim as [Hit Htrim]. constructor; [done | by apply IH].
Qed.

(** X7. A process that calls [get_embedding] without
    [generate_embeddings] fits the vectorizer on the first text alone,
    and every later text is transformed by that first model: nothing is
    fitted again. *)
Theorem get_embedding_fits_once (t1 t2 : string) (m1 : model) :
  fit [t1] = Ok m1 ->
  exists g1,
    get_embedding fit transform t1 no_globals = (Returned (transform m1 t1), g1)
    /\ get_embedding fit transform t2 g1 = (Returned (transform m1 t2), g1).
Proof.
  intros Hfit. eexists. unfold get_embedding at 1. simpl. rewrite Hfit.
  split; reflexivity.
Qed.

(** X8. A failed fit in [generate_embeddings] leaves the vectorizer name
    bound to an object that was never fitted: in a fresh process the next
    [get_embedding] ends in the NameError of the missing [_fitted], and
    after an earlier successful run it ends in scikit-learn's "not
    fitted" error; in neither case is anything fitted again. *)
Theorem failed_fit_blocks_embedding (content : string) (e : exn) (m0 : model)
    (t : string) :
  fit (read_chunks content) = Raise e ->
  (exists g', generate_embeddings fit transform content no_globals = (Raised e, g')
              /\ get_embedding fit transform t g' = (NameError "_fitted", g'))
  /\ (exists g',
        generate_embeddings fit transform content
          {| _vectorizer := Some (Some m0); _fitted := Some true |} = (Raised e, g')
        /\ get_embedding fit transform t g' = (Raised not_fitted, g')).
Proof.
  intros Hfit. unfold generate_embeddings. rewrite Hfit.
  split; eexists; split; reflexivity.
Qed.

End EmbeddingFacts.

Lemma generate_embeddings_records_witness :
  exists recs,
    EmbeddingGeneration.generate_embeddings EmbeddingGeneration.toy_fit
      EmbeddingGeneration.toy_transform
      (Chunker.output EmbeddingGeneration.sample_chunked) EmbeddingGeneration.no_globals
    = (EmbeddingGeneration.Returned recs,
       {| EmbeddingGeneration._vectorizer := Some (Some ["ab"; "cd"]);
          EmbeddingGeneration._fitted := Some true |})
    /\ map id recs
       = map Z.of_nat
           (seq 0 (length (EmbeddingGeneration.read_chunks
                             (Chunker.output EmbeddingGeneration.sample_chunked))))
    /\ map text recs
       = EmbeddingGeneration.read_chunks (Chunker.output EmbeddingGeneration.sample_chunked)
    /\ Forall (fun it => embedding it
                         = Some (EmbeddingGeneration.toy_transform ["ab"; "cd"] (text it))
                         /\ cluster it = None) recs
    /\ NoDup (map id recs)
    /\ Forall (fun it => text it <> "" /\ Blank.stripped (text it)) recs.
Proof.
  apply (generate_embeddings_records (list string) EmbeddingGeneration.toy_fit
           EmbeddingGeneration.toy_transform
           (Chunker.output EmbeddingGeneration.sample_chunked)
           EmbeddingGeneration.no_globals ["ab"; "cd"]).
  reflexivity.
Defined.

Lemma get_embedding_fits_once_witness :
  exists g1,
    EmbeddingGeneration.get_embedding EmbeddingGeneration.toy_fit
      EmbeddingGeneration.toy_transform "alpha beta" EmbeddingGeneration.no_globals
    = (EmbeddingGeneration.Returned
         (EmbeddingGeneration.toy_transform ["alpha"; "beta"] "alpha beta"), g1)
    /\ EmbeddingGeneration.get_embedding EmbeddingGeneration.toy_fit
         EmbeddingGeneration.toy_transform "gamma beta" g1
       = (EmbeddingGeneration.Returned
            (EmbeddingGeneration.toy_transform ["alpha"; "beta"] "gamma beta"), g1).
Proof.
  apply (get_embedding_fits_once (list string) EmbeddingGeneration.toy_fit
           EmbeddingGeneration.toy_transform "alpha beta" "gamma beta" ["alpha"; "beta"]).
  reflexivity.
Defined.

Lemma failed_fit_blocks_embedding_witness :
  (exists g',
     EmbeddingGeneration.generate_embeddings EmbeddingGeneration.toy_fit
       EmbeddingGeneration.toy_transform "" EmbeddingGeneration.no_globals
     = (EmbeddingGeneration.Raised
          (ValueError "empty vocabulary; perhaps the documents only contain stop words"), g')
     /\ EmbeddingGeneration.get_embedding EmbeddingGeneration.toy_fit
          EmbeddingGeneration.toy_transform "alpha" g'
        = (EmbeddingGeneration.NameError "_fitted", g'))
  /\ (exists g',
        EmbeddingGeneration.generate_embeddings EmbeddingGeneration.toy_fit
          EmbeddingGeneration.toy_transform ""
          {| EmbeddingGeneration._vectorizer := Some (Some ["beta"]);
             EmbeddingGeneration._fitted := Some true |}
        = (EmbeddingGeneration.Raised
             (ValueError "empty vocabulary; perhaps the documents only contain stop words"),
           g')
        /\ EmbeddingGeneration.get_embedding EmbeddingGeneration.toy_fit
             EmbeddingGeneration.toy_transform "alpha" g'
           = (EmbeddingGeneration.Raised EmbeddingGeneration.not_fitted, g')).
Proof.
  apply (failed_fit_blocks_embedding (list string) EmbeddingGeneration.toy_fit
           EmbeddingGeneration.toy_transform ""
           (ValueError "empty vocabulary; perhaps the documents only contain stop words")
           ["beta"] "alpha").
  reflexivity.
Defined.


(** ** Cluster selector and clusterer: further properties *)

Section SelectorFacts.
Import Clustering Reference.
Variable kmeans : Z -> matrix -> result (list Z).
Variable silhouette : Z -> matrix -> result Q.

Lemma score_loop_scored X candidates : forall scores log,
  fst (score_loop silhouette X candidates scores log)
  = scores ++ scored silhouette X candidates.
Proof.
  induction candidates as [|k rest IH]; intros scores log.
  - simpl. by rewrite app_nil_r.
  - cbn [score_loop scored flat_map].
    destruct (Z.of_nat (length X) <=? k)%Z; [apply IH|].
    destruct (silhouette k X) as [avg|e]; rewrite IH; [|done].
    by rewrite <- app_assoc.
Qed.

Lemma max_by_score_first rest : forall best i x,
  (best :: rest) !! i = Some x ->
  (forall j y, (best :: rest) !! j = Some y -> (snd y <= snd x)%Q) ->
  (forall j y, j < i -> (best :: rest) !! j = Some y -> (snd y < snd x)%Q) ->
  max_by_score best rest = x.
Proof.
  induction rest as [|y rest IH]; intros best i x Hi Hmax Hbefore.
  - destruct i as [|i]; simpl in Hi; [by injection Hi | done].
  - cbn [max_by_score]. destruct i as [|i].
    + injection Hi as <-.
      assert (Qle_bool (snd y) (snd best) = true) as ->
        by (apply Qle_bool_iff; by apply (Hmax 1 y)).
      apply (IH best 0); [done | |intros j y' Hj; lia].
      intros [|j] y' Hy'; [by apply (Hmax 0) | by apply (Hmax (S (S j)))].
    + pose proof (Hbefore 0 best ltac:(lia) eq_refl) as Hlt.
      destruct (Qle_bool (snd y) (snd best)) eqn:Hle.
      * apply Qle_bool_iff in Hle. destruct i as [|i].
        { simpl in Hi. injection Hi as <-. exfalso.
          apply (Qlt_not_le _ _ Hlt). done. }
        apply (IH best (S i)); [done | |].
        -- intros [|j] y' Hy'; [by apply (Hmax 0) | by apply (Hmax (S (S j)))].
        -- intros [|j] y' Hj Hy'; [by apply (Hbefore 0); [lia|]|].
           apply (Hbefore (S (S j))); [lia | done].
      * apply (IH y i); [done | |].
        -- intros j y' Hy'. by apply (Hmax (S j)).
        -- intros j y' Hj Hy'. apply (Hbefore (S j)); [lia | done].
Qed.

(** X9. Among the candidates that get a score, the selector returns the
    first one with the highest score: a candidate whose score is at
    least every other score and strictly above every earlier one is the
    result. A candidate whose scoring raised takes no part. *)
Theorem selector_picks_first_best (X : matrix) (configured_min configured_max : Z)
    (i : nat) (k : Z) (s : Q) :
  let candidates := cluster_range (min_k (length X) configured_min)
                                  (max_k (length X) configured_min configured_max) in
  2 <= length candidates ->
  scored silhouette X candidates !! i = Some (k, s) ->
  (forall j k' s', scored silhouette X candidates !! j = Some (k', s') -> (s' <= s)%Q) ->
  (forall j k' s', j < i -> scored silhouette X candidates !! j = Some (k', s') ->
     (s' < s)%Q) ->
  fst (determine_optimal_clusters silhouette X configured_min configured_max) = k.
Proof.
  intros candidates Hlen Hi Hmax Hbefore. unfold determine_optimal_clusters.
  fold candidates. destruct (Nat.ltb_spec (length candidates) 2) as [?|_]; [lia|].
  pose proof (score_loop_scored X candidates [] []) as Hscores.
  destruct (score_loop silhouette X candidates [] []) as [scores log].
  simpl in Hscores. subst scores.
  destruct (scored silhouette X candidates) as [|first rest]; [done|].
  cbn [fst]. rewrite (max_by_score_first rest first i (k, s)); [done | done | |].
  - intros j [k' s'] Hy. by apply (Hmax j k').
  - intros j [k' s'] Hj Hy. by apply (Hbefore j k').
Qed.

(** X10. With at least two rows the selector never returns more
    clusters than there are rows, whatever bounds are configured and
    whatever the scores, and with a configured minimum of at least 2 it
    returns at least 2. *)
Theorem selector_within_rows (X : matrix) (configured_min configured_max : Z) :
  2 <= length X ->
  (fst (determine_optimal_clusters silhouette X configured_min configured_max)
   <= Z.of_nat (length X))%Z
  /\ ((2 <= configured_min)%Z ->
      (2 <= fst (determine_optimal_clusters silhouette X configured_min configured_max))%Z).
Proof.
  intros Hn.
  pose proof (selector_value silhouette X configured_min configured_max) as Hsel.
  simpl in Hsel.
  assert (0 <= Z.of_nat (length X) / 20 <= Z.of_nat (length X))%Z as Hdiv.
  { split; [apply Z.div_pos; lia | apply Z.div_le_upper_bound; lia]. }
  destruct Hsel as [->|[Hin Hlt]].
  - unfold min_k. split; lia.
  - split; [lia|]. intros Hmin. rewrite cluster_range_step in Hin.
    apply py_range_bounds in Hin; [|destruct (30 <? _)%Z; lia].
    unfold min_k in Hin. lia.
Qed.

Lemma perform_clustering_two (embeddings_data : list item)
    (num_clusters : option Z) :
  kmeans_contract kmeans ->
  2 <= length (vectors embeddings_data) ->
  exists labels log k,
    perform_clustering kmeans silhouette embeddings_data num_clusters = (Ok labels, log)
    /\ last log = Some (KMeansFit k (length (vectors embeddings_data)))
    /\ (1 <= k <= Z.of_nat (length (vectors embeddings_data)))%Z
    /\ length labels = length (vectors embeddings_data)
    /\ Forall (fun l => (0 <= l < k)%Z) labels.
Proof.
  intros Hkm Hn. set (X := vectors embeddings_data) in *.
  assert (exists k log,
            perform_clustering kmeans silhouette embeddings_data num_clusters
            = (kmeans k X, log ++ [KMeansFit k (length X)])
            /\ (1 <= k <= Z.of_nat (length X))%Z)
    as (k & log & Hperf & Hk).
  { unfold perform_clustering. fold X.
    destruct X as [|row X'] eqn:HX; [simpl in Hn; lia|]. rewrite <- HX in *.
    assert (Z.of_nat (length X) / 3 <= Z.of_nat (length X))%Z
      by (apply Z.div_le_upper_bound; lia).
    pose proof (selector_within_rows X 3 50 Hn) as [Hle Hge].
    specialize (Hge ltac:(lia)).
    destruct (determine_optimal_clusters silhouette X 3 50) as [k1 log1].
    simpl in Hle, Hge.
    destruct num_clusters as [k0|].
    - destruct (Z.leb_spec k0 0).
      + destruct (Z.ltb_spec (Z.of_nat (length X)) k1); eexists _, _;
          (split; [reflexivity | lia]).
      + destruct (Z.ltb_spec (Z.of_nat (length X)) k0); eexists _, _;
          (split; [reflexivity | lia]).
    - destruct (Z.ltb_spec (Z.of_nat (length X)) k1); eexists _, _;
        (split; [reflexivity | lia]). }
  destruct (Hkm k X) as [Hok _]. destruct (Hok Hk) as (labels & Hfit & Hlen & Hrange).
  exists labels, (log ++ [KMeansFit k (length X)]), k.
  rewrite Hperf, Hfit. split; [done|]. split; [apply last_snoc|]. done.
Qed.

(** X11. Clustering always succeeds on at least two vectors. Whatever
    cluster count is requested (none, a count that is not positive, one
    within the data or one above it), [perform_clustering] fits the
    partition with a count between 1 and the number of vectors, and
    under scikit-learn's contract returns one label per vector, each
    below the number of vectors. *)
Theorem clustering_succeeds_on_two (embeddings_data : list item)
    (num_clusters : option Z) :
  kmeans_contract kmeans ->
  2 <= length (vectors embeddings_data) ->
  exists labels log k,
    perform_clustering kmeans silhouette embeddings_data num_clusters = (Ok labels, log)
    /\ last log = Some (KMeansFit k (length (vectors embeddings_data)))
    /\ (1 <= k <= Z.of_nat (length (vectors embeddings_data)))%Z
    /\ length labels = length (vectors embeddings_data)
    /\ Forall (fun l => (0 <= l < k)%Z) labels.
Proof. apply perform_clustering_two. Qed.

End SelectorFacts.

Lemma selector_picks_first_best_witness :
  fst (Clustering.determine_optimal_clusters Clustering.silhouette_flat
         (Clustering.vectors ten_vectors) 3 50) = 2%Z.
Proof.
  apply (selector_picks_first_best Clustering.silhouette_flat
           (Clustering.vectors ten_vectors) 3 50 0 2%Z (1 # 2)%Q).
  - vm_compute. lia.
  - reflexivity.
  - intros j k' s' Hj. vm_compute in Hj.
    destruct j as [|[|j]]; try discriminate; injection Hj as <- <-;
      unfold Qle; simpl; lia.
  - intros j k' s' Hj. lia.
Defined.

Lemma selector_within_rows_witness :
  (fst (Clustering.determine_optimal_clusters Clustering.silhouette_flat
          (Clustering.vectors ten_vectors) 3 50) <= 10)%Z
  /\ (2 <= fst (Clustering.determine_optimal_clusters Clustering.silhouette_flat
                  (Clustering.vectors ten_vectors) 3 50))%Z.
Proof.
  destruct (selector_within_rows Clustering.silhouette_flat
              (Clustering.vectors ten_vectors) 3 50) as [Hle Hge].
  - simpl. lia.
  - split; [exact Hle | apply Hge; lia].
Defined.

Lemma clustering_succeeds_on_two_witness :
  exists labels log k,
    Clustering.perform_clustering Clustering.kmeans_round_robin Clustering.silhouette_flat
      Clustering.two_vectors (Some (-1)%Z) = (Ok labels, log)
    /\ last log = Some (Clustering.KMeansFit k
                          (length (Clustering.vectors Clustering.two_vectors)))
    /\ (1 <= k <= Z.of_nat (length (Clustering.vectors Clustering.two_vectors)))%Z
    /\ length labels = length (Clustering.vectors Clustering.two_vectors)
    /\ Forall (fun l => (0 <= l < k)%Z) labels.
Proof.
  apply (clustering_succeeds_on_two Clustering.kmeans_round_robin
           Clustering.silhouette_flat Clustering.two_vectors (Some (-1)%Z)
           kmeans_round_robin_contract).
  simpl. lia.
Defined.

(** ** Saving the labels *)

Section SaveFacts.
Import Clustering.

Lemma label_loop_overflow labels : forall i data,
  i <= length data -> length data < i + length labels ->
  label_loop i labels data = Raise (IndexError "list index out of range").
Proof.
  induction labels as [|c labels IH]; intros i data Hi Hlong; simpl in *; [lia|].
  destruct (data !! i) as [it|] eqn:Hit; [|done].
  apply lookup_lt_Some in Hit as Hlt.
  apply IH; rewrite length_insert; lia.
Qed.

(** X12. [save_clustered_data] raises IndexError exactly when it is given
    more labels than records. Otherwise it saves as many records as it
    was given, each with the id, the text and the embedding it had; the
    record at position i has label i as its cluster when there is one and
    keeps its cluster field, present or absent, when there is none. *)
Theorem save_keeps_records (embeddings_data : list item) (clusters : list Z) :
  (length embeddings_data < length clusters ->
   save_clustered_data embeddings_data clusters
   = (Raise (IndexError "list index out of range"), []))
  /\ (length clusters <= length embeddings_data ->
      exists saved,
        save_clustered_data embeddings_data clusters = (Ok saved, [SavedLine])
        /\ length saved = length embeddings_data
        /\ forall i it, embeddings_data !! i = Some it ->
             exists it', saved !! i = Some it'
               /\ id it' = id it /\ text it' = text it
               /\ embedding it' = embedding it
               /\ cluster it' = match clusters !! i with
                                | Some l => Some l
                                | None => cluster it
                                end).
Proof.
  unfold save_clustered_data. split.
  - intros Hlong. rewrite label_loop_overflow by (simpl; lia). done.
  - intros Hfit.
    destruct (label_loop_spec clusters 0 embeddings_data)
      as (saved & Hrun & Hlen & _ & Hat & Hafter); [simpl; lia|].
    exists saved. rewrite Hrun. split; [done|]. split; [done|].
    intros i it Hit. destruct (clusters !! i) as [l|] eqn:Hl.
    + specialize (Hat i l Hl). simpl in Hat. rewrite Hit in Hat.
      exists (set_cluster l it). by repeat split.
    + apply lookup_ge_None in Hl. exists it.
      rewrite Hafter by (simpl; lia). by repeat split.
Qed.

Lemma save_keeps_records_witness :
  save_clustered_data two_vectors [0; 1; 1]%Z
  = (Raise (IndexError "list index out of range"), [])
  /\ exists saved,
       save_clustered_data mixed_records [1; 0]%Z = (Ok saved, [SavedLine])
       /\ length saved = length mixed_records
       /\ forall i it, mixed_records !! i = Some it ->
            exists it', saved !! i = Some it'
              /\ id it' = id it /\ text it' = text it
              /\ embedding it' = embedding it
              /\ cluster it' = match [1; 0]%Z !! i with
                               | Some l => Some l
                               | None => cluster it
                               end.
Proof.
  split.
  - apply (proj1 (save_keeps_records two_vectors [0; 1; 1]%Z)). simpl. lia.
  - apply (proj2 (save_keeps_records mixed_records [1; 0]%Z)). simpl. lia.
Defined.

End SaveFacts.


(** ** Aggregator: grouping, order and the missing key *)

Section GroupingFacts.
Import Aggregator Reference.

Lemma group_loop_missing data : forall d,
  Exists (fun it => cluster it = None) data ->
  group_loop data d = Raise (KeyError "cluster").
Proof.
  induction data as [|it data IH]; intros d Hex; [by inversion Hex|].
  simpl. destruct (cluster it) as [cid|] eqn:Hc; [|done].
  apply IH. apply Exists_cons in Hex as [Hit|Hex]; [congruence | done].
Qed.

(** X13. The aggregator needs the cluster key on every record: when one
    record has none it raises KeyError before anything is written or
    printed, and when every record has one it returns an artifact. *)
Theorem aggregator_needs_cluster_key (title description : string)
    (clustered_data : list item) (cluster_names : gmap string string)
    (similarity_threshold : Q) (charsPerPixel : Z) :
  (Exists (fun it => cluster it = None) clustered_data ->
   generate_docexplore_json title description clustered_data cluster_names
     similarity_threshold charsPerPixel = (Raise (KeyError "cluster"), []))
  /\ (Forall (fun it => is_Some (cluster it)) clustered_data ->
      exists art,
        fst (generate_docexplore_json title description clustered_data cluster_names
               similarity_threshold charsPerPixel) = Ok art).
Proof.
  unfold generate_docexplore_json. split.
  - intros Hex. rewrite group_loop_missing by done.
    destruct clustered_data; [by inversion Hex | done].
  - intros Hall. destruct (group_loop_total clustered_data [] Hall) as [d ->].
    by eexists.
Qed.

Lemma aggregator_needs_cluster_key_witness :
  generate_docexplore_json "T" "D" Clustering.mixed_records ∅ (8 # 10) 20
  = (Raise (KeyError "cluster"), [])
  /\ exists art,
       fst (generate_docexplore_json "T" "D"
              (map (set_cluster 0) Clustering.mixed_records) ∅ (8 # 10) 20) = Ok art.
Proof.
  split.
  - apply (proj1 (aggregator_needs_cluster_key "T" "D" Clustering.mixed_records ∅
                    (8 # 10) 20)).
    by left.
  - apply (proj2 (aggregator_needs_cluster_key "T" "D"
                    (map (set_cluster 0) Clustering.mixed_records) ∅ (8 # 10) 20)).
    repeat constructor; by eexists.
Defined.

Lemma first_occurrences_In x l : In x (first_occurrences l) <-> In x l.
Proof.
  induction l as [|y l IH]; [done|]. simpl. rewrite filter_In, IH.
  destruct (Z.eqb_spec x y) as [->|Hne]; [tauto|].
  split; [tauto|]. intros [?|?]; [by left | by right].
Qed.

Lemma first_occurrences_NoDup l : List.NoDup (first_occurrences l).
Proof.
  induction l as [|y l IH]; [constructor|]. simpl. constructor.
  - rewrite filter_In. intros [_ Hne]. by rewrite Z.eqb_refl in Hne.
  - by apply List.NoDup_filter.
Qed.

Lemma first_occurrences_snoc l x :
  first_occurrences (l ++ [x])
  = if decide (x ∈ l) then first_occurrences l else first_occurrences l ++ [x].
Proof.
  induction l as [|y l IH].
  - cbn [app first_occurrences List.filter].
    by rewrite decide_False by apply not_elem_of_nil.
  - cbn [app first_occurrences]. rewrite IH.
    destruct (decide (x ∈ l)) as [Hin|Hnin].
    + rewrite decide_True by (by right). done.
    + rewrite List.filter_app. cbn [List.filter].
      destruct (Z.eqb_spec x y) as [->|Hne]; cbn [negb].
      * rewrite decide_True by (by left). by rewrite app_nil_r.
      * rewrite decide_False; [done|]. intros [?|?]%elem_of_cons; congruence.
Qed.

Lemma members_snoc seen it c :
  members (seen ++ [it]) c
  = members seen c ++ (if decide (cluster it = Some c) then [it] else []).
Proof.
  unfold members. rewrite List.filter_app. simpl.
  destruct (decide (cluster it = Some c)) as [Heq|Hne].
  - by rewrite bool_decide_true.
  - by rewrite bool_decide_false.
Qed.

Lemma cluster_ids_In data cid :
  cid ∈ cluster_ids data <-> exists it, In it data /\ cluster it = Some cid.
Proof.
  unfold cluster_ids. rewrite list_elem_of_omap.
  split; intros (it & Hin & Hc); exists it; by rewrite ?list_elem_of_In in *.
Qed.

Lemma members_In data cid it :
  In it (members data cid) <-> In it data /\ cluster it = Some cid.
Proof. unfold members. by rewrite filter_In, bool_decide_eq_true. Qed.

Lemma members_none seen cid : cid ∉ cluster_ids seen -> members seen cid = [].
Proof.
  intros Hnin. destruct (members seen cid) as [|it l] eqn:Hm; [done|].
  exfalso. apply Hnin, cluster_ids_In. exists it.
  apply members_In. rewrite Hm. by left.
Qed.

Lemma dict_append_grouped cid it (g : Z -> list item) keys :
  List.NoDup keys ->
  dict_append cid it (map (fun c => (c, g c)) keys)
  = if decide (cid ∈ keys)
    then map (fun c => (c, g c ++ (if decide (c = cid) then [it] else []))) keys
    else map (fun c => (c, g c)) keys ++ [(cid, [it])].
Proof.
  induction keys as [|k keys IH]; intros Hnd.
  - cbn [map dict_append app]. by rewrite decide_False by apply not_elem_of_nil.
  - apply List.NoDup_cons_iff in Hnd as [Hk Hnd]. cbn [map dict_append].
    destruct (Z.eqb_spec k cid) as [->|Hne].
    + rewrite decide_True by (by left). rewrite decide_True by done.
      f_equal. apply map_ext_in. intros c Hc.
      rewrite decide_False by congruence. by rewrite app_nil_r.
    + rewrite IH by done. destruct (decide (cid ∈ keys)) as [Hin|Hnin].
      * rewrite decide_True by (by right). cbn [map].
        rewrite decide_False by done. by rewrite app_nil_r.
      * rewrite decide_False; [done|]. intros [?|?]%elem_of_cons; congruence.
Qed.

Lemma group_loop_order data : forall seen d',
  group_loop data
    (map (fun c => (c, members seen c)) (first_occurrences (cluster_ids seen)))
  = Ok d' ->
  d' = map (fun c => (c, members (seen ++ data) c))
           (first_occurrences (cluster_ids (seen ++ data))).
Proof.
  induction data as [|it data IH]; intros seen d' Hrun.
  - simpl in Hrun. injection Hrun as <-. by rewrite app_nil_r.
  - simpl in Hrun. destruct (cluster it) as [cid|] eqn:Hc; [|discriminate].
    replace (seen ++ it :: data) with ((seen ++ [it]) ++ data)
      by (by rewrite <- app_assoc).
    apply IH. rewrite <- Hrun. f_equal.
    rewrite dict_append_grouped by apply first_occurrences_NoDup.
    assert (cluster_ids (seen ++ [it]) = cluster_ids seen ++ [cid]) as ->
      by (unfold cluster_ids; rewrite omap_app; simpl; by rewrite Hc).
    rewrite first_occurrences_snoc.
    assert (cid ∈ first_occurrences (cluster_ids seen) <-> cid ∈ cluster_ids seen)
      as Hfo by (rewrite !list_elem_of_In; apply first_occurrences_In).
    destruct (decide (cid ∈ cluster_ids seen)) as [Hin|Hnin].
    + rewrite decide_True by (by apply Hfo).
      apply map_ext. intros c. rewrite members_snoc. f_equal.
      destruct (decide (c = cid)) as [->|Hne].
      * by rewrite decide_True.
      * rewrite decide_False; [done | congruence].
    + rewrite decide_False by (by rewrite Hfo).
      rewrite map_app. f_equal.
      * apply map_ext_in. intros c Hc'. rewrite members_snoc.
        apply (proj1 (first_occurrences_In _ _)) in Hc'.
        apply (proj2 (list_elem_of_In _ _)) in Hc'.
        rewrite decide_False; [by rewrite app_nil_r|].
        intros Heq. rewrite Hc in Heq. injection Heq as Heq. subst. contradiction.
      * simpl. rewrite members_snoc, decide_True by done.
        by rewrite members_none.
Qed.

(** X14. The aggregator keeps the order of the input. The clusters of the
    artifact are the cluster ids of the records in order of first
    occurrence, each once; the items of a cluster are exactly the records
    with that cluster id, in input order, so no cluster is empty; and the
    name of a cluster is the name filed under its id, or "Cluster {id}"
    when there is none. *)
Theorem aggregator_groups_in_order (title description : string)
    (clustered_data : list item) (cluster_names : gmap string string)
    (similarity_threshold : Q) (charsPerPixel : Z) (art : artifact) :
  fst (generate_docexplore_json title description clustered_data cluster_names
         similarity_threshold charsPerPixel) = Ok art ->
  map cl_id (clusters art) = first_occurrences (cluster_ids clustered_data)
  /\ Forall (fun c => cl_items c = members clustered_data (cl_id c)
                      /\ cl_items c <> []
                      /\ cl_name c = name_of cluster_names (cl_id c))
            (clusters art).
Proof.
  unfold generate_docexplore_json.
  destruct (group_loop clustered_data []) as [d|e] eqn:Hrun; [|discriminate].
  simpl. intros [= <-]. simpl.
  apply (group_loop_order clustered_data []) in Hrun. simpl in Hrun. subst d.
  rewrite !map_map. simpl. split; [apply map_id|].
  apply List.Forall_forall. intros c Hc.
  apply in_map_iff in Hc as (cid & <- & Hcid). simpl.
  split; [done|]. split; [|done].
  apply (proj1 (first_occurrences_In _ _)) in Hcid.
  apply (proj2 (list_elem_of_In _ _)) in Hcid.
  apply cluster_ids_In in Hcid as (it & Hit & Hcl).
  intros Hnil. assert (In it (members clustered_data cid)) as Hm
    by (by apply members_In).
  by rewrite Hnil in Hm.
Qed.

Lemma aggregator_groups_in_order_witness :
  map cl_id (clusters sample_artifact) = first_occurrences (cluster_ids sample_clustered)
  /\ Forall (fun c => cl_items c = members sample_clustered (cl_id c)
                      /\ cl_items c <> []
                      /\ cl_name c = name_of ∅ (cl_id c))
            (clusters sample_artifact).
Proof.
  apply (aggregator_groups_in_order "Document Insights"
           "Explore key topics and insights extracted from the document."
           sample_clustered ∅ (8 # 10) 20 sample_artifact).
  reflexivity.
Defined.

Example sample_artifact_order :
  map (fun c => (cl_id c, map id (cl_items c))) (clusters sample_artifact)
  = [(1%Z, [0%Z; 2%Z]); (0%Z, [1%Z])].
Proof. reflexivity. Qed.

Lemma aggregator_groups_in_order_keys title description clustered_data cluster_names
    similarity_threshold charsPerPixel art :
  fst (generate_docexplore_json title description clustered_data cluster_names
         similarity_threshold charsPerPixel) = Ok art ->
  map cl_id (clusters art) = first_occurrences (cluster_ids clustered_data)
  /\ flat_map cl_items (clusters art) ≡ₚ clustered_data.
Proof.
  intros Hgen. apply generate_clusters in Hgen as (d & Hgroup & Hkeys & Hitems).
  split.
  - apply (group_loop_order clustered_data []) in Hgroup as ->.
    rewrite Hkeys, map_map. apply map_id.
  - destruct (group_loop_spec clustered_data [] d Hgroup)
      as (_ & _ & Hperm); [constructor | constructor |].
    by rewrite flat_map_concat_map, Hitems.
Qed.

Lemma dict_set_fresh cid name d :
  cid ∉ map fst d -> dict_set cid name d = d ++ [(cid, name)].
Proof.
  induction d as [|[k v] d IH]; intros Hnin; [done|]. simpl in *.
  destruct (Z.eqb_spec k cid) as [->|Hne]; [exfalso; apply Hnin; by left|].
  rewrite IH; [done|]. intros Hin. apply Hnin. by right.
Qed.

Lemma fold_dict_set cls : forall acc,
  List.NoDup (map fst acc ++ map cl_id cls) ->
  fold_left (fun d c => dict_set (cl_id c) (cl_name c) d) cls acc
  = acc ++ map (fun c => (cl_id c, cl_name c)) cls.
Proof.
  induction cls as [|c cls IH]; intros acc Hnd; simpl.
  - by rewrite app_nil_r.
  - rewrite dict_set_fresh.
    + rewrite IH; [by rewrite <- app_assoc|].
      rewrite map_app. simpl. by rewrite <- app_assoc.
    + apply List.NoDup_remove_2 in Hnd. intros Hin. apply Hnd.
      apply in_or_app. left. by apply list_elem_of_In.
Qed.

(** X15. The analysis page of the presentation layer, given the artifact
    the aggregator made of some records, stops at its error when there
    was no record, and otherwise works on one topic per cluster, in the
    artifact's order with the artifact's names, and on every input record
    exactly once (the records regrouped by cluster). *)
Theorem analysis_page_gets_every_record (title description : string)
    (clustered_data : list item) (cluster_names : gmap string string)
    (similarity_threshold : Q) (charsPerPixel : Z) (art : artifact) :
  fst (generate_docexplore_json title description clustered_data cluster_names
         similarity_threshold charsPerPixel) = Ok art ->
  (clustered_data = [] -> analysis_page art = NoClustersError)
  /\ (clustered_data <> [] ->
      analysis_page art
      = Analysis (map (fun c => (cl_id c, cl_name c)) (clusters art))
                 (flat_map cl_items (clusters art)))
  /\ flat_map cl_items (clusters art) ≡ₚ clustered_data.
Proof.
  intros Hgen.
  destruct (aggregator_groups_in_order_keys _ _ _ _ _ _ _ Hgen) as [Hkeys Hperm].
  split; [|split; [|done]].
  - intros ->. unfold analysis_page.
    destruct (clusters art) as [|c cls]; [done|]. discriminate.
  - intros Hne. unfold analysis_page.
    destruct (clusters art) as [|c cls] eqn:Hcls.
    + simpl in Hperm. apply Permutation_nil in Hperm. congruence.
    + rewrite fold_dict_set; [done|].
      change (List.NoDup (map cl_id (c :: cls))). rewrite Hkeys.
      apply first_occurrences_NoDup.
Qed.

Lemma analysis_page_gets_every_record_witness :
  (sample_clustered = [] -> analysis_page sample_artifact = NoClustersError)
  /\ (sample_clustered <> [] ->
      analysis_page sample_artifact
      = Analysis (map (fun c => (cl_id c, cl_name c)) (clusters sample_artifact))
                 (flat_map cl_items (clusters sample_artifact)))
  /\ flat_map cl_items (clusters sample_artifact) ≡ₚ sample_clustered.
Proof.
  apply (analysis_page_gets_every_record "Document Insights"
           "Explore key topics and insights extracted from the document."
           sample_clustered ∅ (8 # 10) 20 sample_artifact).
  reflexivity.
Defined.

End GroupingFacts.


(** ** When the run ends without an artifact *)

Section RunAborts.
Import Clustering Aggregator.
Variable kmeans : Z -> matrix -> result (list Z).
Variable silhouette : Z -> matrix -> result Q.

Lemma clustering_main_labels data :
  kmeans_contract kmeans ->
  exists labels,
    fst (clustering_main kmeans silhouette data) = fst (save_clustered_data data labels)
    /\ length labels <= length (vectors data)
    /\ (length (vectors data) = 1 -> labels = []).
Proof.
  intros Hkm. unfold clustering_main.
  destruct (vectors data) as [|row [|row' X]] eqn:HX.
  - exists []. unfold perform_clustering. rewrite HX. unfold no_embeddings.
    split; [by destruct (save_clustered_data data []) | simpl; split; [lia | done]].
  - exists []. unfold perform_clustering. rewrite HX.
    change (fst (match kmeans 2 [row] with
                 | Ok clusters =>
                     let '(r, log') := save_clustered_data data clusters in
                     (r, [NotEnoughWarning 1 2; ReducingLine 2; KMeansFit 2 1] ++ log')
                 | Raise (ValueError msg) =>
                     let '(r, log') := save_clustered_data data [] in
                     (r, [NotEnoughWarning 1 2; ReducingLine 2; KMeansFit 2 1]
                         ++ [SkippingWarning (ValueError msg)] ++ log')
                 | Raise e => (Raise e, [NotEnoughWarning 1 2; ReducingLine 2; KMeansFit 2 1])
                 end) = fst (save_clustered_data data [])
            /\ length (@nil Z) <= length [row] /\ (length [row] = 1 -> @nil Z = [])).
    destruct (Hkm 2%Z [row]) as [_ Hbad].
    destruct Hbad as [msg ->]; [simpl; lia|].
    split; [by destruct (save_clustered_data data []) | simpl; split; [lia | done]].
  - destruct (perform_clustering_two kmeans silhouette data None Hkm)
      as (labels & log & k & Hperf & _ & _ & Hlen & _); [rewrite HX; simpl; lia|].
    exists labels. rewrite Hperf, <- HX.
    split; [by destruct (save_clustered_data data labels) | split; [lia|]].
    rewrite HX. simpl. lia.
Qed.

(** X16. A run on freshly embedded records ends without an artifact as
    soon as clustering leaves one record unlabelled. When the records
    carry no cluster yet and either one of them has no embedding or there
    is just one record, clustering followed by assembly raises the
    KeyError of the missing cluster key, under scikit-learn's contract. *)
Theorem run_aborts_without_labels (embeddings_data : list item)
    (cluster_names : gmap string string) :
  kmeans_contract kmeans ->
  Forall (fun it => cluster it = None) embeddings_data ->
  Exists (fun it => has_embedding it = false) embeddings_data
  \/ length embeddings_data = 1 ->
  cluster_then_assemble kmeans silhouette embeddings_data cluster_names
  = Raise (KeyError "cluster").
Proof.
  intros Hkm Hfresh Hshort.
  destruct (clustering_main_labels embeddings_data Hkm) as (labels & Hmain & Hle & Hone).
  pose proof (length_vectors_le embeddings_data) as Hvec.
  assert (length labels < length embeddings_data) as Hlt.
  { destruct Hshort as [Hex|Hlen].
    - apply vectors_short in Hex. lia.
    - destruct (decide (length (vectors embeddings_data) = 1)) as [H1|H1].
      + rewrite (Hone H1). simpl. lia.
      + lia. }
  unfold cluster_then_assemble. rewrite Hmain.
  destruct (label_loop_spec labels 0 embeddings_data)
    as (saved & Hrun & Hlen & _ & _ & Hafter); [simpl; lia|].
  unfold save_clustered_data. rewrite Hrun. simpl.
  unfold aggregator_main, generate_docexplore_json.
  rewrite group_loop_missing; [by destruct saved|].
  destruct (lookup_lt_is_Some_2 embeddings_data (length labels) Hlt) as [it Hit].
  apply Exists_exists. exists it. split.
  - apply list_elem_of_lookup. exists (length labels).
    rewrite Hafter by (simpl; lia). done.
  - by apply (Forall_lookup_1 _ _ _ _ Hfresh Hit).
Qed.

End RunAborts.

Lemma run_aborts_without_labels_witness :
  Aggregator.cluster_then_assemble Clustering.kmeans_round_robin
    Clustering.silhouette_flat Clustering.one_vector ∅
  = Raise (KeyError "cluster").
Proof.
  apply (run_aborts_without_labels Clustering.kmeans_round_robin
           Clustering.silhouette_flat Clustering.one_vector ∅
           kmeans_round_robin_contract).
  - repeat constructor.
  - by right.
Defined.


(** ** What a title is made of *)

Section TitleFacts.
Import PyStr TopicNaming.
Variable MAX_KEYWORDS : nat.
Variable count_vectorizer : list string -> result (list string * list Z).
Variable argsort : list Z -> list nat.

Lemma pick_elements feature_names idx names :
  pick feature_names idx = Ok names ->
  Forall (fun p => p ∈ feature_names) names.
Proof.
  revert names. induction idx as [|i idx IH]; intros names; simpl.
  - intros [= <-]. constructor.
  - destruct (feature_names !! i) as [name|] eqn:Hi; [|discriminate].
    destruct (pick feature_names idx) as [rest|e]; [|discriminate].
    intros [= <-]. constructor; [|by apply IH].
    apply list_elem_of_lookup. by exists i.
Qed.

Lemma firstn_min_length {A} (n : nat) (l : list A) :
  firstn (Nat.min n (length l)) l = firstn n l.
Proof.
  destruct (Nat.le_ge_cases n (length l)) as [H|H].
  - by rewrite Nat.min_l.
  - rewrite Nat.min_r by done. by rewrite !firstn_all2 by lia.
Qed.

Lemma In_firstn {A} (n : nat) (l : list A) (x : A) :
  In x (firstn n l) -> In x l.
Proof.
  revert l. induction n as [|n IH]; intros [|y l]; simpl; try done.
  intros [->|H]; [by left | right; by apply IH].
Qed.

Lemma capitalize_nonempty p : p <> "" -> is_empty (capitalize p) = false.
Proof. by destruct p. Qed.

(** X17. A title is made of the document's own phrases. Once the
    vectorizer has given its features and the most frequent ones are
    picked, [name_cluster] raises nothing and prints nothing. Its label
    is made of at most MAX_KEYWORDS picked phrases, each a feature name
    that is not empty: the most frequent phrases of several words, then
    single words for the places left. The first one is followed by " & "
    and the others separated by blanks, each capitalised; the label is
    "Topic {id}" only when no picked phrase has a word, and the fallback
    "Cluster {id}" is not reached. *)
Theorem title_from_document_phrases (text_samples : list string) (cluster_id : Z)
    (feature_names : list string) (phrase_counts : list Z) (top_phrases : list string) :
  text_samples <> [] ->
  count_vectorizer text_samples = Ok (feature_names, phrase_counts) ->
  pick feature_names (firstn (MAX_KEYWORDS * 2) (rev (argsort phrase_counts)))
  = Ok top_phrases ->
  let multi :=
    firstn MAX_KEYWORDS (List.filter (fun p => 1 <? length (words p)) top_phrases) in
  let single :=
    firstn (MAX_KEYWORDS - length multi)
           (List.filter (fun p => length (words p) =? 1) top_phrases) in
  name_cluster MAX_KEYWORDS count_vectorizer argsort text_samples cluster_id
  = (match map capitalize (multi ++ single) with
     | [] => topic_label cluster_id
     | [first] => first
     | first :: others => first +:+ " & " +:+ String.concat " " others
     end, [])
  /\ length (multi ++ single) <= MAX_KEYWORDS
  /\ Forall (fun p => p ∈ feature_names /\ p <> "") (multi ++ single).
Proof.
  intros Hne Hvec Hpick multi single.
  assert (length (multi ++ single) <= MAX_KEYWORDS) as Hlen.
  { subst multi single. rewrite length_app, !length_firstn. lia. }
  assert (Forall (fun p => p ∈ feature_names /\ p <> "") (multi ++ single)) as Hall.
  { pose proof (pick_elements _ _ _ Hpick) as Hin.
    rewrite List.Forall_forall in Hin. apply List.Forall_forall. intros p Hp.
    apply in_app_or in Hp.
    assert (In p top_phrases /\ 0 < length (words p)) as [Htop Hw].
    { destruct Hp as [Hp|Hp]; apply In_firstn, filter_In in Hp as [Hp Hc]; split; try done.
      - apply Nat.ltb_lt in Hc. lia.
      - apply Nat.eqb_eq in Hc. lia. }
    split; [by apply Hin|]. intros ->. simpl in Hw. lia. }
  split; [|done].
  unfold name_cluster, name_cluster_body.
  destruct text_samples as [|t ts]; [done|]. simpl length.
  change (S (length ts) =? 0) with false. cbv iota. rewrite Hvec, Hpick.
  set (mw := List.filter (fun p => 1 <? length (words p)) top_phrases) in *.
  set (sw := List.filter (fun p => length (words p) =? 1) top_phrases) in *.
  assert (match mw with
          | [] => []
          | _ => firstn (Nat.min MAX_KEYWORDS (length mw)) mw
          end = multi) as ->.
  { subst multi. destruct mw; [by rewrite firstn_nil | apply firstn_min_length]. }
  assert ((if length multi <? MAX_KEYWORDS
           then multi ++ firstn (MAX_KEYWORDS - length multi) sw
           else multi) = multi ++ single) as ->.
  { destruct (length multi <? MAX_KEYWORDS) eqn:Hlt; [done|].
    apply Nat.ltb_ge in Hlt. subst single.
    replace (MAX_KEYWORDS - length multi) with 0 by lia. simpl. by rewrite app_nil_r. }
  rewrite (firstn_all2 (multi ++ single)) by done.
  destruct (multi ++ single) as [|p ps] eqn:Hsel; [done|].
  apply Forall_cons in Hall as [[_ Hp] _].
  simpl map. destruct ps as [|q qs]; simpl.
  - by rewrite capitalize_nonempty.
  - destruct p as [|c p]; [done|]. reflexivity.
Qed.
End TitleFacts.

Lemma title_from_document_phrases_witness :
  TopicNaming.name_cluster 2 TopicNaming.toy_vectorizer TopicNaming.stable_argsort
    ["solar power"; "solar power grid"; "the grid"] 7
  = ("Solar power & Grid", []).
Proof.
  apply (title_from_document_phrases 2 TopicNaming.toy_vectorizer
           TopicNaming.stable_argsort
           ["solar power"; "solar power grid"; "the grid"] 7
           ["solar"; "power"; "solar power"; "grid"; "power grid"; "solar power grid"]
           [2; 2; 2; 2; 1; 1]%Z
           ["grid"; "solar power"; "power"; "solar"]).
  - discriminate.
  - reflexivity.
  - reflexivity.
Defined.


(** ** Names from the topic namer to the artifact *)

Section NamingFacts.
Import PyStr Reference Aggregator Naming.
Variable MAX_KEYWORDS : nat.
Variable count_vectorizer : list string -> result (list string * list Z).
Variable argsort : list Z -> list nat.

Lemma str_of_Z_inj a b : str_of_Z a = str_of_Z b -> a = b.
Proof.
  unfold str_of_Z. intros H. apply to_int_inj.
  apply (f_equal NilEmpty.int_of_string) in H.
  rewrite !NilEmpty.isi in H. congruence.
Qed.

Lemma str_of_Z_not_None a : str_of_Z a <> "None".
Proof.
  unfold str_of_Z. intros H.
  apply (f_equal NilEmpty.int_of_string) in H.
  rewrite NilEmpty.isi in H. vm_compute in H. discriminate.
Qed.

Lemma key_str_inj k k' : key_str k = key_str k' -> k = k'.
Proof.
  destruct k as [a|], k' as [b|]; simpl; intros H.
  - f_equal. by apply str_of_Z_inj.
  - by apply str_of_Z_not_None in H.
  - symmetry in H. by apply str_of_Z_not_None in H.
  - done.
Qed.

(** The generalised namer is the namer, on an integer id. *)
Lemma name_cluster_int texts cid :
  fst (Naming.name_cluster MAX_KEYWORDS count_vectorizer argsort texts (str_of_Z cid))
  = fst (TopicNaming.name_cluster MAX_KEYWORDS count_vectorizer argsort texts cid).
Proof.
  unfold Naming.name_cluster, TopicNaming.name_cluster.
  change (Naming.name_cluster_body MAX_KEYWORDS count_vectorizer argsort texts
            (str_of_Z cid))
    with (TopicNaming.name_cluster_body MAX_KEYWORDS count_vectorizer argsort texts cid).
  by destruct (TopicNaming.name_cluster_body _ _ _ _ _).
Qed.

Lemma text_dict_keys k t d :
  map fst (Naming.dict_append k t d)
  = if decide (k ∈ map fst d) then map fst d else map fst d ++ [k].
Proof.
  induction d as [|[k' ts] d IH].
  - destruct (decide (k ∈ map fst [])) as [Hin|_]; [|done].
    by apply not_elem_of_nil in Hin.
  - cbn [Naming.dict_append map fst].
    destruct (decide (k' = k)) as [->|Hne]; cbn [map fst].
    + destruct (decide (k ∈ k :: map fst d)) as [_|Hout]; [done|].
      exfalso. apply Hout. by left.
    + rewrite IH. destruct (decide (k ∈ map fst d)) as [Hin|Hout].
      * destruct (decide (k ∈ k' :: map fst d)) as [_|Hout]; [done|].
        exfalso. apply Hout. by right.
      * destruct (decide (k ∈ k' :: map fst d)) as [Hin|_]; [|done].
        apply elem_of_cons in Hin as [Heq|Hin]; [by subst | done].
Qed.

Lemma text_dict_In k t d k' ts :
  NoDup (map fst d) ->
  In (k', ts) (Naming.dict_append k t d)
  <-> (k' <> k /\ In (k', ts) d)
      \/ (k' = k /\ ((exists ts0, In (k, ts0) d /\ ts = ts0 ++ [t])
                     \/ ((k ∉ map fst d) /\ ts = [t]))).
Proof.
  induction d as [|[k0 ts0] d IH]; simpl; intros Hnd.
  - split.
    + intros [[= <- <-]|[]]. right. split; [done|]. right.
      split; [apply not_elem_of_nil | done].
    + intros [[_ []]|[-> [(ts1 & [] & _)|[_ ->]]]]. by left.
  - apply NoDup_cons in Hnd as [Hk0 Hnd]. specialize (IH Hnd).
    destruct (decide (k0 = k)) as [->|Hne]; simpl.
    + split.
      * intros [[= <- <-]|Hin].
        -- right. split; [done|]. left. exists ts0. split; [by left | done].
        -- left. split; [|by right]. intros ->. apply Hk0.
           apply list_elem_of_In. apply in_map_iff. by exists (k, ts).
      * intros [[Hne [[= -> ->]|Hin]]|[-> [(ts1 & [[= ->]|Hin] & ->)|[Hout ->]]]].
        -- done.
        -- by right.
        -- by left.
        -- exfalso. apply Hk0. apply list_elem_of_In. apply in_map_iff.
           by exists (k, ts1).
        -- exfalso. apply Hout. by left.
    + rewrite IH. split.
      * intros [[= <- <-]|[[Hne' Hin]|[-> Hcase]]].
        -- left. split; [done | by left].
        -- left. split; [done | by right].
        -- right. split; [done|].
           destruct Hcase as [(ts1 & Hin & ->)|[Hout ->]].
           ++ left. exists ts1. split; [by right | done].
           ++ right. split; [|done].
              intros [Heq|Hin]%elem_of_cons; [by subst | done].
      * intros [[Hne' [[= <- <-]|Hin]]|[-> Hcase]].
        -- by left.
        -- right. left. done.
        -- right. right. split; [done|].
           destruct Hcase as [(ts1 & [[= -> ->]|Hin] & ->)|[Hout ->]].
           ++ done.
           ++ left. by exists ts1.
           ++ right. split; [|done]. intros Hin. apply Hout. by right.
Qed.

Lemma group_texts_spec data :
  NoDup (map fst (group_texts data))
  /\ forall k ts, In (k, ts) (group_texts data)
                  <-> (k ∈ map cluster data /\ ts = texts_of data k).
Proof.
  unfold group_texts. induction data as [|it data IH] using rev_ind.
  - simpl. split; [constructor|]. intros k ts. split; [done|].
    intros [Hin _]. by apply not_elem_of_nil in Hin.
  - rewrite fold_left_app. simpl. destruct IH as [Hnd IH].
    set (d := fold_left _ data []) in *.
    split.
    + rewrite text_dict_keys. destruct (decide _) as [Hin|Hout]; [done|].
      apply NoDup_app. split; [done|]. split; [|apply NoDup_singleton].
      intros k Hk ->%list_elem_of_singleton. done.
    + intros k ts. rewrite text_dict_In by done.
      unfold texts_of. rewrite map_app, List.filter_app, map_app. simpl.
      rewrite elem_of_app, list_elem_of_singleton.
      assert (forall k0, k0 ∈ map fst d <-> k0 ∈ map cluster data) as Hkeys.
      { intros k0. split.
        - intros Hin. apply list_elem_of_In, in_map_iff in Hin as ([k1 ts1] & <- & Hin).
          by apply IH in Hin as [Hin _].
        - intros Hin. apply list_elem_of_In, in_map_iff.
          exists (k0, texts_of data k0). split; [done|]. by apply IH. }
      split.
      * intros [[Hne Hin]|[-> Hcase]].
        -- apply IH in Hin as [Hin ->]. split; [by left|].
           rewrite bool_decide_eq_false_2 by done. simpl. by rewrite app_nil_r.
        -- split; [by right|]. rewrite bool_decide_eq_true_2 by done. simpl.
           destruct Hcase as [(ts0 & Hin & ->)|[Hout ->]].
           ++ apply IH in Hin as [_ ->]. done.
           ++ assert (List.filter (fun it0 => bool_decide (cluster it0 = cluster it)) data
                      = []) as ->; [|done].
              destruct (List.filter _ data) as [|x l] eqn:Hf; [done|].
              exfalso. apply Hout, Hkeys.
              assert (In x (List.filter
                              (fun it0 => bool_decide (cluster it0 = cluster it)) data))
                as Hx by (rewrite Hf; by left).
              apply filter_In in Hx as [Hx Hc]. apply bool_decide_eq_true in Hc.
              rewrite <- Hc. apply list_elem_of_In, in_map. done.
      * intros [Hin ->]. destruct (decide (k = cluster it)) as [->|Hne].
        -- right. split; [done|]. rewrite bool_decide_eq_true_2 by done. simpl.
           destruct (decide (cluster it ∈ map cluster data)) as [Hold|Hnew].
           ++ left. exists (texts_of data (cluster it)). split; [|done].
              by apply IH.
           ++ right. split; [by rewrite Hkeys|].
              assert (List.filter (fun it0 => bool_decide (cluster it0 = cluster it)) data
                      = []) as ->; [|done].
              destruct (List.filter _ data) as [|x l] eqn:Hf; [done|].
              exfalso. apply Hnew.
              assert (In x (List.filter
                              (fun it0 => bool_decide (cluster it0 = cluster it)) data))
                as Hx by (rewrite Hf; by left).
              apply filter_In in Hx as [Hx Hc]. apply bool_decide_eq_true in Hc.
              rewrite <- Hc. apply list_elem_of_In, in_map. done.
        -- left. split; [done|]. rewrite bool_decide_eq_false_2 by done.
           simpl. rewrite app_nil_r. apply IH. split; [|done].
           destruct Hin as [Hin|Hin]; [done | by symmetry in Hin].
Qed.

Lemma name_loop_other d : forall names log k,
  k ∉ map fst d ->
  fst (name_loop MAX_KEYWORDS count_vectorizer argsort d names log) !! key_str k
  = names !! key_str k.
Proof.
  unfold name_loop.
  induction d as [|[k0 ts0] d IH]; intros names log k Hout; simpl; [done|].
  apply not_elem_of_cons in Hout as [Hne Hout].
  destruct (Naming.name_cluster _ _ _ ts0 (key_str k0)) as [nm pr].
  rewrite IH by done. apply lookup_insert_ne.
  intros Heq. by apply key_str_inj in Heq.
Qed.

Lemma name_loop_named d : forall names log k ts,
  NoDup (map fst d) -> In (k, ts) d ->
  fst (name_loop MAX_KEYWORDS count_vectorizer argsort d names log) !! key_str k
  = Some (fst (Naming.name_cluster MAX_KEYWORDS count_vectorizer argsort ts (key_str k))).
Proof.
  induction d as [|[k0 ts0] d IH]; intros names log k ts Hnd Hin; [done|].
  apply NoDup_cons in Hnd as [Hk0 Hnd].
  unfold name_loop in *. simpl.
  destruct (Naming.name_cluster _ _ _ ts0 (key_str k0)) as [nm pr] eqn:Hnm.
  destruct Hin as [[= -> ->]|Hin].
  - pose proof (name_loop_other d (<[key_str k:=nm]> names) (log ++ pr) k Hk0) as Ho.
    unfold name_loop in Ho. rewrite Ho, lookup_insert_eq. by rewrite Hnm.
  - by apply IH.
Qed.

Lemma name_loop_dom d : forall names log x,
  x ∈ dom (fst (name_loop MAX_KEYWORDS count_vectorizer argsort d names log))
  <-> x ∈ dom names \/ In x (map (fun kv => key_str (fst kv)) d).
Proof.
  unfold name_loop.
  induction d as [|[k0 ts0] d IH]; intros names log x; simpl.
  - tauto.
  - destruct (Naming.name_cluster _ _ _ ts0 (key_str k0)) as [nm pr].
    rewrite IH, dom_insert, elem_of_union, elem_of_singleton.
    split; [intros [[->|H]|H] | intros [H|[->|H]]]; tauto.
Qed.

Lemma assign_cluster_names_loop data :
  fst (assign_cluster_names MAX_KEYWORDS count_vectorizer argsort data)
  = fst (name_loop MAX_KEYWORDS count_vectorizer argsort (group_texts data) ∅ []).
Proof.
  unfold assign_cluster_names. by destruct (name_loop _ _ _ _ _ _).
Qed.

Lemma group_loop_keyed data d d' :
  group_loop data d = Ok d' -> Forall (fun it => is_Some (cluster it)) data.
Proof.
  revert d. induction data as [|it data IH]; intros d; simpl; [constructor|].
  destruct (cluster it) as [cid|] eqn:Hc; [|discriminate].
  intros H. constructor; [by rewrite Hc | by eapply IH].
Qed.

Lemma cluster_ids_keys data cid :
  In cid (first_occurrences (cluster_ids data)) <-> Some cid ∈ map cluster data.
Proof.
  rewrite first_occurrences_In. split.
  - intros Hin. apply (proj2 (list_elem_of_In _ _)) in Hin.
    apply cluster_ids_In in Hin as (it & Hit & Hc).
    apply list_elem_of_In, in_map_iff. by exists it.
  - intros Hin. apply list_elem_of_In, in_map_iff in Hin as (it & Hc & Hit).
    apply list_elem_of_In, cluster_ids_In. by exists it.
Qed.

Lemma assigned_name data cid :
  In cid (first_occurrences (cluster_ids data)) ->
  fst (assign_cluster_names MAX_KEYWORDS count_vectorizer argsort data) !! str_of_Z cid
  = Some (fst (TopicNaming.name_cluster MAX_KEYWORDS count_vectorizer argsort
                 (map text (members data cid)) cid)).
Proof.
  intros Hcid. apply cluster_ids_keys in Hcid.
  destruct (group_texts_spec data) as [Hnd Hgroups].
  assert (In (Some cid, texts_of data (Some cid)) (group_texts data)) as Hin
    by (by apply Hgroups).
  pose proof (name_loop_named _ ∅ [] _ _ Hnd Hin) as Hname.
  rewrite <- assign_cluster_names_loop in Hname. simpl in Hname.
  by rewrite name_cluster_int in Hname.
Qed.

(** X18. Every cluster of the artifact carries its own name. When the
    topic namer and then the aggregator run on the same clustered
    records, the name of each cluster of the artifact is what
    [name_cluster] makes of the texts of that cluster's items, in input
    order, under that cluster's id: the aggregator's default name is
    never used. The names file has one entry for each cluster of the
    artifact and no other. *)
Theorem every_cluster_gets_its_name (title description : string) (data : list item)
    (similarity_threshold : Q) (charsPerPixel : Z) (art : artifact) :
  name_then_assemble MAX_KEYWORDS count_vectorizer argsort title description data
    similarity_threshold charsPerPixel = Ok art ->
  Forall (fun c =>
            cl_name c
            = fst (TopicNaming.name_cluster MAX_KEYWORDS count_vectorizer argsort
                     (map text (cl_items c)) (cl_id c))
            /\ fst (assign_cluster_names MAX_KEYWORDS count_vectorizer argsort data)
               !! str_of_Z (cl_id c) = Some (cl_name c))
         (clusters art)
  /\ dom (fst (assign_cluster_names MAX_KEYWORDS count_vectorizer argsort data))
     ≡@{gset string} list_to_set (map (fun c => str_of_Z (cl_id c)) (clusters art)).
Proof.
  unfold name_then_assemble, generate_docexplore_json.
  destruct (group_loop data []) as [d|e] eqn:Hrun; [|discriminate].
  simpl. intros [= <-]. simpl.
  pose proof (group_loop_keyed _ _ _ Hrun) as Hkeyed.
  apply (group_loop_order data []) in Hrun. simpl in Hrun. subst d.
  rewrite !map_map. simpl.
  destruct (group_texts_spec data) as [Hnd Hgroups].
  split.
  - apply List.Forall_forall. intros c Hc.
    apply in_map_iff in Hc as (cid & <- & Hcid). simpl.
    unfold name_of. by rewrite (assigned_name data cid Hcid).
  - intros x. rewrite assign_cluster_names_loop, name_loop_dom, dom_empty.
    rewrite elem_of_list_to_set, list_elem_of_In, !in_map_iff.
    split.
    + intros [Hin|([k ts] & <- & Hin)]; [by apply elem_of_empty in Hin|]. simpl.
      apply Hgroups in Hin as [Hin _].
      apply list_elem_of_In, in_map_iff in Hin as (it & Hk & Hit).
      rewrite List.Forall_forall in Hkeyed. destruct (Hkeyed it Hit) as [cid Hcid].
      exists cid. rewrite <- Hk, Hcid. split; [done|].
      apply cluster_ids_keys. apply list_elem_of_In, in_map_iff. by exists it.
    + intros (cid & <- & Hcid). apply cluster_ids_keys in Hcid. right.
      exists (Some cid, texts_of data (Some cid)). split; [done|]. by apply Hgroups.
Qed.

End NamingFacts.

Lemma every_cluster_gets_its_name_witness :
  Forall (fun c =>
            Aggregator.cl_name c
            = fst (TopicNaming.name_cluster 3 TopicNaming.toy_vectorizer
                     TopicNaming.stable_argsort
                     (map text (Aggregator.cl_items c)) (Aggregator.cl_id c))
            /\ fst (Naming.assign_cluster_names 3 TopicNaming.toy_vectorizer
                      TopicNaming.stable_argsort sample_clustered)
               !! str_of_Z (Aggregator.cl_id c) = Some (Aggregator.cl_name c))
         (Aggregator.clusters sample_named_artifact)
  /\ dom (fst (Naming.assign_cluster_names 3 TopicNaming.toy_vectorizer
                 TopicNaming.stable_argsort sample_clustered))
     ≡@{gset string}
     list_to_set (map (fun c => str_of_Z (Aggregator.cl_id c))
                      (Aggregator.clusters sample_named_artifact)).
Proof.
  apply (every_cluster_gets_its_name 3 TopicNaming.toy_vectorizer
           TopicNaming.stable_argsort "Document Insights" "" sample_clustered
           (8 # 10) 20 sample_named_artifact).
  reflexivity.
Defined.

Example sample_named_artifact_names :
  map (fun c => (Aggregator.cl_id c, Aggregator.cl_name c))
      (Aggregator.clusters sample_named_artifact)
  = [(1%Z, "Gamma & Alpha"); (0%Z, "Beta")].
Proof. reflexivity. Qed.


(** ** The table of topics and their mentions *)

Section MentionFacts.
Import Reference Aggregator Insights.

Lemma counter_fold (l : list Z) : forall (counts : gmap Z nat) (x : Z),
  default 0 (fold_left (fun counts x => <[x := S (default 0 (counts !! x))]> counts)
               l counts !! x)
  = default 0 (counts !! x) + length (List.filter (fun y => bool_decide (y = x)) l).
Proof.
  induction l as [|y l IH]; intros counts x; simpl; [lia|].
  rewrite IH. destruct (decide (y = x)) as [->|Hne].
  - rewrite lookup_insert_eq, bool_decide_eq_true_2 by done. simpl. lia.
  - rewrite lookup_insert_ne, bool_decide_eq_false_2 by done. done.
Qed.

Lemma counter_members data cid :
  default 0 (counter (Insights.cluster_ids data) !! cid) = length (members data cid).
Proof.
  unfold counter. rewrite counter_fold, lookup_empty. simpl.
  unfold Insights.cluster_ids, members.
  induction data as [|it data IH]; [done|]. cbn [omap list_omap List.filter].
  destruct (cluster it) as [c|] eqn:Hc; cbn [List.filter].
  - destruct (decide (c = cid)) as [->|Hne].
    + rewrite !bool_decide_eq_true_2 by done. simpl length. f_equal. exact IH.
    + rewrite !bool_decide_eq_false_2 by congruence. exact IH.
  - rewrite bool_decide_eq_false_2 by done. exact IH.
Qed.

Lemma members_perm l1 l2 cid :
  l1 ≡ₚ l2 -> length (members l1 cid) = length (members l2 cid).
Proof.
  unfold members. induction 1 as [|x l l' _ IH|x y l|l l' l'' _ IH1 _ IH2]; simpl.
  - done.
  - destruct (bool_decide _); simpl; by rewrite IH.
  - by destruct (bool_decide _), (bool_decide _).
  - by rewrite IH1.
Qed.

Lemma fold_dict_set_nonempty cls : forall acc,
  cls <> [] \/ acc <> [] ->
  fold_left (fun d c => dict_set (cl_id c) (cl_name c) d) cls acc <> [].
Proof.
  induction cls as [|c cls IH]; intros acc H; simpl.
  - by destruct H.
  - apply IH. right. destruct acc as [|[k v] acc]; [done|]. simpl.
    by destruct (k =? cl_id c)%Z.
Qed.

(** X19. The mentions of the topics count every record once. On the
    artifact the aggregator made of at least one record, the page
    builds one row per cluster, in the artifact's order, with the
    cluster's name and id; the mentions of a row are the number of items
    of its cluster, at least 1, and the mentions of all the rows add up
    to the number of records. *)
Theorem mentions_count_the_records (title description : string)
    (clustered_data : list item) (cluster_names : gmap string string)
    (similarity_threshold : Q) (charsPerPixel : Z) (art : artifact) :
  fst (generate_docexplore_json title description clustered_data cluster_names
         similarity_threshold charsPerPixel) = Ok art ->
  clustered_data <> [] ->
  exists rows,
    topics_table art = Rows rows
    /\ rows = map (fun c => {| TopicName := cl_name c;
                               Mentions := length (cl_items c);
                               ClusterID := cl_id c |}) (clusters art)
    /\ Forall (fun r => 1 <= Mentions r) rows
    /\ list_sum (map Mentions rows) = length clustered_data.
Proof.
  intros Hgen Hne.
  destruct (aggregator_groups_in_order_keys _ _ _ _ _ _ _ Hgen) as [Hkeys Hperm].
  assert (Forall (fun c => cl_items c = members clustered_data (cl_id c)
                           /\ cl_items c <> []) (clusters art)) as Hitems.
  { revert Hgen. unfold generate_docexplore_json.
    destruct (group_loop clustered_data []) as [d|e] eqn:Hrun; [|discriminate].
    simpl. intros [= <-]. simpl.
    apply (group_loop_order clustered_data []) in Hrun. simpl in Hrun. subst d.
    rewrite map_map. apply List.Forall_forall. intros c Hc.
    apply in_map_iff in Hc as (cid & <- & Hcid). simpl. split; [done|].
    apply (proj1 (first_occurrences_In _ _)) in Hcid.
    apply (proj2 (list_elem_of_In _ _)) in Hcid.
    apply cluster_ids_In in Hcid as (it & Hit & Hcl).
    intros Hnil. assert (In it (members clustered_data cid)) as Hm
      by (by apply members_In).
    by rewrite Hnil in Hm. }
  assert (analysis_page art
          = Analysis (map (fun c => (cl_id c, cl_name c)) (clusters art))
                     (flat_map cl_items (clusters art))
          /\ clusters art <> []) as [Hpage Hcls].
  { unfold analysis_page. destruct (clusters art) as [|c cls] eqn:Hcls.
    - simpl in Hperm. apply Permutation_nil in Hperm. congruence.
    - split; [|done]. rewrite fold_dict_set; [done|].
      change (List.NoDup (map cl_id (c :: cls))). rewrite Hkeys.
      apply first_occurrences_NoDup. }
  set (rows := map (fun c => {| TopicName := cl_name c; Mentions := length (cl_items c);
                                ClusterID := cl_id c |}) (clusters art)).
  assert (data_rows (map (fun c => (cl_id c, cl_name c)) (clusters art))
                    (flat_map cl_items (clusters art)) = rows) as Hrows.
  { unfold data_rows, rows. rewrite map_map.
    apply map_ext_in. intros c Hc. f_equal.
    rewrite counter_members, (members_perm _ _ _ Hperm).
    rewrite List.Forall_forall in Hitems. by destruct (Hitems c Hc) as [-> _]. }
  exists rows. split; [|split; [reflexivity|split]].
  - unfold topics_table. rewrite Hpage, Hrows. unfold rows.
    destruct (clusters art); [done | reflexivity].
  - unfold rows. apply List.Forall_forall. intros r Hr.
    apply in_map_iff in Hr as (c & <- & Hc). simpl.
    rewrite List.Forall_forall in Hitems. destruct (Hitems c Hc) as [_ Hn].
    destruct (cl_items c); [done | simpl; lia].
  - rewrite <- (Permutation_length Hperm). unfold rows. rewrite map_map. simpl.
    clear. induction (clusters art) as [|c cls IH]; [done|]. simpl.
    rewrite length_app. by rewrite IH.
Qed.

(** X20. The page's second error, "No topics extracted", is never
    shown: whatever artifact is loaded, the page stops at "No clusters
    found" exactly when the artifact has no cluster, and has at least
    one row otherwise. *)
Theorem no_topics_error_is_unreachable (a : artifact) :
  topics_table a <> NoTopics
  /\ (topics_table a = NoClusters <-> clusters a = []).
Proof.
  unfold topics_table, analysis_page.
  destruct (clusters a) as [|c cls] eqn:Hcls; [done|].
  assert (c :: cls <> [] \/ @nil (Z * string) <> []) as Hsome by (by left).
  pose proof (fold_dict_set_nonempty (c :: cls) [] Hsome) as Hne.
  unfold data_rows.
  destruct (fold_left _ (c :: cls) []) as [|[k v] d]; [done|]. simpl.
  split; [done|]. split; discriminate.
Qed.

End MentionFacts.

Lemma mentions_count_the_records_witness :
  exists rows,
    Insights.topics_table sample_artifact = Insights.Rows rows
    /\ rows = map (fun c => {| Insights.TopicName := Aggregator.cl_name c;
                               Insights.Mentions := length (Aggregator.cl_items c);
                               Insights.ClusterID := Aggregator.cl_id c |})
                  (Aggregator.clusters sample_artifact)
    /\ Forall (fun r => 1 <= Insights.Mentions r) rows
    /\ list_sum (map Insights.Mentions rows) = length sample_clustered.
Proof.
  apply (mentions_count_the_records "Document Insights"
           "Explore key topics and insights extracted from the document."
           sample_clustered ∅ (8 # 10) 20 sample_artifact).
  - reflexivity.
  - discriminate.
Defined.

Example sample_mentions :
  Insights.topics_table sample_artifact
  = Insights.Rows
      [ {| Insights.TopicName := "Cluster 1"; Insights.Mentions := 2;
           Insights.ClusterID := 1 |};
        {| Insights.TopicName := "Cluster 0"; Insights.Mentions := 1;
           Insights.ClusterID := 0 |} ].
Proof. reflexivity. Qed.


(** ** Keywords *)

Section KeywordFacts.
Import PyStr Keywords.





























End KeywordFacts.


(** ** Keywords per topic *)

Section TopicKeywordFacts.
Import PyStr Reference Keywords TopicKeywords.

Lemma topic_texts_grouped topics_dict data : forall acc,
  fold_left (add_text topics_dict) data acc
  = fold_left (fun clusters it => Naming.dict_append (cluster it) (text it) clusters)
      (map lowered (List.filter (kept topics_dict) data)) acc.
Proof.
  induction data as [|it data IH]; intros acc; [done|].
  simpl. rewrite IH. unfold add_text, kept.
  destruct (cluster it) as [cid|] eqn:Hc; [|done].
  destruct (Overlap.in_dict cid topics_dict); [|done].
  simpl. by rewrite Hc.
Qed.

Lemma dict_get_in_dict cid topics_dict name :
  dict_get (Some cid) topics_dict = Ok name -> Overlap.in_dict cid topics_dict = true.
Proof.
  unfold dict_get, Overlap.in_dict.
  induction topics_dict as [|[k v] d IH]; simpl; [done|].
  destruct (k =? cid)%Z; [done|]. exact IH.
Qed.

Lemma in_dict_dict_get cid topics_dict :
  Overlap.in_dict cid topics_dict = true -> exists name, dict_get (Some cid) topics_dict = Ok name.
Proof.
  unfold dict_get, Overlap.in_dict.
  induction topics_dict as [|[k v] d IH]; simpl; [done|].
  destruct (k =? cid)%Z; [by eexists|]. exact IH.
Qed.

Lemma keyword_loop_spec topics_dict top_n d : forall acc,
  Forall (fun kv => exists name, dict_get (fst kv) topics_dict = Ok name) d ->
  NoDup (map fst d) ->
  exists kw,
    keyword_loop d topics_dict top_n acc = Ok kw
    /\ forall k name,
         dict_get k topics_dict = Ok name ->
         (forall k', dict_get k' topics_dict = Ok name -> k' = k) ->
         (forall ts, In (k, ts) d -> kw !! name = Some (top_keywords ts top_n))
         /\ (k ∉ map fst d -> kw !! name = acc !! name).
Proof.
  induction d as [|[k0 ts0] d IH]; intros acc Hall Hnd.
  - exists acc. split; [done|]. intros k name _ _. split; [by intros ts []|done].
  - apply Forall_cons in Hall as [[name0 Hname0] Hall].
    apply NoDup_cons in Hnd as [Hk0 Hnd]. simpl in Hname0.
    destruct (IH (<[name0 := top_keywords ts0 top_n]> acc) Hall Hnd) as (kw & Hrun & Hkw).
    exists kw. simpl. rewrite Hname0. split; [done|].
    intros k name Hname Huniq. destruct (Hkw k name Hname Huniq) as [Hin Hout].
    split.
    + intros ts [[= -> ->]|Hts]; [|by apply Hin].
      rewrite (Hout Hk0). assert (name0 = name) as -> by congruence.
      apply lookup_insert_eq.
    + intros Hnot. apply not_elem_of_cons in Hnot as [Hne Hnot].
      rewrite (Hout Hnot). apply lookup_insert_ne.
      intros ->. apply Hne. symmetry. by apply Huniq.
Qed.

Lemma members_kept topics_dict data cid :
  Overlap.in_dict cid topics_dict = true ->
  Naming.texts_of (map lowered (List.filter (kept topics_dict) data)) (Some cid)
  = lowered_texts data cid.
Proof.
  intros Hin. unfold Naming.texts_of, lowered_texts, members.
  induction data as [|it data IH]; [done|]. simpl.
  unfold kept at 1. destruct (cluster it) as [c|] eqn:Hc.
  - destruct (decide (c = cid)) as [->|Hne].
    + rewrite Hin. simpl. rewrite Hc, !bool_decide_eq_true_2 by done. simpl.
      f_equal. exact IH.
    + rewrite (bool_decide_eq_false_2 (Some c = Some cid)) by congruence.
      destruct (Overlap.in_dict c topics_dict); [|exact IH].
      simpl. rewrite Hc, bool_decide_eq_false_2 by congruence. exact IH.
  - rewrite bool_decide_eq_false_2 by done. exact IH.
Qed.

Lemma kept_keys topics_dict data k :
  k ∈ map cluster (map lowered (List.filter (kept topics_dict) data))
  <-> exists cid, k = Some cid /\ Overlap.in_dict cid topics_dict = true
                  /\ members data cid <> [].
Proof.
  rewrite list_elem_of_In, map_map, in_map_iff. split.
  - intros (it & <- & [Hit Hk]%filter_In). simpl. unfold kept in Hk.
    destruct (cluster it) as [cid|] eqn:Hc; [|done].
    exists cid. split; [done|]. split; [done|].
    intros Hnil. assert (In it (members data cid)) as Hm.
    { apply filter_In. split; [done|]. by apply bool_decide_eq_true. }
    by rewrite Hnil in Hm.
  - intros (cid & -> & Hin & Hne).
    destruct (members data cid) as [|it l] eqn:Hm; [done|].
    assert (In it (members data cid)) as Hit by (rewrite Hm; by left).
    apply filter_In in Hit as [Hit Hc]. apply bool_decide_eq_true in Hc.
    exists it. split; [done|]. apply filter_In. split; [done|].
    unfold kept. by rewrite Hc.
Qed.

(** X22. Every topic gets the keywords of its own records.
    [extract_keywords_per_topic] never raises: the lookup of a topic's
    name cannot fail. A topic whose name no other topic bears has an
    entry under that name exactly when a record belongs to it, and the
    entry holds the [top_n] most frequent words of the lower-cased texts
    of its records, taken in input order. *)
Theorem keywords_per_topic (clustered_data : list item)
    (topics_dict : list (Z * string)) (top_n : nat) :
  exists topic_keywords,
    extract_keywords_per_topic clustered_data topics_dict top_n = Ok topic_keywords
    /\ forall cid name,
         dict_get (Some cid) topics_dict = Ok name ->
         (forall cid', dict_get (Some cid') topics_dict = Ok name -> cid' = cid) ->
         topic_keywords !! name
         = match members clustered_data cid with
           | [] => None
           | _ => Some (top_keywords (lowered_texts clustered_data cid) top_n)
           end.
Proof.
  unfold extract_keywords_per_topic. rewrite topic_texts_grouped.
  set (data' := map lowered (List.filter (kept topics_dict) clustered_data)).
  change (fold_left _ data' []) with (Naming.group_texts data').
  destruct (group_texts_spec data') as [Hnd Hgroups].
  destruct (keyword_loop_spec topics_dict top_n (Naming.group_texts data') ∅)
    as (kw & Hrun & Hkw); [|done|].
  { apply List.Forall_forall. intros [k ts] Hin. simpl.
    apply Hgroups in Hin as [Hk _].
    apply kept_keys in Hk as (cid & -> & Hin & _). by apply in_dict_dict_get. }
  exists kw. split; [done|]. intros cid name Hname Huniq.
  destruct (Hkw (Some cid) name Hname) as [Hin Hout].
  { intros [c|] Hc; [f_equal; by apply Huniq | done]. }
  pose proof (dict_get_in_dict _ _ _ Hname) as Hdict.
  destruct (members clustered_data cid) as [|it l] eqn:Hm.
  - rewrite Hout; [done|]. intros Hk.
    apply list_elem_of_In, in_map_iff in Hk as ([k ts] & Hk' & Hk). simpl in Hk'. subst k.
    apply Hgroups in Hk as [Hk _].
    apply kept_keys in Hk as (c & [= <-] & _ & Hne). by rewrite Hm in Hne.
  - rewrite (Hin (Naming.texts_of data' (Some cid))).
    + unfold data'. by rewrite members_kept.
    + apply Hgroups. split; [|done]. apply kept_keys. exists cid.
      split; [done|]. split; [done|]. by rewrite Hm.
Qed.

End TopicKeywordFacts.

Example sample_keywords :
  Keywords.extract_all_keywords sample_texts 3 = [("solar", 3); ("power", 3); ("wind", 2)]
  /\ TopicKeywords.extract_keywords_per_topic sample_texts
       [(0%Z, "Energy"); (1%Z, "Farms"); (2%Z, "Other")] 2
     = Ok {[ "Energy" := ["power"; "solar"]; "Farms" := ["wind"; "solar"] ]}.
Proof. split; [reflexivity | by vm_compute]. Qed.


(** ** From the extracted texts to docexplore.json *)

Section PipelineFacts.
Import PyStr Reference Aggregator Extraction EmbeddingGeneration Pipeline.
Context {model : Type}.
Variable fit : list string -> result model.
Variable transform : model -> string -> list float.
Variable kmeans : Z -> Clustering.matrix -> result (list Z).
Variable silhouette : Z -> Clustering.matrix -> result Q.
Variable MAX_KEYWORDS : nat.
Variable count_vectorizer : list string -> result (list string * list Z).
Variable argsort : list Z -> list nat.

Lemma label_loop_payload labels : forall i data saved,
  Clustering.label_loop i labels data = Ok saved -> map payload saved = map payload data.
Proof.
  induction labels as [|c labels IH]; intros i data saved Hrun; simpl in Hrun.
  - by injection Hrun as <-.
  - destruct (data !! i) as [it|] eqn:Hit; [|discriminate].
    rewrite (IH _ _ _ Hrun). clear Hrun IH. revert i Hit.
    induction data as [|x data IHd]; intros [|i] Hit; simpl in *; try done.
    + by injection Hit as ->.
    + f_equal. by apply IHd.
Qed.

Lemma clustering_main_payload data clustered :
  fst (Clustering.clustering_main kmeans silhouette data) = Ok clustered ->
  map payload clustered = map payload data.
Proof.
  unfold Clustering.clustering_main, Clustering.save_clustered_data.
  destruct (Clustering.perform_clustering _ _ _ _) as [[labels|e] log].
  - destruct (Clustering.label_loop 0 labels data) as [saved|e] eqn:Hrun;
      simpl; [|discriminate].
    intros [= <-]. by eapply label_loop_payload.
  - destruct e; simpl; try discriminate. by intros [= <-].
Qed.

Lemma payload_of_records m recs : forall chunks idx,
  map id recs = map Z.of_nat (seq idx (length chunks)) ->
  map text recs = chunks ->
  Forall (fun it => embedding it = Some (transform m (text it))
                    /\ cluster it = None) recs ->
  map payload recs
  = imap (fun i c => (Z.of_nat (idx + i), c, Some (transform m c))) chunks.
Proof.
  induction recs as [|it recs IH]; intros chunks idx Hid Htext Hemb.
  - simpl in Htext. by subst chunks.
  - destruct chunks as [|c chunks]; [done|]. simpl in Hid, Htext.
    injection Hid as Hid0 Hid. injection Htext as Htext0 Htext.
    apply Forall_cons in Hemb as [[Hemb0 _] Hemb].
    cbn [map imap]. f_equal.
    + unfold payload. rewrite Hid0, Hemb0, Htext0. by rewrite Nat.add_0_r.
    + rewrite (IH chunks (S idx) Hid Htext Hemb). apply imap_ext.
      intros i x _. simpl. do 3 f_equal. lia.
Qed.

(** X23. A run files every chunk. When the chunking script has
    returned, no written chunk contains the text of the end-of-chunk
    marker, at least two written chunks are not empty, the vectorizer
    fits on them and gives each a vector that is not empty, then under
    scikit-learn's contract for KMeans every later script completes and
    docexplore.json is written. Its items, cluster labels apart, are
    exactly the non-empty written chunks, each once, numbered from 0 in
    the order they were written and carrying its vector; every item
    carries the id of the cluster it is filed under; and every cluster
    bears the name the topic namer makes of its own texts. *)
Theorem run_files_every_chunk (texts : list string) (chunks_path : string)
    (chunked : Chunker.chunked) (m : model) :
  let chunks := List.filter (fun c => negb (is_empty c)) (Chunker.written chunked) in
  Chunker.chunk_all_texts (Extraction.all_texts_file texts) chunks_path 4000
  = Some chunked ->
  Forall (fun c => contains chunk_marker c = false) (Chunker.written chunked) ->
  fit chunks = Ok m ->
  Forall (fun c => transform m c <> []) chunks ->
  Clustering.kmeans_contract kmeans ->
  2 <= length chunks ->
  exists docexplore,
    run fit transform kmeans silhouette MAX_KEYWORDS count_vectorizer argsort
      texts chunks_path = Completed docexplore
    /\ map payload (flat_map cl_items (clusters docexplore))
       ≡ₚ imap (fun i c => (Z.of_nat i, c, Some (transform m c))) chunks
    /\ Forall (fun c =>
                 Forall (fun it => cluster it = Some (cl_id c)) (cl_items c)
                 /\ cl_name c
                    = fst (TopicNaming.name_cluster MAX_KEYWORDS count_vectorizer argsort
                             (map text (cl_items c)) (cl_id c)))
              (clusters docexplore).
Proof.
  intros chunks Hchunked Hmarker Hfit Hvec Hkm Htwo.
  assert (read_chunks (Chunker.output chunked) = chunks) as Hread.
  { revert Hchunked Hmarker. unfold Chunker.chunk_all_texts.
    destruct (Chunker.chunk_docs _ _) as [cs|]; [|discriminate].
    intros [= <-] Hno. unfold chunks. cbn [Chunker.output Chunker.written] in *.
    unfold read_chunks, split_on.
    rewrite <- (read_back (map strip cs) ""); [done | done |].
    apply List.Forall_forall. intros c Hc. split.
    - apply in_map_iff in Hc as (c0 & <- & _). apply strip_stripped.
    - rewrite List.Forall_forall in Hno. by apply Hno. }
  unfold run. rewrite Hchunked. unfold generate_embeddings. rewrite Hread, Hfit.
  destruct (embed_loop_fitted _ fit transform m chunks 0 [])
    as (recs & Hrun & Hid & Htext & Hemb).
  rewrite Hrun. cbn [fst app].
  assert (map payload recs = imap (fun i c => (Z.of_nat i, c, Some (transform m c))) chunks)
    as Hpay.
  { by rewrite (payload_of_records m recs chunks 0 Hid Htext Hemb). }
  assert (Forall (fun it => Clustering.has_embedding it = true) recs) as Hhas.
  { rewrite <- Htext in Hvec. clear -Hemb Hvec.
    induction recs as [|it recs IH]; [constructor|].
    apply Forall_cons in Hemb as [[He _] Hemb].
    simpl in Hvec. apply Forall_cons in Hvec as [Hv Hvec].
    constructor; [|by apply IH].
    unfold Clustering.has_embedding. rewrite He.
    by destruct (transform m (text it)). }
  assert (length recs = length chunks) as Hlen by (by rewrite <- Htext, length_map).
  destruct (cluster_then_assemble_succeeds kmeans silhouette recs ∅ Hkm Hhas)
    as [art0 Hart0]; [lia|].
  unfold cluster_then_assemble in Hart0.
  destruct (fst (Clustering.clustering_main kmeans silhouette recs))
    as [clustered|e] eqn:Hmain; [|discriminate].
  set (names := fst (Naming.assign_cluster_names _ _ _ clustered)).
  apply generate_clusters in Hart0 as (d & Hgroup & _ & _).
  pose proof (group_loop_order clustered [] d Hgroup) as Hd. simpl in Hd.
  assert (exists art, fst (aggregator_main clustered names) = Ok art
                      /\ clusters art
                         = map (fun '(cid, items) =>
                                  {| cl_id := cid; cl_name := name_of names cid;
                                     cl_items := items |}) d) as (art & Hart & Hcls).
  { unfold aggregator_main, generate_docexplore_json. rewrite Hgroup. simpl.
    by eexists. }
  rewrite Hart. exists art. split; [done|]. split.
  - destruct (aggregator_groups_in_order_keys _ _ _ _ _ _ _ Hart) as [_ Hperm].
    rewrite Hperm, (clustering_main_payload _ _ Hmain). by rewrite Hpay.
  - rewrite Hcls, Hd, map_map. apply List.Forall_forall. intros c Hc.
    apply in_map_iff in Hc as (cid & <- & Hcid). simpl. split.
    + apply List.Forall_forall. intros it Hit. by apply members_In in Hit as [_ Hit].
    + unfold name_of, names. by rewrite (assigned_name _ _ _ clustered cid Hcid).
Qed.

End PipelineFacts.

Lemma run_files_every_chunk_witness :
  exists docexplore,
    Pipeline.run EmbeddingGeneration.toy_fit EmbeddingGeneration.toy_transform
      Clustering.kmeans_round_robin Clustering.silhouette_flat
      3 TopicNaming.toy_vectorizer TopicNaming.stable_argsort
      sample_documents "chunks.txt" = Pipeline.Completed docexplore
    /\ map Pipeline.payload (flat_map Aggregator.cl_items (Aggregator.clusters docexplore))
       ≡ₚ imap (fun i c =>
                  (Z.of_nat i, c,
                   Some (EmbeddingGeneration.toy_transform
                           ["solar"; "power"; "wind"; "farms"] c)))
               (List.filter (fun c => negb (PyStr.is_empty c))
                            (Chunker.written sample_run_chunked))
    /\ Forall (fun c =>
                 Forall (fun it => cluster it = Some (Aggregator.cl_id c))
                        (Aggregator.cl_items c)
                 /\ Aggregator.cl_name c
                    = fst (TopicNaming.name_cluster 3 TopicNaming.toy_vectorizer
                             TopicNaming.stable_argsort
                             (map text (Aggregator.cl_items c)) (Aggregator.cl_id c)))
              (Aggregator.clusters docexplore).
Proof.
  apply (run_files_every_chunk EmbeddingGeneration.toy_fit
           EmbeddingGeneration.toy_transform Clustering.kmeans_round_robin
           Clustering.silhouette_flat 3 TopicNaming.toy_vectorizer
           TopicNaming.stable_argsort sample_documents "chunks.txt"
           sample_run_chunked ["solar"; "power"; "wind"; "farms"]).
  - reflexivity.
  - repeat constructor.
  - reflexivity.
  - repeat constructor; discriminate.
  - apply kmeans_round_robin_contract.
  - simpl. lia.
Defined.
